(** * Contribution-activity audit: the paginated collection engine

    A shallow embedding of [users_contribution_activity.py]: the request
    layer [run_query], the [later] merge rule, the cursor-driven feed
    collectors, the per-repository aggregation done in [main], and the
    row and status computation of [save_to_csv].

    Conventions of the embedding.
    - A JSON document parsed by [response.json()] is a value of [json];
      Python's [None] is [JNull].  An object holds the items of the
      parsed [dict], whose keys are distinct.  The dynamic operations
      the program applies to such values ([x[k]], [x.get(k, d)],
      [k in x], [not x], iteration) are embedded with the exceptions
      Python raises.  Numbers are integers: no query selects a number.
    - Logins and dates are read as strings, the type the schema of the
      queries gives them ([String!], [DateTime!]); timestamps are
      compared as Python compares [str], lexicographically.
    - Effects are explicit: a computation threads a [world] (the number
      of POSTs issued so far and the log of [time.sleep] durations) and
      ends in a value, a raised exception or, for the [while True]
      loops, exhaustion of the fuel.
    - The remote server is a function from the index of the POST and the
      request to what [SESSION.post] does at that call, the retries of
      the mounted [HTTPAdapter] included: a response with its final
      status, or an exception.
    - Output ([print], the CSV file) is not control flow.  When
      [save_to_csv] completes it yields the rows it has handed to the
      writer, in order; when it raises, the rows already in the file
      are not tracked. *)

From Stdlib Require Import ZArith List String Ascii Bool Lia.
From stdpp Require Import gmap strings list sorting.
Import ListNotations.

Set Warnings "-register-all".

Local Open Scope Z_scope.
Local Open Scope string_scope.
Local Open Scope list_scope.

(** ** Exceptions and results *)

Inductive exn : Type :=
| ConnectionError            (* requests.exceptions.ConnectionError *)
| Timeout                    (* requests.exceptions.Timeout *)
| JSONDecodeError            (* response.json() on a body that is not JSON *)
| KeyError
| TypeError
| AttributeError
| ValueError
| QueryFailed (status : Z)   (* the Exception built at line 60 *)
| OtherError                 (* any other subclass of Exception *)
| OverflowError              (* a [timedelta] or [datetime] out of range *)
| OutsideSchema.             (* a leaf the GraphQL schema types as String! is not a string *)

Inductive res (A : Type) : Type :=
| Ret (a : A)
| Raise (e : exn)
| OutOfFuel.

Arguments Ret {A} a.
Arguments Raise {A} e.
Arguments OutOfFuel {A}.

Definition rbind {A B : Type} (r : res A) (k : A -> res B) : res B :=
  match r with
  | Ret a => k a
  | Raise e => Raise e
  | OutOfFuel => OutOfFuel
  end.

Notation "'let*' x ':=' e 'in' k" := (rbind e (fun x => k))
  (at level 10, x name, e at level 100, k at level 200).

Fixpoint mapR {A B : Type} (f : A -> res B) (l : list A) : res (list B) :=
  match l with
  | [] => Ret []
  | x :: l' => let* y := f x in let* ys := mapR f l' in Ret (y :: ys)
  end.

Fixpoint foldR {A B : Type} (f : A -> B -> res A) (a : A) (l : list B) : res A :=
  match l with
  | [] => Ret a
  | x :: l' => let* a' := f a x in foldR f a' l'
  end.

(** ** JSON values and the Python operations on them *)

Inductive json : Type :=
| JNull
| JBool (b : bool)
| JNum (n : Z)
| JStr (s : string)
| JArr (l : list json)
| JObj (o : list (string * json)).

Fixpoint assoc {V : Type} (k : string) (o : list (string * V)) : option V :=
  match o with
  | [] => None
  | (k', v) :: o' => if String.eqb k k' then Some v else assoc k o'
  end.

(** [not v] is [negb (truthy v)]. *)
Definition truthy (v : json) : bool :=
  match v with
  | JNull => false
  | JBool b => b
  | JNum n => negb (n =? 0)%Z
  | JStr s => negb (String.eqb s "")
  | JArr l => match l with [] => false | _ => true end
  | JObj o => match o with [] => false | _ => true end
  end.

(** [v[k]] for a string [k]. *)
Definition getitem (v : json) (k : string) : res json :=
  match v with
  | JObj o => match assoc k o with Some x => Ret x | None => Raise KeyError end
  | _ => Raise TypeError
  end.

(** [v.get(k, d)]. *)
Definition get (v : json) (k : string) (d : json) : res json :=
  match v with
  | JObj o => Ret (match assoc k o with Some x => x | None => d end)
  | _ => Raise AttributeError
  end.

Fixpoint substring_of (k s : string) : bool :=
  String.prefix k s ||
  match s with
  | EmptyString => false
  | String _ s' => substring_of k s'
  end.

(** [k in v] for a string [k]. *)
Definition contains (k : string) (v : json) : res bool :=
  match v with
  | JObj o => Ret (match assoc k o with Some _ => true | None => false end)
  | JArr l => Ret (existsb (fun x => match x with JStr s => String.eqb s k | _ => false end) l)
  | JStr s => Ret (substring_of k s)
  | _ => Raise TypeError
  end.

(** The items a [for x in v] visits. *)
Definition py_iter (v : json) : res (list json) :=
  match v with
  | JArr l => Ret l
  | JObj o => Ret (map (fun kv => JStr (fst kv)) o)
  | JStr s => Ret (map (fun c => JStr (String c EmptyString)) (list_ascii_of_string s))
  | _ => Raise TypeError
  end.

(** Logins and dates are [String!] in the schema the queries are written
    against; a response that breaks this is outside the model. *)
Definition as_str (v : json) : res string :=
  match v with
  | JStr s => Ret s
  | _ => Raise OutsideSchema
  end.

(** ** [later] (lines 78-81) *)

Definition truthy_ts (ts : option string) : bool :=
  match ts with
  | None => false
  | Some s => negb (String.eqb s "")
  end.

(** [max(a, b)] on strings: [b] is taken only when [b > a]. *)
Definition py_max (a b : string) : string :=
  if String.ltb a b then b else a.

Definition later (ts1 ts2 : option string) : option string :=
  if negb (truthy_ts ts1) then ts2
  else if negb (truthy_ts ts2) then ts1
  else match ts1, ts2 with
       | Some a, Some b => Some (py_max a b)
       | _, _ => ts1
       end.

(** ** The world: POST counter and sleep log *)

Inductive query : Type :=
| QMembers | QRepos | QBranches | QCommits | QIssues | QPRs.

Record request : Type := mk_request {
  req_query : query;
  req_variables : list (string * json)
}.

Record response : Type := mk_response {
  status_code : Z;
  body : option json       (* what [response.json()] parses; [None]: not JSON *)
}.

Inductive http_outcome : Type :=
| Responds (r : response)
| PostRaises (e : exn).

Definition network : Type := nat -> request -> http_outcome.

Record world : Type := mk_world {
  posts : nat;
  slept : list Z
}.

Definition M (A : Type) : Type := world -> res A * world.

Definition ret {A : Type} (a : A) : M A := fun w => (Ret a, w).
Definition raise {A : Type} (e : exn) : M A := fun w => (Raise e, w).
Definition diverge {A : Type} : M A := fun w => (OutOfFuel, w).

Definition bind {A B : Type} (m : M A) (k : A -> M B) : M B :=
  fun w =>
    match m w with
    | (Ret a, w') => k a w'
    | (Raise e, w') => (Raise e, w')
    | (OutOfFuel, w') => (OutOfFuel, w')
    end.

Notation "x <- e ;; k" := (bind e (fun x => k))
  (at level 100, e at next level, k at level 200, right associativity).
Notation "e ;;; k" := (bind e (fun _ => k))
  (at level 100, k at level 200, right associativity).

Definition lift {A : Type} (r : res A) : M A := fun w => (r, w).

Definition sleep (secs : Z) : M unit :=
  fun w => (Ret tt, {| posts := posts w; slept := slept w ++ [secs] |}).

(** [try: body except ...: handler]; every class of [exn] derives from
    [Exception]. *)
Definition try_except {A : Type} (body : M A) (handler : exn -> M A) : M A :=
  fun w =>
    match body w with
    | (Raise e, w') => handler e w'
    | other => other
    end.

Definition session_post (net : network) (req : request) : M response :=
  fun w =>
    let w' := {| posts := S (posts w); slept := slept w |} in
    match net (posts w) req with
    | Responds r => (Ret r, w')
    | PostRaises e => (Raise e, w')
    end.

Definition response_json (r : response) : res json :=
  match body r with
  | Some j => Ret j
  | None => Raise JSONDecodeError
  end.

(** ** [run_query] (lines 38-76) *)

Definition RATE_DELAY : Z := 3.

(** How one iteration of the [for attempt in range(max_attempts)] loop
    ends: by [return v], or by reaching the next iteration ([continue]
    or the end of the [try] statement). *)
Inductive step : Type :=
| Return (v : json)
| Next.

Definition is_network_error (e : exn) : bool :=
  match e with
  | ConnectionError | Timeout => true
  | _ => false
  end.

Definition attempt_body (net : network) (req : request)
    (max_attempts attempt : nat) : M step :=
  try_except
    (response <- session_post net req ;;
     if (status_code response =? 200)%Z then
       d <- lift (let* j := response_json response in getitem j "data") ;;
       ret (Return d)
     else if (status_code response =? 403)%Z then
       sleep 60 ;;; ret Next
     else if (attempt <? max_attempts - 1)%nat then
       sleep (5 * (Z.of_nat attempt + 1)) ;;; ret Next
     else
       raise (QueryFailed (status_code response)))
    (fun e =>
       if is_network_error e then
         if (attempt <? max_attempts - 1)%nat then
           sleep (5 * 2 ^ Z.of_nat attempt) ;;; ret Next
         else ret (Return JNull)
       else
         if (attempt <? max_attempts - 1)%nat then
           sleep (5 * (Z.of_nat attempt + 1)) ;;; ret Next
         else ret (Return JNull)).

Fixpoint run_query_from (net : network) (req : request) (max_attempts : nat)
    (attempts : list nat) : M json :=
  match attempts with
  | [] => ret JNull
  | attempt :: rest =>
      s <- attempt_body net req max_attempts attempt ;;
      match s with
      | Return v => ret v
      | Next => run_query_from net req max_attempts rest
      end
  end.

Definition run_query (net : network) (q : query) (variables : list (string * json))
    (max_attempts : nat) : M json :=
  run_query_from net (mk_request q variables) max_attempts (seq 0 max_attempts).

(** ** Feed collectors (lines 83-291)

    Each [while True] loop is a fixpoint on a fuel argument; one unit of
    fuel is one iteration.  The accumulator and the cursor are the loop
    variables of the source. *)

(** [not result or key not in result] *)
Definition falsy_or_missing (key : string) (result : json) : res bool :=
  if negb (truthy result) then Ret true
  else let* present := contains key result in Ret (negb present).

Definition page_info_of (data : json) (field : string) : res json :=
  let* p := getitem data "pageInfo" in getitem p field.

Definition org_variables (org : string) (cursor : json) : list (string * json) :=
  [("org", JStr org); ("cursor", cursor)].

Definition repo_variables (org repo : string) (cursor : json) : list (string * json) :=
  [("org", JStr org); ("repo", JStr repo); ("cursor", cursor)].

Fixpoint get_all_org_members_loop (net : network) (org : string) (fuel : nat)
    (users : gset string) (cursor : json) : M (gset string) :=
  match fuel with
  | O => diverge
  | S fuel' =>
      result <- run_query net QMembers (org_variables org cursor) 3 ;;
      stop <- lift (falsy_or_missing "organization" result) ;;
      if (stop : bool) then ret users else
      data <- lift (let* o := getitem result "organization" in
                    getitem o "membersWithRole") ;;
      logins <- lift (let* nodes := getitem data "nodes" in
                      let* items := py_iter nodes in
                      mapR (fun user => let* l := getitem user "login" in as_str l) items) ;;
      let users := users ∪ list_to_set logins in
      more <- lift (page_info_of data "hasNextPage") ;;
      if negb (truthy more) then ret users else
      cursor <- lift (page_info_of data "endCursor") ;;
      sleep RATE_DELAY ;;;
      get_all_org_members_loop net org fuel' users cursor
  end.

Definition get_all_org_members (net : network) (org : string) (fuel : nat)
    : M (gset string) :=
  get_all_org_members_loop net org fuel ∅ JNull.

Fixpoint get_all_repos_loop (net : network) (org : string) (fuel : nat)
    (repos : list json) (cursor : json) : M (list json) :=
  match fuel with
  | O => diverge
  | S fuel' =>
      result <- run_query net QRepos (org_variables org cursor) 3 ;;
      stop <- lift (falsy_or_missing "organization" result) ;;
      if (stop : bool) then ret repos else
      data <- lift (let* o := getitem result "organization" in
                    getitem o "repositories") ;;
      names <- lift (let* nodes := getitem data "nodes" in
                     let* items := py_iter nodes in
                     mapR (fun r => getitem r "name") items) ;;
      let repos := repos ++ names in
      more <- lift (page_info_of data "hasNextPage") ;;
      if negb (truthy more) then ret repos else
      cursor <- lift (page_info_of data "endCursor") ;;
      sleep RATE_DELAY ;;;
      get_all_repos_loop net org fuel' repos cursor
  end.

Definition get_all_repos (net : network) (org : string) (fuel : nat) : M (list json) :=
  get_all_repos_loop net org fuel [] JNull.

(** [branches or ["main"]] *)
Definition or_main (branches : list json) : list json :=
  match branches with
  | [] => [JStr "main"]
  | _ => branches
  end.

Fixpoint get_branches_loop (net : network) (org repo : string) (fuel : nat)
    (branches : list json) (cursor : json) : M (list json) :=
  match fuel with
  | O => diverge
  | S fuel' =>
      result <- run_query net QBranches (repo_variables org repo cursor) 3 ;;
      stop <- lift (let* missing := falsy_or_missing "repository" result in
                    if (missing : bool) then Ret true
                    else let* r := getitem result "repository" in Ret (negb (truthy r))) ;;
      if (stop : bool) then ret branches else
      refs <- lift (let* r := getitem result "repository" in getitem r "refs") ;;
      names <- lift (let* nodes := getitem refs "nodes" in
                     let* items := py_iter nodes in
                     mapR (fun b => getitem b "name") items) ;;
      let branches := branches ++ names in
      more <- lift (page_info_of refs "hasNextPage") ;;
      if negb (truthy more) then ret branches else
      cursor <- lift (page_info_of refs "endCursor") ;;
      sleep RATE_DELAY ;;;
      get_branches_loop net org repo fuel' branches cursor
  end.

Definition get_branches (net : network) (org repo : string) (fuel : nat)
    : M (list json) :=
  branches <- get_branches_loop net org repo fuel [] JNull ;;
  ret (or_main branches).

(** ** Dictionaries keyed by login

    A Python [dict] with string keys is the list of its items in
    insertion order; keys are distinct. *)

Definition dict (V : Type) : Type := list (string * V).

Definition dict_mem {V : Type} (k : string) (d : dict V) : bool :=
  match assoc k d with
  | Some _ => true
  | None => false
  end.

(** [d[k] = v] *)
Fixpoint dict_set {V : Type} (k : string) (v : V) (d : dict V) : dict V :=
  match d with
  | [] => [(k, v)]
  | (k', v') :: d' =>
      if String.eqb k k' then (k', v) :: d' else (k', v') :: dict_set k v d'
  end.

(** [d[k][field] = f(d[k])] for a key that is present; the program only
    does this right after making sure the key is there. *)
Definition dict_alter {V : Type} (f : V -> V) (k : string) (d : dict V) : dict V :=
  match assoc k d with
  | Some v => dict_set k (f v) d
  | None => d
  end.

(** ** Timestamped activity (lines 161-291)

    An entry of a per-category map: [{"commits": n, "last_commit": ts}],
    [{"issues": n, "last_issue": ts}] or [{"prs": n, "last_pr": ts}]. *)

Record activity : Type := mk_activity {
  n_events : nat;
  last_event : option string
}.

(** The body shared by lines 211-214, 247-250 and 283-286. *)
Definition observe (user_activity : dict activity) (login ts : string) : dict activity :=
  let user_activity :=
    if dict_mem login user_activity then user_activity
    else dict_set login (mk_activity 0 (Some ts)) user_activity in
  let user_activity :=
    dict_alter (fun e => mk_activity (n_events e + 1) (last_event e)) login user_activity in
  dict_alter (fun e => mk_activity (n_events e) (later (last_event e) (Some ts)))
    login user_activity.

(** Lines 207-214: one commit edge. *)
Definition commit_edge (user_activity : dict activity) (edge : json) : res (dict activity) :=
  let* author := (let* node := getitem edge "node" in
                  let* a := getitem node "author" in
                  getitem a "user") in
  if truthy author then
    let* login := (let* l := getitem author "login" in as_str l) in
    let* committed := (let* node := getitem edge "node" in
                       let* c := getitem node "committedDate" in as_str c) in
    Ret (observe user_activity login committed)
  else Ret user_activity.

(** Lines 243-250 and 279-286: one issue or pull-request node. *)
Definition created_node (user_activity : dict activity) (node : json) : res (dict activity) :=
  let* author := getitem node "author" in
  let* attributed := (if truthy author
                      then let* l := get author "login" JNull in Ret (truthy l)
                      else Ret false) in
  if (attributed : bool) then
    let* login := (let* l := getitem author "login" in as_str l) in
    let* created := (let* c := getitem node "createdAt" in as_str c) in
    Ret (observe user_activity login created)
  else Ret user_activity.

Definition commit_variables (org repo branch : string) (cursor : json)
    : list (string * json) :=
  [("org", JStr org); ("repo", JStr repo);
   ("branch", JStr ("refs/heads/" ++ branch)); ("cursor", cursor)].

Fixpoint get_commit_activity_loop (net : network) (org repo branch : string)
    (fuel : nat) (user_activity : dict activity) (cursor : json) : M (dict activity) :=
  match fuel with
  | O => diverge
  | S fuel' =>
      result <- run_query net QCommits (commit_variables org repo branch cursor) 3 ;;
      stop <- lift (if negb (truthy result) then Ret true
                    else let* r := get result "repository" JNull in Ret (negb (truthy r))) ;;
      if (stop : bool) then ret user_activity else
      ref <- lift (let* r := getitem result "repository" in get r "ref" JNull) ;;
      stop <- lift (if negb (truthy ref) then Ret true
                    else let* t := get ref "target" JNull in Ret (negb (truthy t))) ;;
      if (stop : bool) then ret user_activity else
      history <- lift (let* t := getitem ref "target" in get t "history" (JObj [])) ;;
      user_activity <- lift (let* edges := get history "edges" (JArr []) in
                             let* items := py_iter edges in
                             foldR commit_edge user_activity items) ;;
      more <- lift (let* p := get history "pageInfo" (JObj []) in
                    get p "hasNextPage" JNull) ;;
      if negb (truthy more) then ret user_activity else
      cursor <- lift (page_info_of history "endCursor") ;;
      sleep RATE_DELAY ;;;
      get_commit_activity_loop net org repo branch fuel' user_activity cursor
  end.

Definition get_commit_activity (net : network) (org repo branch : string) (fuel : nat)
    : M (dict activity) :=
  get_commit_activity_loop net org repo branch fuel [] JNull.

(** [get_issue_activity] and [get_pr_activity] differ in the query and in
    the connection they read ([issues] or [pullRequests]). *)
Fixpoint created_activity_loop (q : query) (connection : string) (net : network)
    (org repo : string) (fuel : nat) (user_activity : dict activity) (cursor : json)
    : M (dict activity) :=
  match fuel with
  | O => diverge
  | S fuel' =>
      result <- run_query net q (repo_variables org repo cursor) 3 ;;
      stop <- lift (falsy_or_missing "repository" result) ;;
      if (stop : bool) then ret user_activity else
      items <- lift (let* r := getitem result "repository" in getitem r connection) ;;
      user_activity <- lift (let* nodes := getitem items "nodes" in
                             let* l := py_iter nodes in
                             foldR created_node user_activity l) ;;
      more <- lift (page_info_of items "hasNextPage") ;;
      if negb (truthy more) then ret user_activity else
      cursor <- lift (page_info_of items "endCursor") ;;
      sleep RATE_DELAY ;;;
      created_activity_loop q connection net org repo fuel' user_activity cursor
  end.

Definition get_issue_activity (net : network) (org repo : string) (fuel : nat)
    : M (dict activity) :=
  created_activity_loop QIssues "issues" net org repo fuel [] JNull.

Definition get_pr_activity (net : network) (org repo : string) (fuel : nat)
    : M (dict activity) :=
  created_activity_loop QPRs "pullRequests" net org repo fuel [] JNull.

(** ** Aggregation in [main] (lines 334-360) *)

Record summary : Type := mk_summary {
  commits : nat;
  issues : nat;
  prs : nat;
  last_commit : option string;
  last_issue : option string;
  last_pr : option string
}.

Definition new_summary : summary := mk_summary 0 0 0 None None None.

Inductive category : Type := Commits | Issues | PRs.

Definition counter (c : category) (s : summary) : nat :=
  match c with
  | Commits => commits s
  | Issues => issues s
  | PRs => prs s
  end.

Definition last_of (c : category) (s : summary) : option string :=
  match c with
  | Commits => last_commit s
  | Issues => last_issue s
  | PRs => last_pr s
  end.

Definition add_count (c : category) (n : nat) (s : summary) : summary :=
  match c with
  | Commits => mk_summary (commits s + n) (issues s) (prs s)
                 (last_commit s) (last_issue s) (last_pr s)
  | Issues => mk_summary (commits s) (issues s + n) (prs s)
                 (last_commit s) (last_issue s) (last_pr s)
  | PRs => mk_summary (commits s) (issues s) (prs s + n)
                 (last_commit s) (last_issue s) (last_pr s)
  end.

Definition advance_last (c : category) (ts : option string) (s : summary) : summary :=
  match c with
  | Commits => mk_summary (commits s) (issues s) (prs s)
                 (later (last_commit s) ts) (last_issue s) (last_pr s)
  | Issues => mk_summary (commits s) (issues s) (prs s)
                 (last_commit s) (later (last_issue s) ts) (last_pr s)
  | PRs => mk_summary (commits s) (issues s) (prs s)
                 (last_commit s) (last_issue s) (later (last_pr s) ts)
  end.

(** The body of the three [for user, data in ....items()] loops
    (lines 340-344, 348-352, 356-360). *)
Definition merge_user (c : category) (repo_activity : dict summary)
    (item : string * activity) : dict summary :=
  let (user, data) := item in
  let repo_activity :=
    if dict_mem user repo_activity then repo_activity
    else dict_set user new_summary repo_activity in
  let repo_activity := dict_alter (add_count c (n_events data)) user repo_activity in
  dict_alter (advance_last c (last_event data)) user repo_activity.

Definition merge_into (c : category) (repo_activity : dict summary)
    (feed : dict activity) : dict summary :=
  fold_left (merge_user c) feed repo_activity.

(** One repository of [main]: [per_branch] are the maps returned by
    [get_commit_activity] for the branches in order, [issue_feed] and
    [pr_feed] those of [get_issue_activity] and [get_pr_activity]. *)
Definition aggregate (per_branch : list (dict activity))
    (issue_feed pr_feed : dict activity) : dict summary :=
  let repo_activity := fold_left (merge_into Commits) per_branch [] in
  let repo_activity := merge_into Issues repo_activity issue_feed in
  merge_into PRs repo_activity pr_feed.

(** Lines 331-362, for one repository: the branches are fetched, then
    the commits of each branch, the issues and the pull requests; the
    three merge loops are [aggregate].  The branch name is formatted
    into the query variables, for which it has to be the string the
    schema promises. *)
Fixpoint mapM {A B : Type} (f : A -> M B) (l : list A) : M (list B) :=
  match l with
  | [] => ret []
  | x :: l' => y <- f x ;; ys <- mapM f l' ;; ret (y :: ys)
  end.

Definition main_repo (net : network) (org repo : string) (fuel : nat)
    : M (dict summary) :=
  branches <- get_branches net org repo fuel ;;
  per_branch <- mapM (fun branch =>
                        name <- lift (as_str branch) ;;
                        get_commit_activity net org repo name fuel)
                     branches ;;
  issue_feed <- get_issue_activity net org repo fuel ;;
  pr_feed <- get_pr_activity net org repo fuel ;;
  ret (aggregate per_branch issue_feed pr_feed).

(** ** Dates: [datetime.fromisoformat] and comparison *)

(** An instant as [datetime] holds it: the wall-clock reading in
    microseconds since 1970-01-01T00:00:00 and, for an aware value, the
    offset from UTC in microseconds. *)
Record datetime : Type := mk_datetime {
  wall_us : Z;
  utcoffset : option Z
}.

Definition is_leap (y : Z) : bool :=
  (y mod 4 =? 0)%Z && (negb (y mod 100 =? 0)%Z || (y mod 400 =? 0)%Z).

Definition days_in_month (y m : Z) : Z :=
  if (m =? 2)%Z then (if is_leap y then 29 else 28)
  else if (m =? 4)%Z || (m =? 6)%Z || (m =? 9)%Z || (m =? 11)%Z then 30
  else 31.

Definition days_before_month (y m : Z) : Z :=
  nth (Z.to_nat m) [0; 0; 31; 59; 90; 120; 151; 181; 212; 243; 273; 304; 334] 0
  + (if (2 <? m)%Z && is_leap y then 1 else 0).

Definition days_before_year (y : Z) : Z :=
  let p := y - 1 in p * 365 + p / 4 - p / 100 + p / 400.

(** Proleptic Gregorian ordinal; 0001-01-01 is day 1. *)
Definition ymd2ord (y m d : Z) : Z :=
  days_before_year y + days_before_month y m + d.

Definition epoch_ordinal : Z := 719163.

Definition civil_us (y m d hh mm ss : Z) : Z :=
  ((ymd2ord y m d - epoch_ordinal) * 86400 + hh * 3600 + mm * 60 + ss) * 1000000.

Definition digit_of (c : ascii) : option Z :=
  let n := Z.of_N (N_of_ascii c) in
  if (48 <=? n)%Z && (n <=? 57)%Z then Some (n - 48) else None.

Fixpoint read_digits (n : nat) (acc : Z) (s : string) : option (Z * string) :=
  match n, s with
  | O, _ => Some (acc, s)
  | S n', String c s' =>
      match digit_of c with
      | Some d => read_digits n' (10 * acc + d) s'
      | None => None
      end
  | S _, EmptyString => None
  end.

Definition expect (c : ascii) (s : string) : option string :=
  match s with
  | String c' s' => if Ascii.eqb c c' then Some s' else None
  | EmptyString => None
  end.

Definition skip_char (s : string) : option string :=
  match s with
  | String _ s' => Some s'
  | EmptyString => None
  end.

Definition in_range (lo x hi : Z) : option unit :=
  if (lo <=? x)%Z && (x <=? hi)%Z then Some tt else None.

(** The zone suffix: absent, or a sign followed by [HH:MM]. *)
Definition parse_offset (s : string) : option (option Z) :=
  match s with
  | EmptyString => Some None
  | String sign s1 =>
      sgn ← (if Ascii.eqb sign "+" then Some 1
             else if Ascii.eqb sign "-" then Some (-1) else None) ;
      '(oh, s2) ← read_digits 2 0 s1 ;
      s3 ← expect ":" s2 ;
      '(om, s4) ← read_digits 2 0 s3 ;
      _ ← in_range 0 oh 23 ;
      _ ← in_range 0 om 59 ;
      if String.eqb s4 "" then Some (Some (sgn * (oh * 3600 + om * 60) * 1000000))
      else None
  end.

Definition parse_datetime (s : string) : option datetime :=
  '(y, s) ← read_digits 4 0 s ;
  s ← expect "-" s ;
  '(m, s) ← read_digits 2 0 s ;
  s ← expect "-" s ;
  '(d, s) ← read_digits 2 0 s ;
  s ← skip_char s ;
  '(hh, s) ← read_digits 2 0 s ;
  s ← expect ":" s ;
  '(mm, s) ← read_digits 2 0 s ;
  s ← expect ":" s ;
  '(ss, s) ← read_digits 2 0 s ;
  off ← parse_offset s ;
  _ ← in_range 1 y 9999 ;
  _ ← in_range 1 m 12 ;
  _ ← in_range 1 d (days_in_month y m) ;
  _ ← in_range 0 hh 23 ;
  _ ← in_range 0 mm 59 ;
  _ ← in_range 0 ss 59 ;
  Some (mk_datetime (civil_us y m d hh mm ss) off).

(** Modelled from the spec: the library function
    [datetime.fromisoformat] is not part of the repository.  The model
    covers the second-resolution form [YYYY-MM-DD?HH:MM:SS] with an
    optional [+HH:MM] or [-HH:MM] suffix, which is the form the API
    emits once ["Z"] is rewritten; it answers [ValueError] elsewhere,
    and no statement below depends on such an answer. *)
Definition fromisoformat (s : string) : res datetime :=
  match parse_datetime s with
  | Some dt => Ret dt
  | None => Raise ValueError
  end.

(** [s.replace(old, new)] for a one-character [old]. *)
Fixpoint replace (old : ascii) (new s : string) : string :=
  match s with
  | EmptyString => EmptyString
  | String c s' =>
      if Ascii.eqb c old then new +:+ replace old new s'
      else String c (replace old new s')
  end.

(** [a >= b] on [datetime]: instants when both are aware, wall clocks
    when both are naive, [TypeError] otherwise. *)
Definition datetime_ge (a b : datetime) : res bool :=
  match utcoffset a, utcoffset b with
  | Some oa, Some ob => Ret (wall_us b - ob <=? wall_us a - oa)%Z
  | None, None => Ret (wall_us b <=? wall_us a)%Z
  | _, _ => Raise TypeError
  end.

(** ** [save_to_csv] (lines 293-322) *)

(** The aware UTC [datetime] that lies [threshold_days] days before the
    clock reading [now_us], in microseconds since the epoch. *)
Definition cutoff_of (now_us threshold_days : Z) : datetime :=
  mk_datetime (now_us - threshold_days * 86400 * 1000000) (Some 0).

(** The bounds of the library types: [datetime.min] and [datetime.max]
    as wall clocks, and the largest number of days of a [timedelta]. *)
Definition datetime_min_us : Z := civil_us 1 1 1 0 0 0.
Definition datetime_max_us : Z := civil_us 9999 12 31 23 59 59 + 999999.
Definition timedelta_max_days : Z := 999999999.

(** Line 296, [datetime.now(timezone.utc) - timedelta(days=THRESHOLD_DAYS)]:
    the constructor of [timedelta] raises [OverflowError] beyond
    [timedelta_max_days] days either way, and so does the subtraction
    when the difference is not a [datetime] of the years 1 to 9999. *)
Definition utc_cutoff (now_us threshold_days : Z) : res datetime :=
  if (Z.abs threshold_days <=? timedelta_max_days)%Z then
    let cutoff := cutoff_of now_us threshold_days in
    if (datetime_min_us <=? wall_us cutoff)%Z && (wall_us cutoff <=? datetime_max_us)%Z
    then Ret cutoff
    else Raise OverflowError
  else Raise OverflowError.

(** Lines 313-318: the pair (cell shown as last activity, status). *)
Definition classify (cutoff : datetime) (last_activity : option string)
    : res (string * string) :=
  match last_activity with
  | Some ts =>
      if truthy_ts last_activity then
        let* dt := fromisoformat (replace "Z" "+00:00" ts) in
        let* recent := datetime_ge dt cutoff in
        Ret (ts, if (recent : bool) then "Active" else "Inactive")
      else Ret ("N/A", "Inactive")
  | None => Ret ("N/A", "Inactive")
  end.

Inductive cell : Type :=
| CStr (s : string)
| CInt (n : nat).

(** Lines 304-320: the row written for one roster member. *)
Definition user_row (cutoff : datetime) (activity : dict summary) (user : string)
    : res (list cell) :=
  let data := assoc user activity in
  let n_commits := from_option commits 0%nat data in
  let n_issues := from_option issues 0%nat data in
  let n_prs := from_option prs 0%nat data in
  let t_commit := data ≫= last_commit in
  let t_issue := data ≫= last_issue in
  let t_pr := data ≫= last_pr in
  let last_activity := later (later t_commit t_issue) t_pr in
  let* shown := classify cutoff last_activity in
  Ret [CStr user; CInt n_commits; CInt n_issues; CInt n_prs;
       CStr (fst shown); CStr (snd shown)].

(** [sorted(all_users)] *)
Definition sorted (all_users : gset string) : list string :=
  merge_sort String.le (elements all_users).

(** Lines 303-320: the rows of one repository. *)
Definition user_rows (cutoff : datetime) (activity : dict summary)
    (all_users : gset string) : res (list (list cell)) :=
  mapR (user_row cutoff activity) (sorted all_users).

Definition header : list cell :=
  [CStr "Username"; CStr "Commits"; CStr "Issues"; CStr "PRs";
   CStr "Last Activity"; CStr "Status"].

(** The rows handed to the CSV writer, in order.  The cutoff is computed
    first, before the file is opened (line 296). *)
Definition save_to_csv (now_us threshold_days : Z) (repo_data : dict (dict summary))
    (all_users : gset string) : res (list (list cell)) :=
  let* cutoff := utc_cutoff now_us threshold_days in
  let* blocks :=
    mapR (fun item : string * dict summary =>
            let* rows := user_rows cutoff (snd item) all_users in
            Ret ([CStr ("Repository: " +:+ fst item)] :: header :: rows ++ [[]]))
         repo_data in
  Ret (concat blocks).

(** * Vocabulary of the statements *)

(** ** Transport *)

(** What a POST hands back to [run_query] when it is a success: the
    status is 200 and the body is JSON with a ["data"] member. *)
Definition payload (o : http_outcome) : option json :=
  match o with
  | Responds r =>
      if (status_code r =? 200)%Z then
        match (let* j := response_json r in getitem j "data") with
        | Ret d => Some d
        | _ => None
        end
      else None
  | PostRaises _ => None
  end.

Definition is_403 (o : http_outcome) : bool :=
  match o with
  | Responds r => (status_code r =? 403)%Z
  | PostRaises _ => false
  end.

(** The reading of the 403 policy under which a 403 does not use up an
    attempt: any run of 403 responses followed by a success ends in the
    successful result. *)
Definition forbidden_is_free : Prop :=
  forall (net : network) (q : query) (variables : list (string * json))
         (max_attempts k : nat) (w : world) (d : json),
    (0 < max_attempts)%nat ->
    (forall i, (i < k)%nat ->
       is_403 (net (posts w + i)%nat (mk_request q variables)) = true) ->
    payload (net (posts w + k)%nat (mk_request q variables)) = Some d ->
    fst (run_query net q variables max_attempts w) = Ret d.

(** A response with status 200 and the given JSON body. *)
Definition ok (body : json) : http_outcome :=
  Responds (mk_response 200 (Some body)).

(** The world before the first POST. *)
Definition w0 : world := mk_world 0 [].

(** ** Served feeds *)

Definition page_info (has_next : bool) (end_cursor : json) : json :=
  JObj [("hasNextPage", JBool has_next); ("endCursor", end_cursor)].

Definition named (name : json) : json := JObj [("name", name)].

(** A connection of named nodes, as the repository and branch queries
    select it. *)
Definition connection (names : list json) (has_next : bool) (end_cursor : json) : json :=
  JObj [("pageInfo", page_info has_next end_cursor);
        ("nodes", JArr (map named names))].

Definition repos_page (names : list json) (has_next : bool) (end_cursor : json) : json :=
  JObj [("data",
         JObj [("organization",
                JObj [("repositories", connection names has_next end_cursor)])])].

Definition branches_page (names : list json) (has_next : bool) (end_cursor : json)
    : json :=
  JObj [("data",
         JObj [("repository",
                JObj [("refs", connection names has_next end_cursor)])])].

Definition has_more {A : Type} (rest : list A) : bool :=
  match rest with
  | [] => false
  | _ => true
  end.

(** A feed split into pages.  Each page carries its items and the
    cursor the server issues with it; every page but the last announces
    a next page.  [serves net mk page n cursor pages] says that the
    POSTs number [n], [n + 1], ... answer the requests built by [mk]
    from the chained cursors with the pages, in order. *)
Fixpoint serves (net : network) (mk : json -> request)
    (page : list json -> bool -> json -> json)
    (n : nat) (cursor : json) (pages : list (list json * json)) : Prop :=
  match pages with
  | [] => True
  | (items, next) :: rest =>
      net n (mk cursor) = ok (page items (has_more rest) next) /\
      serves net mk page (S n) next rest
  end.

Definition repos_request (org : string) (cursor : json) : request :=
  mk_request QRepos (org_variables org cursor).

Definition branches_request (org repo : string) (cursor : json) : request :=
  mk_request QBranches (repo_variables org repo cursor).

Definition items_of (pages : list (list json * json)) : list json :=
  concat (map fst pages).

(** An attributed activity record: (login, timestamp). *)
Definition record : Type := (string * string)%type.

(** An item of an activity feed as the server sends it: the author's
    login, absent for an unattributed record, and the timestamp. *)
Definition item : Type := (option string * string)%type.

Definition actor (login : option string) : json :=
  match login with
  | Some l => JObj [("login", JStr l)]
  | None => JNull
  end.

Definition created_json (it : item) : json :=
  JObj [("createdAt", JStr (snd it)); ("author", actor (fst it))].

Definition edge_json (it : item) : json :=
  JObj [("node", JObj [("committedDate", JStr (snd it));
                        ("author", JObj [("user", actor (fst it))])])].

Definition created_page (connection : string) (nodes : list json) (has_next : bool)
    (end_cursor : json) : json :=
  JObj [("data",
         JObj [("repository",
                JObj [(connection,
                       JObj [("pageInfo", page_info has_next end_cursor);
                             ("nodes", JArr nodes)])])])].

Definition commits_page (edges : list json) (has_next : bool) (end_cursor : json)
    : json :=
  let history := JObj [("pageInfo", page_info has_next end_cursor);
                       ("edges", JArr edges)] in
  let ref := JObj [("target", JObj [("history", history)])] in
  JObj [("data", JObj [("repository", JObj [("ref", ref)])])].

(** The records a collector keeps: commits of any author with a user,
    issues and pull requests of authors with a non-empty login. *)
Definition attributed_commit (it : item) : option record :=
  match fst it with
  | Some l => Some (l, snd it)
  | None => None
  end.

Definition attributed_created (it : item) : option record :=
  match fst it with
  | Some l => if String.eqb l "" then None else Some (l, snd it)
  | None => None
  end.

Definition encode_pages (enc : item -> json) (pages : list (list item * json))
    : list (list json * json) :=
  map (fun p => (map enc (fst p), snd p)) pages.

Definition kept_pages (keep : item -> option record) (pages : list (list item * json))
    : list (list record) :=
  map (fun p => omap keep (fst p)) pages.

(** ** Accounting for the records of a user *)

Definition fold_page (user_activity : dict activity) (page : list record)
    : dict activity :=
  fold_left (fun ua r => observe ua (fst r) (snd r)) page user_activity.

(** The map a collector builds from the attributed records of a feed,
    page after page. *)
Definition collect (pages : list (list record)) : dict activity :=
  fold_left
    (fun user_activity page =>
       fold_left (fun user_activity r => observe user_activity (fst r) (snd r))
                 page user_activity)
    pages [].

(** The entry [observe] leaves for a login whose previous entry is
    [prev]. *)
Definition observed (prev : option activity) (ts : string) : activity :=
  match prev with
  | Some e => mk_activity (n_events e + 1) (later (last_event e) (Some ts))
  | None => mk_activity (0 + 1) (later (Some ts) (Some ts))
  end.

(** Every entry counts at least one event and has a last timestamp. *)
Definition well_formed (user_activity : dict activity) : Prop :=
  Forall (fun item : string * activity =>
            (1 <= n_events (snd item))%nat /\ last_event (snd item) <> None)
         user_activity.

(** The timestamps of the records of one login, in feed order. *)
Definition events_of (login : string) (records : list record) : list string :=
  map snd (List.filter (fun r => String.eqb (fst r) login) records).

(** [x] is the maximum of [l]; absent exactly when [l] is empty. *)
Definition latest (x : option string) (l : list string) : Prop :=
  match x with
  | None => l = []
  | Some m => In m l /\ forall t, In t l -> String.le t m
  end.

(** An entry accounts for the events [l] of its login. *)
Definition tracks (e : option activity) (l : list string) : Prop :=
  match e with
  | None => l = []
  | Some e => l <> [] /\ n_events e = length l /\ latest (last_event e) l
  end.

Definition count_of (user_activity : dict activity) (login : string) : nat :=
  from_option n_events 0%nat (assoc login user_activity).

(** The summary [merge_user] leaves for a user whose previous summary is
    [prev]. *)
Definition merged (c : category) (prev : option summary) (data : activity) : summary :=
  advance_last c (last_event data)
    (add_count c (n_events data) (from_option id new_summary prev)).

Definition category_eqb (c c' : category) : bool :=
  match c, c' with
  | Commits, Commits | Issues, Issues | PRs, PRs => true
  | _, _ => false
  end.

(** The events of one user, per category. *)
Definition ledger : Type := category -> list string.

Definition no_events : ledger := fun _ => [].

Definition extend (L : ledger) (c : category) (l : list string) : ledger :=
  fun c' => if category_eqb c' c then L c' ++ l else L c'.

Definition ledger_of (cs ts ps : list string) : ledger :=
  fun c =>
    match c with
    | Commits => cs
    | Issues => ts
    | PRs => ps
    end.

(** A summary accounts for a ledger: absent when the ledger is empty,
    and otherwise holding, per category, the number of events and their
    maximum. *)
Definition accounts (s : option summary) (L : ledger) : Prop :=
  match s with
  | None => forall c, L c = []
  | Some s =>
      (exists c, L c <> []) /\
      forall c, counter c s = length (L c) /\ latest (last_of c s) (L c)
  end.

(** ** Timestamps and rows *)

(** Printing a UTC timestamp the way the API does,
    [YYYY-MM-DDTHH:MM:SSZ]. *)
Definition digit_char (d : Z) : ascii := ascii_of_N (Z.to_N (48 + d)).

Definition put2 (n : Z) (rest : string) : string :=
  String (digit_char (n / 10)) (String (digit_char (n mod 10)) rest).

Definition put4 (n : Z) (rest : string) : string :=
  put2 (n / 100) (put2 (n mod 100) rest).

Definition iso_body (y m d hh mm ss : Z) (zone : string) : string :=
  put4 y (String "-" (put2 m (String "-" (put2 d (String "T"
    (put2 hh (String ":" (put2 mm (String ":" (put2 ss zone)))))))))).

Definition iso_utc (y m d hh mm ss : Z) : string := iso_body y m d hh mm ss "Z".

Definition valid_civil (y m d hh mm ss : Z) : Prop :=
  1 <= y <= 9999 /\ 1 <= m <= 12 /\ 1 <= d <= days_in_month y m /\
  0 <= hh <= 23 /\ 0 <= mm <= 59 /\ 0 <= ss <= 59.

(** The instant an aware [datetime] denotes, in microseconds. *)
Definition instant (wall off : Z) : Z := wall - off.

(** The overall last activity of a row (line 311), from the entry
    [activity.get(user, {})] finds. *)
Definition overall (data : option summary) : option string :=
  later (later (data ≫= last_commit) (data ≫= last_issue)) (data ≫= last_pr).

(** The row of a roster member without any recorded activity. *)
Definition silent_row (user : string) : list cell :=
  [CStr user; CInt 0; CInt 0; CInt 0; CStr "N/A"; CStr "Inactive"].

(** The title row of a repository's block. *)
Definition title_row (repo_name : string) : list cell :=
  [CStr ("Repository: " +:+ repo_name)].

(** The block of a repository in the report: its title row, the header,
    the rows of the members, an empty row. *)
Definition block (repo_name : string) (member_rows : list (list cell))
    : list (list cell) :=
  title_row repo_name :: header :: member_rows ++ [[]].

(** A report made of one block per named list of member rows. *)
Definition report (blocks : list (string * list (list cell))) : list (list cell) :=
  concat (map (fun b => block (fst b) (snd b)) blocks).

(** A cutoff that exists: the threshold is a number of days a
    [timedelta] can hold, and the day that far before [now_us] is a
    [datetime]. *)
Definition valid_cutoff (now_us threshold_days : Z) : Prop :=
  Z.abs threshold_days <= timedelta_max_days /\
  datetime_min_us <= now_us - threshold_days * 86400 * 1000000 <= datetime_max_us.

(** An overall last activity the report can classify: none, or a
    timestamp that [fromisoformat] reads as an aware [datetime]. *)
Definition readable (last_activity : option string) : Prop :=
  truthy_ts last_activity = false \/
  exists ts wall off,
    last_activity = Some ts /\
    fromisoformat (replace "Z" "+00:00" ts) = Ret (mk_datetime wall (Some off)).

(** * Example servers and data *)

(** Three 403 responses, then a success. *)
Definition thrice_forbidden : network :=
  fun n _ =>
    if (n <? 3)%nat then Responds (mk_response 403 None)
    else ok (JObj [("data", JObj [("ok", JBool true)])]).

Definition always_down : network := fun _ _ => PostRaises ConnectionError.

(** The same feed of three repositories, in one page and in three. *)
Definition feed3 : list json := [JStr "api"; JStr "web"; JStr "docs"].

Definition one_page : network :=
  fun _ _ => ok (repos_page feed3 false JNull).

Definition three_pages : network :=
  fun n _ =>
    match n with
    | 0%nat => ok (repos_page [JStr "api"] true (JStr "c1"))
    | 1%nat => ok (repos_page [JStr "web"] true (JStr "c2"))
    | _ => ok (repos_page [JStr "docs"] false JNull)
    end.

(** A server that answers the POSTs in order with the pages of a
    repository feed, whatever the request. *)
Definition serve_pages (pages : list (list json * json)) : network :=
  fun n _ =>
    match nth_error pages n with
    | Some (items, next) => ok (repos_page items (has_more (skipn (S n) pages)) next)
    | None => PostRaises ConnectionError
    end.

(** A feed of 250 repositories, in one page and in pages of 84, 83 and
    83. *)
Definition feed250 : list json := map (fun n => JNum (Z.of_nat n)) (seq 0 250).

Definition feed250_one_page : list (list json * json) := [(feed250, JNull)].

Definition feed250_three_pages : list (list json * json) :=
  [(firstn 84 feed250, JStr "cursor-84");
   (firstn 83 (skipn 84 feed250), JStr "cursor-167");
   (skipn 167 feed250, JNull)].

(** A repository without branches. *)
Definition no_branches : network :=
  fun _ _ => ok (branches_page [] false JNull).

(** An organization the server does not know: [organization] is null. *)
Definition unknown_org : network :=
  fun _ _ => ok (JObj [("data", JObj [("organization", JNull)])]).

(** A repository the server does not know: [repository] is null. *)
Definition unknown_repo : network :=
  fun _ _ => ok (JObj [("data", JObj [("repository", JNull)])]).

(** The end-to-end scenario: two members, alice and bob; one repository
    with one branch holding three commits by alice and one unattributed
    commit; one issue by bob; no pull request. *)
Definition scenario_history : list item :=
  [(Some "alice", "2024-02-01T10:00:00Z");
   (None, "2024-02-02T10:00:00Z");
   (Some "alice", "2024-02-03T10:00:00Z");
   (Some "alice", "2024-01-15T10:00:00Z")].

Definition scenario : network :=
  fun _ req =>
    match req_query req with
    | QBranches => ok (branches_page [JStr "main"] false JNull)
    | QCommits => ok (commits_page (map edge_json scenario_history) false JNull)
    | QIssues =>
        ok (created_page "issues"
              [created_json (Some "bob", "2024-02-10T08:00:00Z")] false JNull)
    | QPRs => ok (created_page "pullRequests" [] false JNull)
    | QMembers | QRepos => ok (JObj [("data", JNull)])
    end.

(** The attributed records of the scenario: the commits in two pages of
    the branch, and the issue. *)
Definition scenario_commits : list (list (list record)) :=
  [[[("alice", "2024-02-01T10:00:00Z"); ("alice", "2024-02-03T10:00:00Z")];
    [("alice", "2024-01-15T10:00:00Z")]]].

Definition scenario_issues : list (list record) :=
  [[("bob", "2024-02-10T08:00:00Z")]].

(** 2024-03-01T00:00:00Z, in microseconds since the epoch. *)
Definition march_first_2024 : Z := civil_us 2024 3 1 0 0 0.

Definition roster : gset string := {[ "bob"; "alice" ]}.

(** A repository where alice and a non-member have activity. *)
Definition repo_example : dict summary :=
  [("carol", mk_summary 1 0 0 (Some "2024-02-20T09:00:00Z") None None);
   ("alice", mk_summary 3 0 0 (Some "2024-02-03T10:00:00Z") None None)].

(** The members of the boundary example of the specification. *)
Definition roster_boundary : gset string := {[ "alice"; "bob"; "carol" ]}.

(** Seen from 2024-03-01T00:00:00Z with a threshold of 60 days: alice
    was last active exactly at the cutoff, bob a day before it. *)
Definition repo_boundary : dict summary :=
  [("alice", mk_summary 1 0 0 (Some "2024-01-01T00:00:00Z") None None);
   ("bob", mk_summary 0 1 0 None (Some "2023-12-31T00:00:00Z") None)].

(** * The rest of the program *)

(** ** Pauses of [run_query] *)

(** The pause [run_query] makes after a failed attempt (lines 50-75):
    60 seconds after a 403, whichever attempt it is; before the last
    attempt, [5 * 2 ** attempt] after a connection error or a timeout
    and [5 * (attempt + 1)] after any other failure; nothing after the
    last attempt. *)
Definition failure_pause (max_attempts attempt : nat) (o : http_outcome) : list Z :=
  match o with
  | Responds r =>
      if (status_code r =? 403)%Z then [60]
      else if (attempt <? max_attempts - 1)%nat
           then [5 * (Z.of_nat attempt + 1)] else []
  | PostRaises e =>
      if (attempt <? max_attempts - 1)%nat
      then [if is_network_error e then 5 * 2 ^ Z.of_nat attempt
            else 5 * (Z.of_nat attempt + 1)]
      else []
  end.

(** The pauses of a run in which the attempts [first], [first + 1], ...
    all fail, the POST of attempt [first] being number [n]. *)
Fixpoint failure_pauses (net : network) (req : request) (max_attempts : nat)
    (n first count : nat) : list Z :=
  match count with
  | O => []
  | S count' =>
      failure_pause max_attempts first (net n req)
      ++ failure_pauses net req max_attempts (S n) (S first) count'
  end.

(** A server that answers 500, then drops the connection, then
    succeeds. *)
Definition flaky : network :=
  fun n _ =>
    match n with
    | 0%nat => Responds (mk_response 500 None)
    | 1%nat => PostRaises ConnectionError
    | _ => ok (JObj [("data", JObj [("ok", JBool true)])])
    end.

(** ** Feeds that stop early or never *)

(** Pages that all announce a next page: the beginning of a feed. *)
Fixpoint serves_on (net : network) (mk : json -> request)
    (page : list json -> bool -> json -> json)
    (n : nat) (cursor : json) (pages : list (list json * json)) : Prop :=
  match pages with
  | [] => True
  | (items, next) :: rest =>
      net n (mk cursor) = ok (page items true next) /\
      serves_on net mk page (S n) next rest
  end.

(** The cursor in hand after the pages. *)
Definition end_cursor (cursor : json) (pages : list (list json * json)) : json :=
  List.last (map snd pages) cursor.

Definition member_json (login : string) : json := JObj [("login", JStr login)].

Definition members_page (nodes : list json) (has_next : bool) (end_cursor : json)
    : json :=
  JObj [("data",
         JObj [("organization",
                JObj [("membersWithRole",
                       JObj [("pageInfo", page_info has_next end_cursor);
                             ("nodes", JArr nodes)])])])].

Definition members_request (org : string) (cursor : json) : request :=
  mk_request QMembers (org_variables org cursor).

Definition encode_logins (pages : list (list string * json)) : list (list json * json) :=
  map (fun p => (map member_json (fst p), snd p)) pages.

(** A server that answers every POST with status 500. *)
Definition overloaded : network := fun _ _ => Responds (mk_response 500 None).

(** One page of two repositories announcing more, then no connection. *)
Definition cut_off : network :=
  fun n _ =>
    match n with
    | 0%nat => ok (repos_page [JStr "api"; JStr "web"] true (JStr "c1"))
    | _ => PostRaises Timeout
    end.

(** A server whose every page announces another one. *)
Definition endless : network :=
  fun n _ => ok (repos_page [JNum (Z.of_nat n)] true (JStr "more")).

(** Two pages of members with a login on both. *)
Definition two_member_pages : network :=
  fun n _ =>
    match n with
    | 0%nat => ok (members_page [member_json "alice"; member_json "bob"] true (JStr "m1"))
    | _ => ok (members_page [member_json "bob"; member_json "carol"] false JNull)
    end.

(** Two branches on one page. *)
Definition two_branches : network :=
  fun _ _ => ok (branches_page [JStr "main"; JStr "dev"] false JNull).

(** ** Activity feeds *)

Definition commits_request (org repo branch : string) (cursor : json) : request :=
  mk_request QCommits (commit_variables org repo branch cursor).

Definition issues_request (org repo : string) (cursor : json) : request :=
  mk_request QIssues (repo_variables org repo cursor).

Definition prs_request (org repo : string) (cursor : json) : request :=
  mk_request QPRs (repo_variables org repo cursor).

(** The [data] members with which the server reports that there is
    nothing to read for a branch: no data, no repository, no ref, no
    target, and a target that is not a commit (the fragment
    [... on Commit] selects nothing). *)
Definition nothing_to_read : list json :=
  [JNull;
   JObj [("repository", JNull)];
   JObj [("repository", JObj [("ref", JNull)])];
   JObj [("repository", JObj [("ref", JObj [("target", JNull)])])];
   JObj [("repository", JObj [("ref", JObj [("target", JObj [])])])]].

(** A branch the server does not know. *)
Definition unknown_branch : network :=
  fun _ _ => ok (JObj [("data", JObj [("repository", JObj [("ref", JNull)])])]).

(** One page of issues: two by bob, one by a deleted account, one by an
    author without login. *)
Definition issue_items : list item :=
  [(Some "bob", "2024-02-10T08:00:00Z"); (None, "2024-02-11T08:00:00Z");
   (Some "", "2024-02-12T08:00:00Z"); (Some "bob", "2024-01-05T08:00:00Z")].

Definition issue_feed_example : network :=
  fun _ _ => ok (created_page "issues" (map created_json issue_items) false JNull).

Definition commit_feed_example : network :=
  fun _ _ => ok (commits_page (map edge_json scenario_history) false JNull).

(** ** Totals *)

(** The sum of a measure over the entries of a dictionary. *)
Definition total {V : Type} (f : V -> nat) (d : dict V) : nat :=
  list_sum (map (fun kv => f (snd kv)) d).

(** Two branch maps sharing a user. *)
Definition branch_main : dict activity :=
  [("alice", mk_activity 2 (Some "2024-02-03T10:00:00Z"));
   ("bob", mk_activity 1 (Some "2024-01-20T10:00:00Z"))].

Definition branch_dev : dict activity :=
  [("alice", mk_activity 1 (Some "2024-02-07T10:00:00Z"))].

(** ** Rows *)

(** The timestamps a summary holds. *)
Definition timestamps_of (s : summary) : list string :=
  omap id [last_commit s; last_issue s; last_pr s].

(** A repository in which alice's last commit carries no zone. *)
Definition repo_without_zone : dict summary :=
  [("alice", mk_summary 1 0 0 (Some "2024-02-03T10:00:00") None None)].

(** ** One organization of [main] (lines 326-364)

    The time [datetime.now] reads when the report is written is a
    function [clock] of the world at that moment. *)

Fixpoint foldM {A B : Type} (f : A -> B -> M A) (a : A) (l : list B) : M A :=
  match l with
  | [] => ret a
  | x :: l' => a' <- f a x ;; foldM f a' l'
  end.

(** Lines 331-362: one repository, stored under its name. *)
Definition main_step (net : network) (org : string) (fuel : nat)
    (all_repo_activity : dict (dict summary)) (repo : json) : M (dict (dict summary)) :=
  name <- lift (as_str repo) ;;
  repo_activity <- main_repo net org name fuel ;;
  ret (dict_set name repo_activity all_repo_activity).

Definition main_org (net : network) (clock : world -> Z) (threshold_days : Z)
    (org : string) (fuel : nat) : M (list (list cell)) :=
  all_users <- get_all_org_members net org fuel ;;
  repos <- get_all_repos net org fuel ;;
  all_repo_activity <- foldM (main_step net org fuel) [] repos ;;
  fun w => (save_to_csv (clock w) threshold_days all_repo_activity all_users, w).

(** A clock that starts on 2024-03-01 and advances with the sleeps. *)
Definition clock_example (w : world) : Z :=
  march_first_2024 + 1000000 * fold_right Z.add 0 (slept w).

(** The scenario with its roster and its repository listing. *)
Definition scenario_org : network :=
  fun n req =>
    match req_query req with
    | QMembers =>
        ok (members_page [member_json "alice"; member_json "bob"] false JNull)
    | QRepos => ok (repos_page [JStr "api"] false JNull)
    | _ => scenario n req
    end.

(** ** [ORG_NAMES] (line 13)

    [str.split(",")] and [str.strip()] look at the characters of a
    Python [str], which are Unicode code points: for this line a
    string is the list of its code points. *)

Definition text : Type := list N.

(** The code points of an ASCII literal. *)
Fixpoint codes (s : string) : text :=
  match s with
  | EmptyString => []
  | String c s' => N_of_ascii c :: codes s'
  end.

Definition comma : N := 44.

(** [s.split(sep)] for a one-character [sep]. *)
Fixpoint split (sep : N) (s : text) : list text :=
  match s with
  | [] => [[]]
  | c :: s' =>
      if (c =? sep)%N then [] :: split sep s'
      else match split sep s' with
           | piece :: pieces => (c :: piece) :: pieces
           | [] => [[c]]
           end
  end.

(** [str.isspace] on one character: tab to carriage return, the four
    separators U+001C to U+001F, the space, U+0085, U+00A0, U+1680,
    U+2000 to U+200A, U+2028, U+2029, U+202F, U+205F and U+3000. *)
Definition is_space (c : N) : bool :=
  ((9 <=? c) && (c <=? 13) || (28 <=? c) && (c <=? 32) ||
   (c =? 133) || (c =? 160) || (c =? 5760) ||
   (8192 <=? c) && (c <=? 8202) ||
   (c =? 8232) || (c =? 8233) || (c =? 8239) || (c =? 8287) || (c =? 12288))%N.

Fixpoint lstrip (s : text) : text :=
  match s with
  | [] => []
  | c :: s' => if is_space c then lstrip s' else s
  end.

Fixpoint rstrip (s : text) : text :=
  match s with
  | [] => []
  | c :: s' =>
      match rstrip s' with
      | [] => if is_space c then [] else [c]
      | r => c :: r
      end
  end.

Definition strip (s : text) : text := rstrip (lstrip s).

(** [env] is the value of the environment variable, if it is set. *)
Definition ORG_NAMES (env : option text) : list text :=
  map strip (split comma (from_option id [] env)).

(** The separators in a string, and the white space at its ends. *)
Fixpoint count_char (c : N) (s : text) : nat :=
  match s with
  | [] => 0
  | c' :: s' => (if (c' =? c)%N then 1 else 0) + count_char c s'
  end.

Definition first_is_space (s : text) : bool :=
  match s with
  | [] => false
  | c :: _ => is_space c
  end.

Fixpoint last_is_space (s : text) : bool :=
  match s with
  | [] => false
  | [c] => is_space c
  | _ :: s' => last_is_space s'
  end.

(** A name that [ORG_NAMES] returns as it is written: no comma, no
    white space at either end. *)
Definition plain_name (s : text) : Prop :=
  count_char comma s = 0%nat /\ first_is_space s = false /\ last_is_space s = false.

(** [sep.join(names)] *)
Fixpoint join (sep : N) (names : list text) : text :=
  match names with
  | [] => []
  | x :: rest =>
      match rest with
      | [] => x
      | _ => x ++ sep :: join sep rest
      end
  end.
(** * Properties *)

(** ** The order on timestamps *)

Lemma ltb_false_le (a b : string) : String.ltb a b = false -> String.le b a.
Proof.
  unfold String.ltb, String.le, String.leb. rewrite (String.compare_antisym a b).
  destruct (String.compare b a); simpl; intros H; try discriminate; exact I.
Qed.

Lemma ltb_true_le (a b : string) : String.ltb a b = true -> String.le a b.
Proof.
  unfold String.ltb, String.le, String.leb.
  destruct (String.compare a b); simpl; intros H; try discriminate; exact I.
Qed.

Lemma le_empty (s : string) : String.le "" s.
Proof. unfold String.le, String.leb. destruct s; exact I. Qed.

Lemma py_max_le_l (a b : string) : String.le a (py_max a b).
Proof.
  unfold py_max. destruct (String.ltb a b) eqn:E.
  - now apply ltb_true_le.
  - reflexivity.
Qed.

Lemma py_max_le_r (a b : string) : String.le b (py_max a b).
Proof.
  unfold py_max. destruct (String.ltb a b) eqn:E.
  - reflexivity.
  - now apply ltb_false_le.
Qed.

Lemma py_max_cases (a b : string) : py_max a b = a \/ py_max a b = b.
Proof. unfold py_max. destruct (String.ltb a b); auto. Qed.

(** The maximum of two strings is determined by the order alone. *)
Lemma py_max_unique (a b m : string) :
  (m = a \/ m = b) -> String.le a m -> String.le b m -> py_max a b = m.
Proof.
  intros Hm Ha Hb.
  destruct (py_max_cases a b) as [E | E]; rewrite E;
    destruct Hm as [-> | ->]; try reflexivity.
  - apply (anti_symm String.le); [exact Ha|].
    rewrite <- E. apply py_max_le_r.
  - apply (anti_symm String.le); [exact Hb|].
    rewrite <- E. apply py_max_le_l.
Qed.

Lemma py_max_comm (a b : string) : py_max a b = py_max b a.
Proof.
  apply py_max_unique.
  - destruct (py_max_cases b a); auto.
  - apply py_max_le_r.
  - apply py_max_le_l.
Qed.

Lemma py_max_assoc (a b c : string) :
  py_max a (py_max b c) = py_max (py_max a b) c.
Proof.
  set (m := py_max a (py_max b c)).
  assert (Ha : String.le a m) by apply py_max_le_l.
  assert (Hbc : String.le (py_max b c) m) by apply py_max_le_r.
  assert (Hb : String.le b m)
    by (transitivity (py_max b c); [apply py_max_le_l | exact Hbc]).
  assert (Hc : String.le c m)
    by (transitivity (py_max b c); [apply py_max_le_r | exact Hbc]).
  assert (Hm : m = a \/ m = b \/ m = c).
  { subst m. destruct (py_max_cases a (py_max b c)) as [E | E]; rewrite E; auto.
    destruct (py_max_cases b c) as [F | F]; rewrite F; auto. }
  symmetry. apply py_max_unique.
  - destruct Hm as [E | [E | E]]; [left | left | right; exact E];
      symmetry; apply py_max_unique; auto.
  - destruct (py_max_cases a b) as [E | E]; rewrite E; assumption.
  - exact Hc.
Qed.

(** ** [later] *)

Lemma later_falsy_l (a b : option string) : truthy_ts a = false -> later a b = b.
Proof. unfold later. now intros ->. Qed.

Lemma later_falsy_r (a b : option string) :
  truthy_ts a = true -> truthy_ts b = false -> later a b = a.
Proof. unfold later. now intros -> ->. Qed.

Lemma later_truthy (a b : option string) :
  truthy_ts a = true -> truthy_ts b = true ->
  exists x y, a = Some x /\ b = Some y /\ later a b = Some (py_max x y).
Proof.
  unfold later. intros Ha Hb. rewrite Ha, Hb. simpl.
  destruct a as [x|]; [|discriminate]. destruct b as [y|]; [|discriminate].
  now exists x, y.
Qed.

Lemma py_max_truthy (x y : string) :
  truthy_ts (Some x) = true -> truthy_ts (Some (py_max x y)) = true.
Proof.
  simpl. intros Hx. destruct (String.eqb_spec (py_max x y) "") as [E|]; [|reflexivity].
  exfalso. assert (H : String.le x "") by (rewrite <- E; apply py_max_le_l).
  assert (x = "") by (apply (anti_symm String.le); [exact H | apply le_empty]).
  subst x. discriminate.
Qed.

Lemma later_assoc (a b c : option string) :
  later a (later b c) = later (later a b) c.
Proof.
  destruct (truthy_ts a) eqn:Ha; destruct (truthy_ts b) eqn:Hb;
    destruct (truthy_ts c) eqn:Hc.
  - destruct (later_truthy a b Ha Hb) as (x & y & -> & -> & Eab).
    destruct (later_truthy (Some y) c Hb Hc) as (y' & z & Ey & -> & Ebc).
    injection Ey as <-. rewrite Eab, Ebc.
    destruct (later_truthy (Some x) (Some (py_max y z)) Ha (py_max_truthy y z Hb))
      as (? & ? & E1 & E2 & ->).
    destruct (later_truthy (Some (py_max x y)) (Some z) (py_max_truthy x y Ha) Hc)
      as (? & ? & E3 & E4 & ->).
    injection E1 as <-. injection E2 as <-. injection E3 as <-. injection E4 as <-.
    now rewrite py_max_assoc.
  - rewrite (later_falsy_r b c Hb Hc).
    destruct (later_truthy a b Ha Hb) as (x & y & -> & -> & Eab).
    rewrite Eab. symmetry. apply later_falsy_r; [now apply py_max_truthy | exact Hc].
  - rewrite (later_falsy_l b c Hb), (later_falsy_r a b Ha Hb). reflexivity.
  - rewrite (later_falsy_l b c Hb), (later_falsy_r a b Ha Hb).
    now rewrite !later_falsy_r.
  - now rewrite (later_falsy_l a _ Ha), (later_falsy_l a b Ha).
  - now rewrite (later_falsy_l a _ Ha), (later_falsy_l a b Ha).
  - now rewrite (later_falsy_l a _ Ha), (later_falsy_l a b Ha).
  - now rewrite (later_falsy_l a _ Ha), (later_falsy_l a b Ha).
Qed.

Lemma later_comm (a b : option string) :
  a <> Some "" -> b <> Some "" -> later a b = later b a.
Proof.
  intros Na Nb.
  assert (F : forall o : option string, o <> Some "" -> truthy_ts o = false -> o = None).
  { intros [s|] N H; [|reflexivity]. simpl in H.
    destruct (String.eqb_spec s ""); [subst; congruence | discriminate]. }
  destruct (truthy_ts a) eqn:Ha; destruct (truthy_ts b) eqn:Hb.
  - destruct (later_truthy a b Ha Hb) as (x & y & -> & -> & ->).
    destruct (later_truthy (Some y) (Some x) Hb Ha) as (? & ? & E1 & E2 & ->).
    injection E1 as <-. injection E2 as <-. now rewrite py_max_comm.
  - now rewrite (later_falsy_r a b Ha Hb), (later_falsy_l b a Hb).
  - now rewrite (later_falsy_l a b Ha), (later_falsy_r b a Hb Ha).
  - rewrite (later_falsy_l a b Ha), (later_falsy_l b a Hb).
    now rewrite (F a Na Ha), (F b Nb Hb).
Qed.

(** On two timestamps [later] is the maximum for the order on strings,
    the empty string included (it is the least string). *)
Lemma later_some (a b : string) : later (Some a) (Some b) = Some (py_max a b).
Proof.
  destruct (truthy_ts (Some a)) eqn:Ha; destruct (truthy_ts (Some b)) eqn:Hb.
  - destruct (later_truthy _ _ Ha Hb) as (? & ? & E1 & E2 & ->).
    now injection E1 as <-; injection E2 as <-.
  - rewrite (later_falsy_r _ _ Ha Hb). f_equal. symmetry.
    simpl in Hb. destruct (String.eqb_spec b ""); [subst b|discriminate].
    apply py_max_unique; [auto | reflexivity | apply le_empty].
  - rewrite (later_falsy_l _ _ Ha). f_equal. symmetry.
    simpl in Ha. destruct (String.eqb_spec a ""); [subst a|discriminate].
    apply py_max_unique; [auto | apply le_empty | reflexivity].
  - rewrite (later_falsy_l _ _ Ha). f_equal. symmetry.
    simpl in Ha. destruct (String.eqb_spec a ""); [subst a|discriminate].
    apply py_max_unique; [auto | apply le_empty | reflexivity].
Qed.

(** C2.  [later] is the absence-tolerant maximum of optional timestamps:
    it maps two absent values to an absent one, returns the present one
    of a present and an absent timestamp, yields an upper bound that is
    one of its two arguments, is commutative on optional timestamps and
    is associative.  A timestamp is a non-empty string; [later] reads
    the empty string as absent. *)
Theorem later_absence_tolerant_max :
  later None None = None /\
  (forall t : string, t <> "" ->
     later (Some t) None = Some t /\ later None (Some t) = Some t) /\
  (forall a b : string, exists m,
     later (Some a) (Some b) = Some m /\ (m = a \/ m = b) /\
     String.le a m /\ String.le b m) /\
  (forall a b : option string,
     a <> Some "" -> b <> Some "" -> later a b = later b a) /\
  (forall a b c : option string, later a (later b c) = later (later a b) c).
Proof.
  split; [reflexivity|]. split; [|split; [|split]].
  - intros t Ht. split; [|reflexivity].
    apply later_falsy_r; [|reflexivity].
    simpl. now destruct (String.eqb_spec t "").
  - intros a b. exists (py_max a b). rewrite later_some.
    split; [reflexivity|]. split; [apply py_max_cases|].
    split; [apply py_max_le_l | apply py_max_le_r].
  - apply later_comm.
  - apply later_assoc.
Qed.

Lemma later_absence_tolerant_max_witness :
  later (Some "2024-01-01T00:00:00Z") None = Some "2024-01-01T00:00:00Z" /\
  later None (Some "2024-01-01T00:00:00Z") = Some "2024-01-01T00:00:00Z" /\
  later (Some "2024-01-01T00:00:00Z") (Some "2023-12-31T00:00:00Z")
  = later (Some "2023-12-31T00:00:00Z") (Some "2024-01-01T00:00:00Z").
Proof.
  destruct later_absence_tolerant_max as (_ & Hid & _ & Hcomm & _).
  split; [|split].
  - apply (Hid "2024-01-01T00:00:00Z"). discriminate.
  - apply (Hid "2024-01-01T00:00:00Z"). discriminate.
  - apply Hcomm; discriminate.
Defined.

(** ** [run_query] *)

Ltac run_M :=
  unfold attempt_body, try_except, bind, session_post, lift, ret, raise, sleep in *;
  simpl in *.

Lemma attempt_body_returns (net : network) (req : request) (max_attempts attempt : nat)
    (w : world) :
  exists s slept',
    attempt_body net req max_attempts attempt w
    = (Ret s, mk_world (S (posts w)) slept').
Proof.
  run_M. destruct (net (posts w) req) as [r | e]; simpl.
  - destruct (status_code r =? 200)%Z.
    + unfold response_json. destruct (body r) as [j|]; simpl.
      * unfold getitem. destruct j as [ | | | | | o]; simpl;
          try destruct (assoc "data" o); simpl;
          destruct (attempt <? max_attempts - 1)%nat; simpl; eauto.
      * destruct (attempt <? max_attempts - 1)%nat; simpl; eauto.
    + destruct (status_code r =? 403)%Z; [eauto|].
      destruct (attempt <? max_attempts - 1)%nat; simpl; eauto.
  - destruct (is_network_error e), (attempt <? max_attempts - 1)%nat; eauto.
Qed.

Lemma attempt_body_success (net : network) (req : request) (max_attempts attempt : nat)
    (w : world) (d : json) :
  payload (net (posts w) req) = Some d ->
  attempt_body net req max_attempts attempt w
  = (Ret (Return d), mk_world (S (posts w)) (slept w)).
Proof.
  unfold payload. run_M. destruct (net (posts w) req) as [r | e]; [|discriminate].
  simpl. destruct (status_code r =? 200)%Z; [|discriminate].
  destruct (rbind (response_json r) _) as [d' | e | ]; try discriminate.
  now intros [= ->].
Qed.

Lemma attempt_body_403 (net : network) (req : request) (max_attempts attempt : nat)
    (w : world) :
  is_403 (net (posts w) req) = true ->
  attempt_body net req max_attempts attempt w
  = (Ret Next, mk_world (S (posts w)) (slept w ++ [60])).
Proof.
  unfold is_403. run_M. destruct (net (posts w) req) as [r | e]; [|discriminate].
  simpl. intros H. apply Z.eqb_eq in H. rewrite H. reflexivity.
Qed.

Lemma attempt_body_failed (net : network) (req : request) (max_attempts attempt : nat)
    (w : world) :
  payload (net (posts w) req) = None ->
  exists s slept',
    attempt_body net req max_attempts attempt w
    = (Ret s, mk_world (S (posts w)) slept') /\
    (s = Next \/ s = Return JNull).
Proof.
  unfold payload. run_M. destruct (net (posts w) req) as [r | e]; simpl.
  - destruct (status_code r =? 200)%Z.
    + destruct (rbind (response_json r) _) as [d' | e | ] eqn:E; try discriminate.
      * intros _. destruct (is_network_error e), (attempt <? max_attempts - 1)%nat;
          simpl; eauto.
      * exfalso. unfold response_json in E. destruct (body r) as [j|]; simpl in E;
          [|discriminate]. unfold getitem in E.
        destruct j as [ | | | | | o]; try discriminate.
        destruct (assoc "data" o); discriminate.
    + intros _. destruct (status_code r =? 403)%Z; [eauto|].
      destruct (attempt <? max_attempts - 1)%nat; simpl; eauto.
  - intros _. destruct (is_network_error e), (attempt <? max_attempts - 1)%nat;
      simpl; eauto.
Qed.

Lemma run_query_from_returns (net : network) (req : request) (max_attempts : nat)
    (attempts : list nat) :
  forall w, exists v w', run_query_from net req max_attempts attempts w = (Ret v, w').
Proof.
  induction attempts as [|a rest IH]; intros w; simpl.
  - unfold ret. eauto.
  - destruct (attempt_body_returns net req max_attempts a w) as (s & sl & E).
    unfold bind at 1. rewrite E. destruct s as [v|]; [unfold ret; eauto | apply IH].
Qed.

Lemma run_query_from_failed (net : network) (req : request) (max_attempts : nat)
    (attempts : list nat) :
  forall w,
    (forall i, (i < length attempts)%nat ->
       payload (net (posts w + i)%nat req) = None) ->
    exists w', run_query_from net req max_attempts attempts w = (Ret JNull, w').
Proof.
  induction attempts as [|a rest IH]; intros w Hfail; simpl.
  - unfold ret. eauto.
  - destruct (attempt_body_failed net req max_attempts a w) as (s & sl & E & Hs).
    { specialize (Hfail 0%nat). rewrite Nat.add_0_r in Hfail. apply Hfail. simpl. lia. }
    unfold bind at 1. rewrite E. destruct Hs as [-> | ->]; [|unfold ret; eauto].
    apply IH. intros i Hi. simpl.
    replace (S (posts w + i))%nat with (posts w + S i)%nat by lia.
    apply Hfail. simpl. lia.
Qed.

Lemma run_query_from_403 (net : network) (req : request) (max_attempts : nat) :
  forall (k : nat) (attempts : list nat) (w : world),
    (k <= length attempts)%nat ->
    (forall i, (i < k)%nat -> is_403 (net (posts w + i)%nat req) = true) ->
    run_query_from net req max_attempts attempts w
    = run_query_from net req max_attempts (skipn k attempts)
        (mk_world (posts w + k) (slept w ++ repeat 60 k)).
Proof.
  induction k as [|k IH]; intros attempts w Hlen H403.
  - simpl. rewrite Nat.add_0_r, app_nil_r. now destruct w.
  - destruct attempts as [|a rest]; [simpl in Hlen; lia|].
    simpl. unfold bind at 1. rewrite attempt_body_403.
    2:{ specialize (H403 0%nat). rewrite Nat.add_0_r in H403. apply H403. lia. }
    rewrite IH.
    + simpl. f_equal. f_equal; [lia | now rewrite <- app_assoc].
    + simpl in Hlen. lia.
    + intros i Hi. simpl. replace (S (posts w + i))%nat with (posts w + S i)%nat by lia.
      apply H403. lia.
Qed.

(** C5.  [run_query] never raises: whatever the server does, the call
    ends in a value; and when every attempt of the budget fails (a
    status other than 200, a body that is not JSON or lacks ["data"], or
    an exception raised by the POST), that value is [None]. *)
Theorem run_query_never_raises (net : network) (q : query)
    (variables : list (string * json)) (max_attempts : nat) (w : world) :
  (exists v w', run_query net q variables max_attempts w = (Ret v, w')) /\
  ((forall i, (i < max_attempts)%nat ->
      payload (net (posts w + i)%nat (mk_request q variables)) = None) ->
   exists w', run_query net q variables max_attempts w = (Ret JNull, w')).
Proof.
  split.
  - apply run_query_from_returns.
  - intros Hfail. apply run_query_from_failed. now rewrite length_seq.
Qed.

Lemma run_query_never_raises_witness :
  exists w', run_query always_down QRepos (org_variables "acme" JNull) 3 w0
             = (Ret JNull, w').
Proof.
  apply (run_query_never_raises always_down QRepos (org_variables "acme" JNull) 3 w0).
  intros i _. reflexivity.
Defined.

(** A run of [k] 403 responses followed by a success: each 403 costs
    one attempt and one 60-second sleep. *)
Lemma run_query_after_403s (net : network) (q : query)
    (variables : list (string * json)) (max_attempts k : nat) (w : world) (d : json) :
  (forall i, (i < k)%nat ->
     is_403 (net (posts w + i)%nat (mk_request q variables)) = true) ->
  payload (net (posts w + k)%nat (mk_request q variables)) = Some d ->
  ((k < max_attempts)%nat ->
   run_query net q variables max_attempts w
   = (Ret d, mk_world (posts w + k + 1) (slept w ++ repeat 60 k))) /\
  ((max_attempts <= k)%nat ->
   run_query net q variables max_attempts w
   = (Ret JNull, mk_world (posts w + max_attempts) (slept w ++ repeat 60 max_attempts))).
Proof.
  intros H403 Hok. unfold run_query. split; intros Hk.
  - rewrite (run_query_from_403 net _ max_attempts k); [|rewrite length_seq; lia|exact H403].
    rewrite skipn_seq. destruct (max_attempts - k)%nat as [|n] eqn:E; [lia|].
    simpl. unfold bind at 1. rewrite attempt_body_success with (d := d); [|exact Hok].
    unfold ret. simpl. do 2 f_equal. lia.
  - rewrite (run_query_from_403 net _ max_attempts max_attempts);
      [|rewrite length_seq; lia|intros i Hi; apply H403; lia].
    rewrite skipn_seq, Nat.sub_diag. reflexivity.
Qed.

(** C4 as stated fails: after three 403 responses the default budget of
    three attempts is spent and [run_query] returns [None], although the
    fourth POST would have succeeded. *)
Lemma forbidden_is_not_free : ~ forbidden_is_free.
Proof.
  intros H.
  specialize (H thrice_forbidden QRepos (org_variables "acme" JNull) 3%nat 3%nat w0
                (JObj [("ok", JBool true)])).
  assert (E : fst (run_query thrice_forbidden QRepos (org_variables "acme" JNull) 3 w0)
              = Ret JNull) by reflexivity.
  rewrite E in H. discriminate H.
  - lia.
  - intros i Hi. simpl. unfold thrice_forbidden.
    destruct (Nat.ltb_spec i 3); [reflexivity | lia].
  - reflexivity.
Qed.

(** C4, amended.  A 403 makes [run_query] sleep 60 seconds and move to
    the next attempt, which uses up one attempt of the budget: a run of
    [k] 403 responses followed by a success returns the successful
    result when [k < max_attempts], after [k] sleeps of 60 seconds and
    [k + 1] POSTs, and returns [None] when [k >= max_attempts], after
    [max_attempts] POSTs. *)
Theorem forbidden_costs_an_attempt (net : network) (q : query)
    (variables : list (string * json)) (max_attempts k : nat) (w : world) (d : json) :
  (forall i, (i < k)%nat ->
     is_403 (net (posts w + i)%nat (mk_request q variables)) = true) ->
  payload (net (posts w + k)%nat (mk_request q variables)) = Some d ->
  run_query net q variables max_attempts w
  = if (k <? max_attempts)%nat
    then (Ret d, mk_world (posts w + k + 1) (slept w ++ repeat 60 k))
    else (Ret JNull,
          mk_world (posts w + max_attempts) (slept w ++ repeat 60 max_attempts)).
Proof.
  intros H403 Hok.
  destruct (run_query_after_403s net q variables max_attempts k w d H403 Hok) as [Hlt Hge].
  destruct (Nat.ltb_spec k max_attempts); auto.
Qed.

Lemma forbidden_costs_an_attempt_witness :
  run_query thrice_forbidden QRepos (org_variables "acme" JNull) 4 w0
  = (Ret (JObj [("ok", JBool true)]), mk_world 4 [60; 60; 60]).
Proof.
  apply (forbidden_costs_an_attempt thrice_forbidden QRepos
           (org_variables "acme" JNull) 4 3 w0 (JObj [("ok", JBool true)])).
  - intros i Hi. simpl. unfold thrice_forbidden.
    destruct (Nat.ltb_spec i 3); [reflexivity | lia].
  - reflexivity.
Defined.

(** ** Pagination *)

Lemma run_query_ok (net : network) (q : query) (variables : list (string * json))
    (w : world) (page d : json) :
  net (posts w) (mk_request q variables) = ok page ->
  getitem page "data" = Ret d ->
  run_query net q variables 3 w = (Ret d, mk_world (S (posts w)) (slept w)).
Proof.
  intros Hnet Hd. unfold run_query. simpl. unfold bind at 1.
  rewrite attempt_body_success with (d := d); [reflexivity|].
  rewrite Hnet. unfold payload, ok, response_json. simpl. now rewrite Hd.
Qed.

Lemma mapR_named (names : list json) :
  mapR (fun r => getitem r "name") (map named names) = Ret names.
Proof.
  induction names as [|n names IH]; [reflexivity|].
  simpl. now rewrite IH.
Qed.

Lemma get_all_repos_loop_pages (net : network) (org : string) :
  forall (pages : list (list json * json)) (fuel : nat) (repos : list json)
         (cursor : json) (w : world),
    pages <> [] ->
    serves net (repos_request org) repos_page (posts w) cursor pages ->
    (length pages <= fuel)%nat ->
    get_all_repos_loop net org fuel repos cursor w
    = (Ret (repos ++ items_of pages),
       mk_world (posts w + length pages)
                (slept w ++ repeat RATE_DELAY (length pages - 1))).
Proof.
  induction pages as [|[items next] rest IH]; intros fuel repos cursor w Hne Hs Hfuel;
    [congruence|].
  destruct fuel as [|fuel]; [simpl in Hfuel; lia|].
  destruct Hs as [Hnet Hrest].
  cbn [get_all_repos_loop]. unfold bind at 1.
  rewrite (run_query_ok net QRepos _ w _ _ Hnet eq_refl).
  unfold bind, lift, ret, sleep. cbn -[get_all_repos_loop Nat.sub repeat].
  rewrite mapR_named. cbn -[get_all_repos_loop Nat.sub repeat].
  destruct rest as [|p rest'].
  - cbn. unfold items_of. cbn. rewrite !app_nil_r.
    f_equal. f_equal. lia.
  - cbn -[get_all_repos_loop Nat.sub repeat length].
    rewrite IH; [|discriminate|exact Hrest|simpl in *; lia].
    unfold items_of. cbn [map fst concat posts slept].
    rewrite <- !app_assoc. f_equal. f_equal; [cbn [length]; lia|].
    cbn [length]. replace (S (S (length rest')) - 1)%nat with (S (length rest')) by lia.
    replace (S (length rest') - 1)%nat with (length rest') by lia.
    reflexivity.
Qed.

(** C7.  Pagination does not depend on how the feed is split: when two
    servers serve the same ordered feed of repositories in pages whose
    cursors chain from the initial absent cursor, with [hasNextPage] set
    on every page but the last, [get_all_repos] returns on both the
    concatenation of the pages' items in order, given fuel for one
    iteration per page. *)
Theorem pagination_split_independent (net1 net2 : network) (org : string)
    (pages1 pages2 : list (list json * json)) (fuel1 fuel2 : nat) (w1 w2 : world) :
  pages1 <> [] -> pages2 <> [] ->
  serves net1 (repos_request org) repos_page (posts w1) JNull pages1 ->
  serves net2 (repos_request org) repos_page (posts w2) JNull pages2 ->
  (length pages1 <= fuel1)%nat -> (length pages2 <= fuel2)%nat ->
  items_of pages1 = items_of pages2 ->
  fst (get_all_repos net1 org fuel1 w1) = Ret (items_of pages1) /\
  fst (get_all_repos net2 org fuel2 w2) = fst (get_all_repos net1 org fuel1 w1).
Proof.
  intros Hne1 Hne2 Hs1 Hs2 Hf1 Hf2 Hsame. unfold get_all_repos.
  rewrite (get_all_repos_loop_pages net1 org pages1 fuel1 [] JNull w1 Hne1 Hs1 Hf1).
  rewrite (get_all_repos_loop_pages net2 org pages2 fuel2 [] JNull w2 Hne2 Hs2 Hf2).
  simpl. now rewrite Hsame.
Qed.

Lemma pagination_split_independent_witness :
  fst (get_all_repos one_page "acme" 1 w0) = Ret feed3 /\
  fst (get_all_repos three_pages "acme" 3 w0) = fst (get_all_repos one_page "acme" 1 w0).
Proof.
  apply (pagination_split_independent one_page three_pages "acme"
           [(feed3, JNull)]
           [([JStr "api"], JStr "c1"); ([JStr "web"], JStr "c2"); ([JStr "docs"], JNull)]
           1 3 w0 w0).
  - discriminate.
  - discriminate.
  - simpl. split; [reflexivity | exact I].
  - simpl. repeat split; reflexivity.
  - simpl. lia.
  - simpl. lia.
  - reflexivity.
Defined.

Lemma get_branches_loop_pages (net : network) (org repo : string) :
  forall (pages : list (list json * json)) (fuel : nat) (branches : list json)
         (cursor : json) (w : world),
    pages <> [] ->
    serves net (branches_request org repo) branches_page (posts w) cursor pages ->
    (length pages <= fuel)%nat ->
    get_branches_loop net org repo fuel branches cursor w
    = (Ret (branches ++ items_of pages),
       mk_world (posts w + length pages)
                (slept w ++ repeat RATE_DELAY (length pages - 1))).
Proof.
  induction pages as [|[items next] rest IH];
    intros fuel branches cursor w Hne Hs Hfuel; [congruence|].
  destruct fuel as [|fuel]; [simpl in Hfuel; lia|].
  destruct Hs as [Hnet Hrest].
  cbn [get_branches_loop]. unfold bind at 1.
  rewrite (run_query_ok net QBranches _ w _ _ Hnet eq_refl).
  unfold bind, lift, ret, sleep. cbn -[get_branches_loop Nat.sub repeat].
  rewrite mapR_named. cbn -[get_branches_loop Nat.sub repeat].
  destruct rest as [|p rest'].
  - cbn. unfold items_of. cbn. rewrite !app_nil_r.
    f_equal. f_equal. lia.
  - cbn -[get_branches_loop Nat.sub repeat length].
    rewrite IH; [|discriminate|exact Hrest|simpl in *; lia].
    unfold items_of. cbn [map fst concat posts slept].
    rewrite <- !app_assoc. f_equal. f_equal; [cbn [length]; lia|].
    cbn [length]. replace (S (S (length rest')) - 1)%nat with (S (length rest')) by lia.
    replace (S (length rest') - 1)%nat with (length rest') by lia.
    reflexivity.
Qed.

Lemma or_main_nonempty (branches : list json) : or_main branches <> [].
Proof. destruct branches; discriminate. Qed.

(** C8.  A repository that reports zero branches, on however many
    pages, makes [get_branches] return exactly the one entry ["main"];
    and no call of [get_branches] returns an empty list. *)
Theorem branch_fallback (net : network) (org repo : string) (fuel : nat) (w : world) :
  (forall pages : list (list json * json),
     pages <> [] ->
     serves net (branches_request org repo) branches_page (posts w) JNull pages ->
     (length pages <= fuel)%nat ->
     items_of pages = [] ->
     fst (get_branches net org repo fuel w) = Ret [JStr "main"]) /\
  (forall branches : list json,
     fst (get_branches net org repo fuel w) = Ret branches -> branches <> []).
Proof.
  split.
  - intros pages Hne Hs Hfuel Hnone. unfold get_branches, bind.
    rewrite (get_branches_loop_pages net org repo pages fuel [] JNull w Hne Hs Hfuel).
    rewrite Hnone. reflexivity.
  - intros branches. unfold get_branches, bind.
    destruct (get_branches_loop net org repo fuel [] JNull w) as [[bs | e | ] w'];
      simpl; try discriminate.
    intros [= <-]. apply or_main_nonempty.
Qed.

Lemma branch_fallback_witness :
  fst (get_branches no_branches "acme" "empty" 1 w0) = Ret [JStr "main"].
Proof.
  destruct (branch_fallback no_branches "acme" "empty" 1 w0) as [H _].
  apply (H [([], JNull)]).
  - discriminate.
  - simpl. split; [reflexivity | exact I].
  - simpl. lia.
  - reflexivity.
Defined.

(** ** Served feeds exist *)

Lemma serve_pages_serves (org : string) (pages : list (list json * json)) :
  forall (before : list (list json * json)) (cursor : json),
    serves (serve_pages (before ++ pages)) (repos_request org) repos_page
           (length before) cursor pages.
Proof.
  induction pages as [|[items next] rest IH]; intros before cursor; [exact I|].
  split.
  - unfold serve_pages. rewrite nth_error_app2 by lia. rewrite Nat.sub_diag.
    cbn [nth_error]. do 3 f_equal.
    replace (S (length before)) with (length (before ++ [(items, next)]))
      by (rewrite length_app; simpl; lia).
    replace (before ++ (items, next) :: rest) with ((before ++ [(items, next)]) ++ rest)
      by now rewrite <- app_assoc.
    now rewrite skipn_app, skipn_all, Nat.sub_diag.
  - replace (before ++ (items, next) :: rest) with ((before ++ [(items, next)]) ++ rest)
      by now rewrite <- app_assoc.
    replace (S (length before)) with (length (before ++ [(items, next)]))
      by (rewrite length_app; simpl; lia).
    apply IH.
Qed.

(** The example of the specification: 250 items in one page or in
    three. *)
Example feed250_split :
  fst (get_all_repos (serve_pages feed250_three_pages) "acme" 3 w0) = Ret feed250 /\
  fst (get_all_repos (serve_pages feed250_one_page) "acme" 1 w0) = Ret feed250.
Proof.
  unfold get_all_repos. split.
  - rewrite (get_all_repos_loop_pages _ "acme" feed250_three_pages);
      [reflexivity | discriminate | | simpl; lia].
    apply (serve_pages_serves "acme" feed250_three_pages []).
  - rewrite (get_all_repos_loop_pages _ "acme" feed250_one_page);
      [reflexivity | discriminate | | simpl; lia].
    apply (serve_pages_serves "acme" feed250_one_page []).
Qed.

(** ** Early termination of the loops *)

Lemma get_all_repos_loop_stops (net : network) (org : string) (fuel : nat)
    (repos : list json) (cursor result : json) (w w' : world) :
  run_query net QRepos (org_variables org cursor) 3 w = (Ret result, w') ->
  falsy_or_missing "organization" result = Ret true ->
  get_all_repos_loop net org (S fuel) repos cursor w = (Ret repos, w').
Proof.
  intros Hq Hstop. cbn [get_all_repos_loop]. unfold bind at 1. rewrite Hq.
  unfold bind, lift. rewrite Hstop. reflexivity.
Qed.

Lemma get_all_org_members_loop_stops (net : network) (org : string) (fuel : nat)
    (users : gset string) (cursor result : json) (w w' : world) :
  run_query net QMembers (org_variables org cursor) 3 w = (Ret result, w') ->
  falsy_or_missing "organization" result = Ret true ->
  get_all_org_members_loop net org (S fuel) users cursor w = (Ret users, w').
Proof.
  intros Hq Hstop. cbn [get_all_org_members_loop]. unfold bind at 1. rewrite Hq.
  unfold bind, lift. rewrite Hstop. reflexivity.
Qed.

Lemma created_activity_loop_stops (q : query) (connection : string) (net : network)
    (org repo : string) (fuel : nat) (user_activity : dict activity)
    (cursor result : json) (w w' : world) :
  run_query net q (repo_variables org repo cursor) 3 w = (Ret result, w') ->
  falsy_or_missing "repository" result = Ret true ->
  created_activity_loop q connection net org repo (S fuel) user_activity cursor w
  = (Ret user_activity, w').
Proof.
  intros Hq Hstop. cbn [created_activity_loop]. unfold bind at 1. rewrite Hq.
  unfold bind, lift. rewrite Hstop. reflexivity.
Qed.

(** A missing key and a failed transport both satisfy the guard. *)
Lemma falsy_or_missing_none (key : string) : falsy_or_missing key JNull = Ret true.
Proof. reflexivity. Qed.

Lemma falsy_or_missing_absent (key : string) (o : list (string * json)) :
  assoc key o = None -> falsy_or_missing key (JObj o) = Ret true.
Proof.
  intros H. unfold falsy_or_missing. destruct o as [|p o]; [reflexivity|].
  cbn [truthy negb contains rbind]. now rewrite H.
Qed.

(** The guards of [get_branches] and [get_commit_activity] also cover a
    null [repository]. *)
Lemma get_branches_unknown_repo (org repo : string) (fuel : nat) (w : world) :
  fst (get_branches unknown_repo org repo (S fuel) w) = Ret [JStr "main"].
Proof. reflexivity. Qed.

Lemma get_commit_activity_unknown_repo (org repo branch : string) (fuel : nat) (w : world) :
  fst (get_commit_activity unknown_repo org repo branch (S fuel) w) = Ret [].
Proof. reflexivity. Qed.

Lemma get_issue_activity_unknown_repo (org repo : string) (fuel : nat) (w : world) :
  fst (get_issue_activity unknown_repo org repo (S fuel) w) = Raise TypeError.
Proof. reflexivity. Qed.

Lemma get_pr_activity_unknown_repo (org repo : string) (fuel : nat) (w : world) :
  fst (get_pr_activity unknown_repo org repo (S fuel) w) = Raise TypeError.
Proof. reflexivity. Qed.

(** C6.  The claim asks every loop to end with the items gathered so far
    when the expected data path is absent.  On the answer the server
    gives for an organization it does not know (status 200,
    [organization] null) the member and repository loops raise
    [TypeError] instead: their guard tests the key, not the value, which
    the guards of [get_branches] and [get_commit_activity] do. *)
Theorem unknown_org_raises (org : string) (fuel : nat) (w : world) :
  fst (get_all_repos unknown_org org (S fuel) w) = Raise TypeError /\
  fst (get_all_org_members unknown_org org (S fuel) w) = Raise TypeError.
Proof. split; reflexivity. Qed.

(** ** Dictionaries *)

Section Dict.
Context {V : Type}.
Implicit Types (d : dict V) (k : string) (v : V).

Lemma assoc_dict_set_eq k v d : assoc k (dict_set k v d) = Some v.
Proof.
  induction d as [|[k' v'] d IH]; simpl.
  - now rewrite String.eqb_refl.
  - destruct (String.eqb_spec k k') as [->|Hne]; simpl.
    + now rewrite String.eqb_refl.
    + destruct (String.eqb_spec k k'); [contradiction | exact IH].
Qed.

Lemma assoc_dict_set_ne k k' v d : k <> k' -> assoc k' (dict_set k v d) = assoc k' d.
Proof.
  intros Hne. induction d as [|[k1 v1] d IH]; simpl.
  - destruct (String.eqb_spec k' k); [congruence | reflexivity].
  - destruct (String.eqb_spec k k1) as [->|Hk]; simpl.
    + destruct (String.eqb_spec k' k1); [congruence | reflexivity].
    + now rewrite IH.
Qed.

Lemma dict_set_set k v1 v2 d : dict_set k v2 (dict_set k v1 d) = dict_set k v2 d.
Proof.
  induction d as [|[k' v'] d IH]; simpl.
  - now rewrite String.eqb_refl.
  - destruct (String.eqb_spec k k') as [->|Hk]; simpl.
    + now rewrite String.eqb_refl.
    + destruct (String.eqb_spec k k'); [contradiction | now rewrite IH].
Qed.

Lemma dict_alter_set (f : V -> V) k v d :
  dict_alter f k (dict_set k v d) = dict_set k (f v) d.
Proof. unfold dict_alter. now rewrite assoc_dict_set_eq, dict_set_set. Qed.

Lemma dict_alter_present (f : V -> V) k v d :
  assoc k d = Some v -> dict_alter f k d = dict_set k (f v) d.
Proof. unfold dict_alter. now intros ->. Qed.

Lemma Forall_dict_set (P : string * V -> Prop) k v d :
  (forall k', P (k', v)) -> Forall P d -> Forall P (dict_set k v d).
Proof.
  intros Hv. induction 1 as [|[k' v'] d Hx Hd IH]; simpl.
  - constructor; [apply Hv | constructor].
  - destruct (String.eqb k k'); constructor; auto.
Qed.

Lemma keys_dict_set k v d :
  map fst (dict_set k v d)
  = if dict_mem k d then map fst d else map fst d ++ [k].
Proof.
  unfold dict_mem. induction d as [|[k' v'] d IH]; simpl; [reflexivity|].
  destruct (String.eqb_spec k k') as [->|Hk]; simpl; [reflexivity|].
  rewrite IH. now destruct (assoc k d).
Qed.

Lemma assoc_None_keys k d : assoc k d = None <-> k ∉ map fst d.
Proof.
  induction d as [|[k' v'] d IH]; simpl.
  - split; [intros _; apply not_elem_of_nil | reflexivity].
  - rewrite not_elem_of_cons. destruct (String.eqb_spec k k') as [->|Hk].
    + split; [discriminate | intros [H _]; congruence].
    + rewrite IH. tauto.
Qed.

Lemma NoDup_dict_set k v d :
  NoDup (map fst d) -> NoDup (map fst (dict_set k v d)).
Proof.
  intros Hd. rewrite keys_dict_set. unfold dict_mem.
  destruct (assoc k d) eqn:E; [exact Hd|].
  apply assoc_None_keys in E.
  apply NoDup_app. repeat split; [exact Hd | | apply NoDup_singleton].
  intros x Hx Hk. apply list_elem_of_singleton in Hk. now subst x.
Qed.
End Dict.

(** ** Inversion of computations *)

Lemma rbind_Ret_inv {A B : Type} (r : res A) (k : A -> res B) (b : B) :
  rbind r k = Ret b -> exists a, r = Ret a /\ k a = Ret b.
Proof. destruct r as [a | e | ]; simpl; try discriminate. eauto. Qed.

Lemma bind_Ret_inv {A B : Type} (m : M A) (k : A -> M B) (w w' : world) (b : B) :
  bind m k w = (Ret b, w') ->
  exists a w1, m w = (Ret a, w1) /\ k a w1 = (Ret b, w').
Proof.
  unfold bind. destruct (m w) as [[a | e | ] w1]; try discriminate. eauto.
Qed.

Lemma lift_Ret_inv {A : Type} (r : res A) (w w' : world) (a : A) :
  lift r w = (Ret a, w') -> r = Ret a /\ w' = w.
Proof. unfold lift. now intros [= -> ->]. Qed.

Lemma ret_inv {A : Type} (a b : A) (w w' : world) :
  ret a w = (Ret b, w') -> a = b /\ w' = w.
Proof. unfold ret. now intros [= -> ->]. Qed.

Lemma foldR_invariant {A B : Type} (P : A -> Prop) (f : A -> B -> res A) :
  (forall a x a', P a -> f a x = Ret a' -> P a') ->
  forall l a a', P a -> foldR f a l = Ret a' -> P a'.
Proof.
  intros Hf. induction l as [|x l IH]; intros a a' Ha; simpl.
  - now intros [= <-].
  - intros H. apply rbind_Ret_inv in H as (a1 & H1 & H2). eauto.
Qed.

Ltac bind_inv H :=
  let a := fresh "a" in
  let w1 := fresh "w" in
  let E := fresh "E" in
  apply bind_Ret_inv in H as (a & w1 & E & H).

Ltac rbind_inv H :=
  let a := fresh "a" in
  let E := fresh "E" in
  apply rbind_Ret_inv in H as (a & E & H).

(** ** The per-category activity maps *)

Lemma observe_eq (user_activity : dict activity) (login ts : string) :
  observe user_activity login ts
  = dict_set login (observed (assoc login user_activity) ts) user_activity.
Proof.
  unfold observe, dict_mem. destruct (assoc login user_activity) as [e|] eqn:E.
  - rewrite (dict_alter_present _ _ _ _ E), dict_alter_set. reflexivity.
  - rewrite !dict_alter_set. reflexivity.
Qed.

Lemma later_some_r (x : option string) (ts : string) :
  exists m, later x (Some ts) = Some m.
Proof.
  destruct x as [a|]; [rewrite later_some | unfold later; simpl]; eauto.
Qed.

Lemma observe_well_formed (user_activity : dict activity) (login ts : string) :
  well_formed user_activity -> well_formed (observe user_activity login ts).
Proof.
  intros Hwf. rewrite observe_eq. apply Forall_dict_set; [|exact Hwf].
  intros k'. simpl. unfold observed.
  destruct (assoc login user_activity) as [e|]; simpl.
  - split; [lia|]. destruct (later_some_r (last_event e) ts) as [m ->]. discriminate.
  - split; [lia|]. destruct (later_some_r (Some ts) ts) as [m ->]. discriminate.
Qed.

Lemma commit_edge_well_formed (user_activity user_activity' : dict activity)
    (edge : json) :
  well_formed user_activity ->
  commit_edge user_activity edge = Ret user_activity' ->
  well_formed user_activity'.
Proof.
  intros Hwf H. unfold commit_edge in H. rbind_inv H.
  destruct (truthy a).
  - rbind_inv H. rbind_inv H. injection H as <-. now apply observe_well_formed.
  - now injection H as <-.
Qed.

Lemma created_node_well_formed (user_activity user_activity' : dict activity)
    (node : json) :
  well_formed user_activity ->
  created_node user_activity node = Ret user_activity' ->
  well_formed user_activity'.
Proof.
  intros Hwf H. unfold created_node in H. rbind_inv H. rbind_inv H.
  destruct a0.
  - rbind_inv H. rbind_inv H. injection H as <-. now apply observe_well_formed.
  - now injection H as <-.
Qed.

Lemma get_commit_activity_loop_well_formed (net : network) (org repo branch : string) :
  forall (fuel : nat) (user_activity : dict activity) (cursor : json) (w w' : world)
         (m : dict activity),
    well_formed user_activity ->
    get_commit_activity_loop net org repo branch fuel user_activity cursor w
    = (Ret m, w') ->
    well_formed m.
Proof.
  induction fuel as [|fuel IH]; intros ua cursor w w' m Hwf H; [discriminate|].
  cbn [get_commit_activity_loop] in H.
  bind_inv H. bind_inv H. destruct a0.
  { apply ret_inv in H as [<- _]. exact Hwf. }
  bind_inv H. bind_inv H. destruct a1.
  { apply ret_inv in H as [<- _]. exact Hwf. }
  bind_inv H. bind_inv H.
  assert (Hwf' : well_formed a2).
  { apply lift_Ret_inv in E4 as [E4 _]. rbind_inv E4. rbind_inv E4.
    eapply (foldR_invariant well_formed commit_edge); [|exact Hwf|exact E4].
    intros d x d' Hd Hx. eapply commit_edge_well_formed; eauto. }
  bind_inv H. destruct (negb (truthy a3)).
  { apply ret_inv in H as [<- _]. exact Hwf'. }
  bind_inv H. bind_inv H. eapply IH; eauto.
Qed.

Lemma created_activity_loop_well_formed (q : query) (connection : string)
    (net : network) (org repo : string) :
  forall (fuel : nat) (user_activity : dict activity) (cursor : json) (w w' : world)
         (m : dict activity),
    well_formed user_activity ->
    created_activity_loop q connection net org repo fuel user_activity cursor w
    = (Ret m, w') ->
    well_formed m.
Proof.
  induction fuel as [|fuel IH]; intros ua cursor w w' m Hwf H; [discriminate|].
  cbn [created_activity_loop] in H.
  bind_inv H. bind_inv H. destruct a0.
  { apply ret_inv in H as [<- _]. exact Hwf. }
  bind_inv H. bind_inv H.
  assert (Hwf' : well_formed a1).
  { apply lift_Ret_inv in E2 as [E2 _]. rbind_inv E2. rbind_inv E2.
    eapply (foldR_invariant well_formed created_node); [|exact Hwf|exact E2].
    intros d x d' Hd Hx. eapply created_node_well_formed; eauto. }
  bind_inv H. destruct (negb (truthy a2)).
  { apply ret_inv in H as [<- _]. exact Hwf'. }
  bind_inv H. bind_inv H. eapply IH; eauto.
Qed.

(** C10.  Every map returned by [get_commit_activity],
    [get_issue_activity] or [get_pr_activity] is well formed: each entry
    in it counts at least one event and has a last timestamp that is not
    [None]. *)
Theorem activity_maps_well_formed (net : network) (org repo branch : string)
    (fuel : nat) (w : world) (m : dict activity) :
  fst (get_commit_activity net org repo branch fuel w) = Ret m \/
  fst (get_issue_activity net org repo fuel w) = Ret m \/
  fst (get_pr_activity net org repo fuel w) = Ret m ->
  forall (login : string) (entry : activity),
    In (login, entry) m ->
    (1 <= n_events entry)%nat /\ last_event entry <> None.
Proof.
  intros H login entry Hin.
  assert (Hwf : well_formed m).
  { destruct H as [H | [H | H]].
    - unfold get_commit_activity in H.
      destruct (get_commit_activity_loop net org repo branch fuel [] JNull w)
        as [r w'] eqn:E. simpl in H. subst r.
      eapply get_commit_activity_loop_well_formed; [|exact E]. constructor.
    - unfold get_issue_activity in H.
      destruct (created_activity_loop QIssues "issues" net org repo fuel [] JNull w)
        as [r w'] eqn:E. simpl in H. subst r.
      eapply created_activity_loop_well_formed; [|exact E]. constructor.
    - unfold get_pr_activity in H.
      destruct (created_activity_loop QPRs "pullRequests" net org repo fuel [] JNull w)
        as [r w'] eqn:E. simpl in H. subst r.
      eapply created_activity_loop_well_formed; [|exact E]. constructor. }
  unfold well_formed in Hwf. rewrite Forall_forall in Hwf.
  apply (Hwf (login, entry)). now apply list_elem_of_In.
Qed.

Lemma activity_maps_well_formed_witness :
  (1 <= 3)%nat /\ Some "2024-02-03T10:00:00Z" <> None.
Proof.
  apply (activity_maps_well_formed scenario "acme" "api" "main" 1 w0
           [("alice", mk_activity 3 (Some "2024-02-03T10:00:00Z"))]
           (or_introl eq_refl)
           "alice" (mk_activity 3 (Some "2024-02-03T10:00:00Z"))).
  simpl. now left.
Defined.

(** ** The collectors on a served feed *)

Lemma created_node_step (user_activity : dict activity) (it : item) :
  created_node user_activity (created_json it)
  = Ret (match attributed_created it with
         | Some r => observe user_activity (fst r) (snd r)
         | None => user_activity
         end).
Proof.
  destruct it as [[l|] t]; unfold created_node, created_json, attributed_created;
    cbn [fst snd actor getitem assoc String.eqb Ascii.eqb Bool.eqb rbind truthy get
         as_str]; [|reflexivity].
  now destruct (String.eqb l "").
Qed.

Lemma commit_edge_step (user_activity : dict activity) (it : item) :
  commit_edge user_activity (edge_json it)
  = Ret (match attributed_commit it with
         | Some r => observe user_activity (fst r) (snd r)
         | None => user_activity
         end).
Proof. now destruct it as [[l|] t]. Qed.

Lemma foldR_steps (f : dict activity -> json -> res (dict activity))
    (enc : item -> json) (keep : item -> option record) :
  (forall ua it, f ua (enc it)
                 = Ret (match keep it with
                        | Some r => observe ua (fst r) (snd r)
                        | None => ua
                        end)) ->
  forall (items : list item) (user_activity : dict activity),
    foldR f user_activity (map enc items)
    = Ret (fold_page user_activity (omap keep items)).
Proof.
  intros Hstep. induction items as [|it items IH]; intros ua; [reflexivity|].
  cbn [map foldR]. rewrite Hstep. cbn [rbind]. rewrite IH.
  cbn [omap list_omap]. now destruct (keep it).
Qed.

Lemma created_activity_loop_pages (q : query) (connection : string) (net : network)
    (org repo : string) :
  forall (pages : list (list item * json)) (fuel : nat)
         (user_activity : dict activity) (cursor : json) (w : world),
    pages <> [] ->
    serves net (fun c => mk_request q (repo_variables org repo c))
           (created_page connection) (posts w) cursor
           (encode_pages created_json pages) ->
    (length pages <= fuel)%nat ->
    created_activity_loop q connection net org repo fuel user_activity cursor w
    = (Ret (fold_left fold_page (kept_pages attributed_created pages) user_activity),
       mk_world (posts w + length pages)
                (slept w ++ repeat RATE_DELAY (length pages - 1))).
Proof.
  induction pages as [|[items next] rest IH]; intros fuel ua cursor w Hne Hs Hfuel;
    [congruence|].
  destruct fuel as [|fuel]; [simpl in Hfuel; lia|].
  destruct Hs as [Hnet Hrest].
  cbn [created_activity_loop]. unfold bind at 1.
  rewrite (run_query_ok net q _ w _ _ Hnet eq_refl).
  unfold bind, lift, ret, sleep.
  cbn -[created_activity_loop Nat.sub repeat foldR].
  rewrite String.eqb_refl.
  cbn -[created_activity_loop Nat.sub repeat foldR].
  rewrite (foldR_steps created_node created_json attributed_created created_node_step).
  cbn -[created_activity_loop Nat.sub repeat].
  destruct rest as [|p rest'].
  - cbn. f_equal. f_equal; [lia | now rewrite app_nil_r].
  - cbn -[created_activity_loop Nat.sub repeat length kept_pages].
    rewrite IH; [|discriminate|exact Hrest|simpl in *; lia].
    cbn [posts slept kept_pages map fold_left fst].
    f_equal. f_equal; [cbn [length]; lia|].
    cbn [length]. replace (S (S (length rest')) - 1)%nat with (S (length rest')) by lia.
    replace (S (length rest') - 1)%nat with (length rest') by lia.
    now rewrite <- app_assoc.
Qed.

Lemma get_commit_activity_loop_pages (net : network) (org repo branch : string) :
  forall (pages : list (list item * json)) (fuel : nat)
         (user_activity : dict activity) (cursor : json) (w : world),
    pages <> [] ->
    serves net (fun c => mk_request QCommits (commit_variables org repo branch c))
           commits_page (posts w) cursor (encode_pages edge_json pages) ->
    (length pages <= fuel)%nat ->
    get_commit_activity_loop net org repo branch fuel user_activity cursor w
    = (Ret (fold_left fold_page (kept_pages attributed_commit pages) user_activity),
       mk_world (posts w + length pages)
                (slept w ++ repeat RATE_DELAY (length pages - 1))).
Proof.
  induction pages as [|[items next] rest IH]; intros fuel ua cursor w Hne Hs Hfuel;
    [congruence|].
  destruct fuel as [|fuel]; [simpl in Hfuel; lia|].
  destruct Hs as [Hnet Hrest].
  cbn [get_commit_activity_loop]. unfold bind at 1.
  rewrite (run_query_ok net QCommits _ w _ _ Hnet eq_refl).
  unfold bind, lift, ret, sleep.
  cbn -[get_commit_activity_loop Nat.sub repeat foldR].
  rewrite (foldR_steps commit_edge edge_json attributed_commit commit_edge_step).
  cbn -[get_commit_activity_loop Nat.sub repeat].
  destruct rest as [|p rest'].
  - cbn. f_equal. f_equal; [lia | now rewrite app_nil_r].
  - cbn -[get_commit_activity_loop Nat.sub repeat length kept_pages].
    rewrite IH; [|discriminate|exact Hrest|simpl in *; lia].
    cbn [posts slept kept_pages map fold_left fst].
    f_equal. f_equal; [cbn [length]; lia|].
    cbn [length]. replace (S (S (length rest')) - 1)%nat with (S (length rest')) by lia.
    replace (S (length rest') - 1)%nat with (length rest') by lia.
    now rewrite <- app_assoc.
Qed.

(** On a served feed the collectors return [collect] of the attributed
    records, which is what the aggregation theorem starts from. *)
Lemma get_commit_activity_collect (net : network) (org repo branch : string)
    (pages : list (list item * json)) (fuel : nat) (w : world) :
  pages <> [] ->
  serves net (fun c => mk_request QCommits (commit_variables org repo branch c))
         commits_page (posts w) JNull (encode_pages edge_json pages) ->
  (length pages <= fuel)%nat ->
  fst (get_commit_activity net org repo branch fuel w)
  = Ret (collect (kept_pages attributed_commit pages)).
Proof.
  intros Hne Hs Hfuel. unfold get_commit_activity.
  now rewrite (get_commit_activity_loop_pages net org repo branch pages fuel [] JNull w).
Qed.

Lemma get_issue_activity_collect (net : network) (org repo : string)
    (pages : list (list item * json)) (fuel : nat) (w : world) :
  pages <> [] ->
  serves net (fun c => mk_request QIssues (repo_variables org repo c))
         (created_page "issues") (posts w) JNull (encode_pages created_json pages) ->
  (length pages <= fuel)%nat ->
  fst (get_issue_activity net org repo fuel w)
  = Ret (collect (kept_pages attributed_created pages)).
Proof.
  intros Hne Hs Hfuel. unfold get_issue_activity.
  now rewrite (created_activity_loop_pages QIssues "issues" net org repo pages fuel
                 [] JNull w).
Qed.

Lemma get_pr_activity_collect (net : network) (org repo : string)
    (pages : list (list item * json)) (fuel : nat) (w : world) :
  pages <> [] ->
  serves net (fun c => mk_request QPRs (repo_variables org repo c))
         (created_page "pullRequests") (posts w) JNull
         (encode_pages created_json pages) ->
  (length pages <= fuel)%nat ->
  fst (get_pr_activity net org repo fuel w)
  = Ret (collect (kept_pages attributed_created pages)).
Proof.
  intros Hne Hs Hfuel. unfold get_pr_activity.
  now rewrite (created_activity_loop_pages QPRs "pullRequests" net org repo pages fuel
                 [] JNull w).
Qed.

(** The end-to-end scenario of the specification. *)
Example scenario_summaries :
  fst (main_repo scenario "acme" "api" 1 w0)
  = Ret [("alice", mk_summary 3 0 0 (Some "2024-02-03T10:00:00Z") None None);
         ("bob", mk_summary 0 1 0 None (Some "2024-02-10T08:00:00Z") None)].
Proof. reflexivity. Qed.

Example scenario_report :
  save_to_csv march_first_2024 60
    [("api", [("alice", mk_summary 3 0 0 (Some "2024-02-03T10:00:00Z") None None);
              ("bob", mk_summary 0 1 0 None (Some "2024-02-10T08:00:00Z") None)])]
    roster
  = Ret [[CStr "Repository: api"];
         header;
         [CStr "alice"; CInt 3; CInt 0; CInt 0; CStr "2024-02-03T10:00:00Z";
          CStr "Active"];
         [CStr "bob"; CInt 0; CInt 1; CInt 0; CStr "2024-02-10T08:00:00Z";
          CStr "Active"];
         []].
Proof. reflexivity. Qed.

(** ** Counting and the latest timestamp *)

Lemma latest_later (x : option string) (b : string) (l1 l2 : list string) :
  latest x l1 -> latest (Some b) l2 -> latest (later x (Some b)) (l1 ++ l2).
Proof.
  intros H1 [Hb Hmax]. destruct x as [a|]; simpl in H1.
  - destruct H1 as [Ha Hamax]. rewrite later_some. simpl. split.
    + apply in_or_app. destruct (py_max_cases a b) as [-> | ->]; auto.
    + intros t Ht. apply in_app_or in Ht as [Ht | Ht].
      * transitivity a; [auto | apply py_max_le_l].
      * transitivity b; [auto | apply py_max_le_r].
  - subst l1. unfold later. simpl. split; auto.
Qed.

Lemma latest_singleton (t : string) : latest (Some t) [t].
Proof.
  simpl. split; [now left|]. intros t' [<- | []]. reflexivity.
Qed.

Lemma latest_nonempty (x : option string) (l : list string) :
  latest x l -> l <> [] -> exists m, x = Some m.
Proof. destruct x; simpl; [eauto | congruence]. Qed.

Lemma py_max_idem (t : string) : py_max t t = t.
Proof. unfold py_max. now destruct (String.ltb t t). Qed.

Lemma tracks_observed (prev : option activity) (l : list string) (t : string) :
  tracks prev l -> tracks (Some (observed prev t)) (l ++ [t]).
Proof.
  intros H. destruct prev as [e|]; simpl in *.
  - destruct H as (Hne & Hn & Hl). split; [now destruct l|]. split.
    + rewrite length_app. simpl. lia.
    + apply latest_later; [exact Hl | apply latest_singleton].
  - subst l. simpl. split; [discriminate|]. split; [reflexivity|].
    rewrite later_some, py_max_idem. apply latest_singleton.
Qed.

Lemma tracks_fold (ts : list string) :
  forall (prev : option activity) (l : list string),
    tracks prev l ->
    tracks (fold_left (fun p t => Some (observed p t)) ts prev) (l ++ ts).
Proof.
  induction ts as [|t ts IH]; intros prev l H; simpl.
  - now rewrite app_nil_r.
  - replace (l ++ t :: ts) with ((l ++ [t]) ++ ts) by now rewrite <- app_assoc.
    apply IH. now apply tracks_observed.
Qed.

Lemma assoc_fold_observe (login : string) (records : list record) :
  forall user_activity : dict activity,
    assoc login
      (fold_left (fun ua r => observe ua (fst r) (snd r)) records user_activity)
    = fold_left (fun p t => Some (observed p t)) (events_of login records)
        (assoc login user_activity).
Proof.
  induction records as [|[u t] records IH]; intros ua; [reflexivity|].
  cbn [fold_left]. rewrite IH. unfold events_of. cbn [List.filter fst snd].
  rewrite observe_eq. destruct (String.eqb_spec u login) as [->|Hne].
  - now rewrite assoc_dict_set_eq.
  - now rewrite assoc_dict_set_ne.
Qed.

Lemma fold_left_concat {A B : Type} (f : A -> B -> A) (ls : list (list B)) :
  forall a, fold_left (fun a l => fold_left f l a) ls a = fold_left f (concat ls) a.
Proof.
  induction ls as [|l ls IH]; intros a; simpl; [reflexivity|].
  now rewrite fold_left_app, IH.
Qed.

Lemma collect_tracks (pages : list (list record)) (login : string) :
  tracks (assoc login (collect pages)) (events_of login (concat pages)).
Proof.
  unfold collect. rewrite fold_left_concat, assoc_fold_observe.
  apply (tracks_fold _ None []). reflexivity.
Qed.

Lemma fold_observe_NoDup (records : list record) :
  forall user_activity : dict activity,
    NoDup (map fst user_activity) ->
    NoDup (map fst (fold_left (fun ua r => observe ua (fst r) (snd r))
                              records user_activity)).
Proof.
  induction records as [|r records IH]; intros ua H; [exact H|].
  cbn [fold_left]. apply IH. rewrite observe_eq. now apply NoDup_dict_set.
Qed.

Lemma collect_NoDup (pages : list (list record)) : NoDup (map fst (collect pages)).
Proof.
  unfold collect. rewrite fold_left_concat. apply fold_observe_NoDup. constructor.
Qed.

(** Each attributed record adds exactly one to the count of its login
    and leaves the other counts alone. *)
Lemma observe_increments (user_activity : dict activity) (login ts other : string) :
  (count_of (observe user_activity login ts) login
   = count_of user_activity login + 1)%nat /\
  (other <> login ->
   count_of (observe user_activity login ts) other = count_of user_activity other).
Proof.
  unfold count_of. rewrite observe_eq. split.
  - rewrite assoc_dict_set_eq. unfold observed.
    now destruct (assoc login user_activity).
  - intros Hne. now rewrite assoc_dict_set_ne.
Qed.

(** ** Merging into the repository summary *)

Lemma merge_user_eq (c : category) (repo_activity : dict summary) (user : string)
    (data : activity) :
  merge_user c repo_activity (user, data)
  = dict_set user (merged c (assoc user repo_activity) data) repo_activity.
Proof.
  unfold merge_user, merged, dict_mem. destruct (assoc user repo_activity) as [s|] eqn:E.
  - rewrite (dict_alter_present _ _ _ _ E), dict_alter_set. reflexivity.
  - rewrite !dict_alter_set. reflexivity.
Qed.

Lemma assoc_merge_into (c : category) (login : string) (feed : dict activity) :
  forall repo_activity : dict summary,
    NoDup (map fst feed) ->
    assoc login (merge_into c repo_activity feed)
    = match assoc login feed with
      | Some data => Some (merged c (assoc login repo_activity) data)
      | None => assoc login repo_activity
      end.
Proof.
  unfold merge_into. induction feed as [|[k data] feed IH]; intros ra Hnd;
    [reflexivity|].
  simpl in Hnd. apply NoDup_cons in Hnd as [Hk Hnd].
  cbn [fold_left]. rewrite IH by exact Hnd. rewrite merge_user_eq. cbn [assoc].
  destruct (String.eqb_spec login k) as [->|Hne].
  - apply assoc_None_keys in Hk. rewrite Hk. now rewrite assoc_dict_set_eq.
  - rewrite assoc_dict_set_ne by congruence. reflexivity.
Qed.

Lemma counter_merged (c c' : category) (prev : option summary) (data : activity) :
  counter c' (merged c prev data)
  = if category_eqb c' c
    then (counter c' (from_option id new_summary prev) + n_events data)%nat
    else counter c' (from_option id new_summary prev).
Proof. destruct c, c'; reflexivity. Qed.

Lemma last_of_merged (c c' : category) (prev : option summary) (data : activity) :
  last_of c' (merged c prev data)
  = if category_eqb c' c
    then later (last_of c' (from_option id new_summary prev)) (last_event data)
    else last_of c' (from_option id new_summary prev).
Proof. destruct c, c'; reflexivity. Qed.

Lemma accounts_ext (s : option summary) (L L' : ledger) :
  (forall c, L c = L' c) -> accounts s L -> accounts s L'.
Proof.
  intros HL. destruct s as [s|]; simpl.
  - intros [[c Hc] H]. split.
    + exists c. now rewrite <- HL.
    + intros c'. rewrite <- HL. apply H.
  - intros H c. rewrite <- HL. apply H.
Qed.

Lemma accounts_default (s : option summary) (L : ledger) :
  accounts s L ->
  forall c, counter c (from_option id new_summary s) = length (L c) /\
            latest (last_of c (from_option id new_summary s)) (L c).
Proof.
  destruct s as [s|]; simpl.
  - intros [_ H]. exact H.
  - intros H c. rewrite H. now destruct c.
Qed.

Lemma accounts_merged (c : category) (s : option summary) (L : ledger)
    (data : activity) (l : list string) :
  accounts s L -> tracks (Some data) l ->
  accounts (Some (merged c s data)) (extend L c l).
Proof.
  intros Hs (Hne & Hn & Hl). pose proof (accounts_default s L Hs) as Hd.
  simpl. split.
  - exists c. unfold extend. replace (category_eqb c c) with true by now destruct c.
    intros E. apply app_eq_nil in E as [_ E]. contradiction.
  - intros c'. rewrite counter_merged, last_of_merged. unfold extend.
    destruct (Hd c') as [Hc Hlast]. destruct (category_eqb c' c); [|now split].
    split.
    + rewrite length_app. lia.
    + destruct (latest_nonempty _ _ Hl Hne) as [b Hb]. rewrite Hb in *.
      now apply latest_later.
Qed.

Lemma accounts_merge_into (c : category) (login : string) (feed : dict activity)
    (repo_activity : dict summary) (L : ledger) (l : list string) :
  NoDup (map fst feed) ->
  accounts (assoc login repo_activity) L ->
  tracks (assoc login feed) l ->
  accounts (assoc login (merge_into c repo_activity feed)) (extend L c l).
Proof.
  intros Hnd Hs Ht. rewrite assoc_merge_into by exact Hnd.
  destruct (assoc login feed) as [data|].
  - now apply accounts_merged.
  - simpl in Ht. subst l. eapply accounts_ext; [|exact Hs].
    intros c'. unfold extend. destruct (category_eqb c' c); [|reflexivity].
    now rewrite app_nil_r.
Qed.

Lemma events_of_app (login : string) (r1 r2 : list record) :
  events_of login (r1 ++ r2) = events_of login r1 ++ events_of login r2.
Proof. unfold events_of. now rewrite List.filter_app, map_app. Qed.

Lemma accounts_branches (login : string) (branches : list (list (list record))) :
  forall (repo_activity : dict summary) (L : ledger),
    accounts (assoc login repo_activity) L ->
    accounts
      (assoc login (fold_left (merge_into Commits) (map collect branches) repo_activity))
      (extend L Commits (events_of login (concat (concat branches)))).
Proof.
  induction branches as [|pages branches IH]; intros ra L Hs.
  - simpl. eapply accounts_ext; [|exact Hs]. intros c. unfold extend.
    destruct (category_eqb c Commits); [|reflexivity]. now rewrite app_nil_r.
  - cbn [map fold_left concat].
    eapply accounts_ext; [|apply IH; apply (accounts_merge_into Commits login
      (collect pages) ra L (events_of login (concat pages)));
      [apply collect_NoDup | exact Hs | apply collect_tracks]].
    intros c. unfold extend. rewrite concat_app, events_of_app.
    destruct (category_eqb c Commits); [|reflexivity]. now rewrite app_assoc.
Qed.

Lemma aggregate_accounts (branches : list (list (list record)))
    (issue_pages pr_pages : list (list record)) (login : string) :
  accounts
    (assoc login
       (aggregate (map collect branches) (collect issue_pages) (collect pr_pages)))
    (ledger_of (events_of login (concat (concat branches)))
               (events_of login (concat issue_pages))
               (events_of login (concat pr_pages))).
Proof.
  unfold aggregate.
  eapply accounts_ext; [|apply (accounts_merge_into PRs login (collect pr_pages));
    [apply collect_NoDup | | apply collect_tracks];
    apply (accounts_merge_into Issues login (collect issue_pages));
    [apply collect_NoDup | | apply collect_tracks];
    apply (accounts_branches login branches [] no_events); intros c; reflexivity].
  intros c. destruct c; reflexivity.
Qed.

(** C1.  For every user of a repository: however the user's records of
    a category are distributed over branches and pages, the summary that
    [main] builds holds, per category, the number of the user's records
    as its count and their maximum as its last timestamp; each record
    adds exactly one to the count of its login in a collector's map; and
    the summary exists exactly when the user has a record. *)
Theorem merge_counts_and_latest (branches : list (list (list record)))
    (issue_pages pr_pages : list (list record)) (login : string) :
  let repo_activity :=
    aggregate (map collect branches) (collect issue_pages) (collect pr_pages) in
  let cs := events_of login (concat (concat branches)) in
  let ts := events_of login (concat issue_pages) in
  let ps := events_of login (concat pr_pages) in
  (forall (user_activity : dict activity) (t : string),
     count_of (observe user_activity login t) login
     = S (count_of user_activity login)) /\
  match assoc login repo_activity with
  | None => cs = [] /\ ts = [] /\ ps = []
  | Some s =>
      cs ++ ts ++ ps <> [] /\
      commits s = length cs /\ issues s = length ts /\ prs s = length ps /\
      latest (last_commit s) cs /\ latest (last_issue s) ts /\ latest (last_pr s) ps
  end.
Proof.
  intros ra cs ts ps. split.
  - intros ua t. destruct (observe_increments ua login t login) as [H _].
    rewrite H. lia.
  - pose proof (aggregate_accounts branches issue_pages pr_pages login) as H.
    fold ra cs ts ps in H. destruct (assoc login ra) as [s|]; simpl in H.
    + destruct H as [[c Hc] H]. split.
      * intros E. apply app_eq_nil in E as [E1 E]. apply app_eq_nil in E as [E2 E3].
        destruct c; simpl in Hc; contradiction.
      * pose proof (H Commits) as [? ?]. pose proof (H Issues) as [? ?].
        pose proof (H PRs) as [? ?]. simpl in *. tauto.
    + repeat split; [apply (H Commits) | apply (H Issues) | apply (H PRs)].
Qed.

(** ** Independence of batching and order *)

Lemma latest_unique (x y : option string) (l l' : list string) :
  latest x l -> latest y l' -> l ≡ₚ l' -> x = y.
Proof.
  intros Hx Hy Hp. destruct x as [a|], y as [b|]; simpl in *.
  - destruct Hx as [Ha Hamax], Hy as [Hb Hbmax]. f_equal.
    apply (anti_symm String.le).
    + apply Hbmax. apply (Permutation_in _ Hp Ha).
    + apply Hamax. apply (Permutation_in _ (Permutation_sym Hp) Hb).
  - subst l'. apply Permutation_nil_r in Hp. subst l. now destruct Hx.
  - subst l. apply Permutation_nil in Hp. subst l'. now destruct Hy.
  - reflexivity.
Qed.

Lemma events_of_Permutation (login : string) (r r' : list record) :
  r ≡ₚ r' -> events_of login r ≡ₚ events_of login r'.
Proof.
  unfold events_of. induction 1 as [|x l l' _ IH|x y l|l l' l'' _ IH1 _ IH2].
  - reflexivity.
  - cbn [List.filter]. destruct (String.eqb (fst x) login); cbn [map];
      [now constructor | exact IH].
  - cbn [List.filter].
    destruct (String.eqb (fst x) login), (String.eqb (fst y) login); cbn [map];
      try reflexivity. apply perm_swap.
  - now transitivity (map snd (List.filter (fun r => String.eqb (fst r) login) l')).
Qed.

Lemma accounts_unique (s s' : option summary) (L L' : ledger) :
  accounts s L -> accounts s' L' -> (forall c, L c ≡ₚ L' c) -> s = s'.
Proof.
  intros Hs Hs' Hp. destruct s as [s|], s' as [s'|]; simpl in *.
  - destruct Hs as [_ Hs], Hs' as [_ Hs'].
    assert (Hc : forall c, counter c s = counter c s').
    { intros c. destruct (Hs c) as [-> _], (Hs' c) as [-> _].
      apply Permutation_length, Hp. }
    assert (Hl : forall c, last_of c s = last_of c s').
    { intros c. destruct (Hs c) as [_ H1], (Hs' c) as [_ H2].
      exact (latest_unique _ _ _ _ H1 H2 (Hp c)). }
    pose proof (Hc Commits). pose proof (Hc Issues). pose proof (Hc PRs).
    pose proof (Hl Commits). pose proof (Hl Issues). pose proof (Hl PRs).
    destruct s, s'. simpl in *. congruence.
  - destruct Hs as [[c Hc] _]. exfalso. apply Hc.
    apply Permutation_nil. rewrite <- (Hs' c). symmetry. apply Hp.
  - destruct Hs' as [[c Hc] _]. exfalso. apply Hc.
    apply Permutation_nil. rewrite <- (Hs c). apply Hp.
  - reflexivity.
Qed.

(** Two distributions of the same records over branches and pages, in
    any order, give every user the same summary. *)
Lemma batching_irrelevant (branches branches' : list (list (list record)))
    (issue_pages issue_pages' pr_pages pr_pages' : list (list record))
    (login : string) :
  concat (concat branches) ≡ₚ concat (concat branches') ->
  concat issue_pages ≡ₚ concat issue_pages' ->
  concat pr_pages ≡ₚ concat pr_pages' ->
  assoc login
    (aggregate (map collect branches) (collect issue_pages) (collect pr_pages))
  = assoc login
      (aggregate (map collect branches') (collect issue_pages') (collect pr_pages')).
Proof.
  intros Hc Hi Hp.
  eapply accounts_unique; [apply aggregate_accounts | apply aggregate_accounts |].
  intros c. destruct c; simpl; now apply events_of_Permutation.
Qed.

(** The scenario's commits, in two pages of one branch or spread over
    three branches. *)
Example aggregate_scenario :
  aggregate (map collect scenario_commits) (collect scenario_issues) (collect [])
  = [("alice", mk_summary 3 0 0 (Some "2024-02-03T10:00:00Z") None None);
     ("bob", mk_summary 0 1 0 None (Some "2024-02-10T08:00:00Z") None)].
Proof. reflexivity. Qed.

Example aggregate_scenario_rebatched :
  aggregate
    (map collect [[[("alice", "2024-01-15T10:00:00Z")]];
                  [[("alice", "2024-02-03T10:00:00Z")]];
                  [[]; [("alice", "2024-02-01T10:00:00Z")]]])
    (collect scenario_issues) (collect [])
  = aggregate (map collect scenario_commits) (collect scenario_issues) (collect []).
Proof. reflexivity. Qed.

(** ** Timestamps in the API's format *)

Lemma digit_of_digit_char (d : Z) : 0 <= d <= 9 -> digit_of (digit_char d) = Some d.
Proof.
  intros H.
  assert (E : d = 0 \/ d = 1 \/ d = 2 \/ d = 3 \/ d = 4 \/ d = 5 \/ d = 6 \/
              d = 7 \/ d = 8 \/ d = 9) by lia.
  repeat (destruct E as [-> | E]; [reflexivity|]). now subst d.
Qed.

Lemma digit_char_not_Z (d : Z) : 0 <= d <= 9 -> Ascii.eqb (digit_char d) "Z" = false.
Proof.
  intros H.
  assert (E : d = 0 \/ d = 1 \/ d = 2 \/ d = 3 \/ d = 4 \/ d = 5 \/ d = 6 \/
              d = 7 \/ d = 8 \/ d = 9) by lia.
  repeat (destruct E as [-> | E]; [reflexivity|]). now subst d.
Qed.

Lemma two_digits (n : Z) : 0 <= n <= 99 -> 0 <= n / 10 <= 9 /\ 0 <= n mod 10 <= 9.
Proof.
  intros H. split.
  - assert (n / 10 < 10) by (apply Z.div_lt_upper_bound; lia).
    assert (0 <= n / 10) by (apply Z.div_pos; lia). lia.
  - pose proof (Z.mod_pos_bound n 10). lia.
Qed.

Lemma read_digits_put2 (n acc : Z) (rest : string) :
  0 <= n <= 99 -> read_digits 2 acc (put2 n rest) = Some (100 * acc + n, rest).
Proof.
  intros H. destruct (two_digits n H) as [Hq Hr]. unfold put2. cbn [read_digits].
  rewrite (digit_of_digit_char _ Hq), (digit_of_digit_char _ Hr).
  f_equal. f_equal. pose proof (Z.div_mod n 10). lia.
Qed.

Lemma read_digits_put4 (n : Z) (rest : string) :
  0 <= n <= 9999 -> read_digits 4 0 (put4 n rest) = Some (n, rest).
Proof.
  intros H.
  assert (Hq : 0 <= n / 100 <= 99).
  { assert (n / 100 < 100) by (apply Z.div_lt_upper_bound; lia).
    assert (0 <= n / 100) by (apply Z.div_pos; lia). lia. }
  assert (Hr : 0 <= n mod 100 <= 99) by (pose proof (Z.mod_pos_bound n 100); lia).
  destruct (two_digits _ Hq) as [Hq1 Hq2]. unfold put4, put2 at 1.
  cbn [read_digits]. rewrite (digit_of_digit_char _ Hq1), (digit_of_digit_char _ Hq2).
  change (read_digits 2 (10 * (10 * 0 + n / 100 / 10) + (n / 100) mod 10)
            (put2 (n mod 100) rest) = Some (n, rest)).
  rewrite (read_digits_put2 _ _ _ Hr). f_equal. f_equal.
  pose proof (Z.div_mod n 100). pose proof (Z.div_mod (n / 100) 10). lia.
Qed.

Lemma replace_put2 (n : Z) (new rest : string) :
  0 <= n <= 99 -> replace "Z" new (put2 n rest) = put2 n (replace "Z" new rest).
Proof.
  intros H. destruct (two_digits n H) as [Hq Hr]. unfold put2. cbn [replace].
  now rewrite (digit_char_not_Z _ Hq), (digit_char_not_Z _ Hr).
Qed.

Lemma replace_put4 (n : Z) (new rest : string) :
  0 <= n <= 9999 -> replace "Z" new (put4 n rest) = put4 n (replace "Z" new rest).
Proof.
  intros H. unfold put4. rewrite !replace_put2; [reflexivity| |].
  - pose proof (Z.mod_pos_bound n 100). lia.
  - assert (n / 100 < 100) by (apply Z.div_lt_upper_bound; lia).
    assert (0 <= n / 100) by (apply Z.div_pos; lia). lia.
Qed.

Lemma days_in_month_bound (y m : Z) : 28 <= days_in_month y m <= 31.
Proof.
  unfold days_in_month.
  destruct (m =? 2)%Z; [destruct (is_leap y); lia|].
  destruct ((m =? 4)%Z || (m =? 6)%Z || (m =? 9)%Z || (m =? 11)%Z); lia.
Qed.

(** The trailing ["Z"] is rewritten to the zero offset. *)
Lemma replace_iso_utc (y m d hh mm ss : Z) :
  valid_civil y m d hh mm ss ->
  replace "Z" "+00:00" (iso_utc y m d hh mm ss) = iso_body y m d hh mm ss "+00:00".
Proof.
  intros (Hy & Hm & Hd & Hhh & Hmm & Hss). pose proof (days_in_month_bound y m).
  unfold iso_utc, iso_body.
  rewrite replace_put4 by lia. cbn [replace Ascii.eqb Bool.eqb].
  rewrite replace_put2 by lia. cbn [replace Ascii.eqb Bool.eqb].
  rewrite replace_put2 by lia. cbn [replace Ascii.eqb Bool.eqb].
  rewrite replace_put2 by lia. cbn [replace Ascii.eqb Bool.eqb].
  rewrite replace_put2 by lia. cbn [replace Ascii.eqb Bool.eqb].
  rewrite replace_put2 by lia. reflexivity.
Qed.

Lemma in_range_ok (lo x hi : Z) : lo <= x <= hi -> in_range lo x hi = Some tt.
Proof.
  intros H. unfold in_range.
  destruct (Z.leb_spec lo x); [|lia]. destruct (Z.leb_spec x hi); [reflexivity | lia].
Qed.

Lemma parse_iso_body_utc (y m d hh mm ss : Z) :
  valid_civil y m d hh mm ss ->
  parse_datetime (iso_body y m d hh mm ss "+00:00")
  = Some (mk_datetime (civil_us y m d hh mm ss) (Some 0)).
Proof.
  intros (Hy & Hm & Hd & Hhh & Hmm & Hss). pose proof (days_in_month_bound y m).
  unfold parse_datetime, iso_body.
  rewrite read_digits_put4 by lia. cbn [mbind option_bind expect Ascii.eqb Bool.eqb].
  rewrite read_digits_put2 by lia. cbn [mbind option_bind expect Ascii.eqb Bool.eqb].
  rewrite read_digits_put2 by lia.
  cbn [mbind option_bind expect skip_char Ascii.eqb Bool.eqb].
  rewrite read_digits_put2 by lia. cbn [mbind option_bind expect Ascii.eqb Bool.eqb].
  rewrite read_digits_put2 by lia. cbn [mbind option_bind expect Ascii.eqb Bool.eqb].
  rewrite read_digits_put2 by lia.
  replace (parse_offset "+00:00") with (Some (Some 0)) by reflexivity.
  cbn [mbind option_bind].
  rewrite !Z.mul_0_r, !Z.add_0_l.
  rewrite !in_range_ok by lia. reflexivity.
Qed.

(** A timestamp printed with a trailing ["Z"] is read as the instant of
    that civil time in UTC. *)
Lemma fromisoformat_iso_utc (y m d hh mm ss : Z) :
  valid_civil y m d hh mm ss ->
  fromisoformat (replace "Z" "+00:00" (iso_utc y m d hh mm ss))
  = Ret (mk_datetime (civil_us y m d hh mm ss) (Some 0)).
Proof.
  intros H. unfold fromisoformat.
  now rewrite replace_iso_utc, parse_iso_body_utc.
Qed.

(** ** Status classification *)

Lemma classify_absent (cutoff : datetime) (ts : option string) :
  truthy_ts ts = false -> classify cutoff ts = Ret ("N/A", "Inactive").
Proof. unfold classify. destruct ts as [s|]; [now intros -> | reflexivity]. Qed.

Lemma classify_aware (now_us threshold_days : Z) (ts : string) (wall off : Z) :
  ts <> "" ->
  fromisoformat (replace "Z" "+00:00" ts) = Ret (mk_datetime wall (Some off)) ->
  classify (cutoff_of now_us threshold_days) (Some ts)
  = Ret (ts, if (now_us - threshold_days * 86400 * 1000000 <=? instant wall off)%Z
             then "Active" else "Inactive").
Proof.
  intros Hne Hparse. unfold classify.
  replace (truthy_ts (Some ts)) with true
    by (simpl; now destruct (String.eqb_spec ts "")).
  rewrite Hparse. cbn [rbind datetime_ge utcoffset wall_us cutoff_of].
  unfold instant. now rewrite Z.sub_0_r.
Qed.

(** The examples of the specification: threshold 60 days, now
    2024-03-01T00:00:00Z. *)
Example status_sixty_one_days :
  classify (cutoff_of march_first_2024 60) (Some "2023-12-31T00:00:00Z")
  = Ret ("2023-12-31T00:00:00Z", "Inactive").
Proof. reflexivity. Qed.

Example status_one_microsecond_late :
  classify (cutoff_of (march_first_2024 + 1) 60) (Some "2024-01-01T00:00:00Z")
  = Ret ("2024-01-01T00:00:00Z", "Inactive").
Proof. reflexivity. Qed.

Example status_other_zone :
  classify (cutoff_of march_first_2024 60) (Some "2024-01-01T05:30:00+05:30")
  = Ret ("2024-01-01T05:30:00+05:30", "Active").
Proof. reflexivity. Qed.

(** Without zone information the comparison with the aware cutoff
    raises. *)
Example status_naive :
  classify (cutoff_of march_first_2024 60) (Some "2024-01-01T00:00:00")
  = Raise TypeError.
Proof. reflexivity. Qed.

(** ** The rows of the report *)

Lemma sorted_StronglySorted (all_users : gset string) :
  StronglySorted String.le (sorted all_users).
Proof. unfold sorted. apply StronglySorted_merge_sort; apply _. Qed.

Lemma sorted_Permutation (all_users : gset string) :
  sorted all_users ≡ₚ elements all_users.
Proof. unfold sorted. apply merge_sort_Permutation. Qed.

Lemma sorted_NoDup (all_users : gset string) : NoDup (sorted all_users).
Proof. rewrite sorted_Permutation. apply NoDup_elements. Qed.

Lemma elem_of_sorted (all_users : gset string) (u : string) :
  u ∈ sorted all_users <-> u ∈ all_users.
Proof. rewrite sorted_Permutation. apply elem_of_elements. Qed.

Lemma mapR_Forall2 {A B : Type} (f : A -> res B) (l : list A) :
  forall ys, mapR f l = Ret ys -> Forall2 (fun x y => f x = Ret y) l ys.
Proof.
  induction l as [|x l IH]; intros ys H; simpl in H.
  - injection H as <-. constructor.
  - rbind_inv H. rbind_inv H. injection H as <-. constructor; auto.
Qed.

Lemma mapR_total {A B : Type} (f : A -> res B) (l : list A) :
  (forall x, x ∈ l -> exists y, f x = Ret y) -> exists ys, mapR f l = Ret ys.
Proof.
  induction l as [|x l IH]; intros H; simpl; [eauto|].
  destruct (H x) as [y Hy]; [apply elem_of_cons; auto|].
  destruct IH as [ys Hys]; [intros x' Hx'; apply H, elem_of_cons; auto|].
  rewrite Hy, Hys. simpl. eauto.
Qed.

Lemma user_row_eq (cutoff : datetime) (activity : dict summary) (user : string) :
  user_row cutoff activity user
  = let data := assoc user activity in
    let* shown := classify cutoff (overall data) in
    Ret [CStr user; CInt (from_option commits 0%nat data);
         CInt (from_option issues 0%nat data); CInt (from_option prs 0%nat data);
         CStr (fst shown); CStr (snd shown)].
Proof. reflexivity. Qed.

Lemma user_row_head (cutoff : datetime) (activity : dict summary) (user : string)
    (row : list cell) :
  user_row cutoff activity user = Ret row -> hd_error row = Some (CStr user).
Proof.
  rewrite user_row_eq. cbn zeta. intros H. rbind_inv H. now injection H as <-.
Qed.

Lemma user_row_silent (cutoff : datetime) (activity : dict summary) (user : string) :
  assoc user activity = None -> user_row cutoff activity user = Ret (silent_row user).
Proof. intros H. rewrite user_row_eq, H. reflexivity. Qed.

(** Line 296: the cutoff exists exactly when the threshold and the
    difference are in the range of the library types. *)
Lemma utc_cutoff_valid (now_us threshold_days : Z) :
  valid_cutoff now_us threshold_days ->
  utc_cutoff now_us threshold_days = Ret (cutoff_of now_us threshold_days).
Proof.
  intros [Hd [Hlo Hhi]]. unfold utc_cutoff. cbv zeta. unfold cutoff_of at 1 2.
  cbn [wall_us].
  destruct (Z.leb_spec (Z.abs threshold_days) timedelta_max_days); [|lia].
  destruct (Z.leb_spec datetime_min_us (now_us - threshold_days * 86400 * 1000000));
    [|lia].
  destruct (Z.leb_spec (now_us - threshold_days * 86400 * 1000000) datetime_max_us);
    [|lia].
  reflexivity.
Qed.

Lemma utc_cutoff_Ret (now_us threshold_days : Z) (cutoff : datetime) :
  utc_cutoff now_us threshold_days = Ret cutoff ->
  cutoff = cutoff_of now_us threshold_days /\ valid_cutoff now_us threshold_days.
Proof.
  unfold utc_cutoff, valid_cutoff. cbv zeta. unfold cutoff_of at 1 2. cbn [wall_us].
  destruct (Z.leb_spec (Z.abs threshold_days) timedelta_max_days); [|discriminate].
  destruct (Z.leb_spec datetime_min_us (now_us - threshold_days * 86400 * 1000000));
    [|discriminate].
  destruct (Z.leb_spec (now_us - threshold_days * 86400 * 1000000) datetime_max_us);
    [|discriminate].
  cbn [andb]. intros Hc. injection Hc as <-. auto.
Qed.

Lemma utc_cutoff_overflow (now_us threshold_days : Z) :
  ~ valid_cutoff now_us threshold_days ->
  utc_cutoff now_us threshold_days = Raise OverflowError.
Proof.
  intros Hn. destruct (utc_cutoff now_us threshold_days) as [c|e|] eqn:E.
  - now apply utc_cutoff_Ret in E.
  - revert E. unfold utc_cutoff. cbv zeta.
    repeat match goal with |- context [if ?b then _ else _] => destruct b end;
      congruence.
  - revert E. unfold utc_cutoff. cbv zeta.
    repeat match goal with |- context [if ?b then _ else _] => destruct b end;
      congruence.
Qed.

Lemma readable_classify (now_us threshold_days : Z) (last_activity : option string) :
  readable last_activity ->
  exists shown, classify (cutoff_of now_us threshold_days) last_activity = Ret shown.
Proof.
  intros [H | (ts & wall & off & -> & Hparse)].
  - rewrite (classify_absent _ _ H). eauto.
  - destruct (String.eqb_spec ts "") as [-> | Hne].
    + rewrite classify_absent by reflexivity. eauto.
    + rewrite (classify_aware now_us threshold_days ts wall off Hne Hparse). eauto.
Qed.

Lemma blocks_report (cutoff : datetime) (all_users : gset string) :
  forall (repo_data : dict (dict summary)) (written : list (list (list cell))),
    mapR (fun item : string * dict summary =>
            let* rows := user_rows cutoff (snd item) all_users in
            Ret ([CStr ("Repository: " +:+ fst item)] :: header :: rows ++ [[]]))
         repo_data = Ret written ->
    exists blocks,
      concat written = report blocks /\
      Forall2 (fun (item : string * dict summary) (b : string * list (list cell)) =>
                 fst b = fst item /\
                 user_rows cutoff (snd item) all_users = Ret (snd b))
              repo_data blocks.
Proof.
  induction repo_data as [|[name activity] repo_data IH]; intros written H.
  - injection H as <-. exists []. split; [reflexivity | constructor].
  - cbn [mapR] in H. apply rbind_Ret_inv in H as (first & Hfirst & H).
    apply rbind_Ret_inv in H as (others & Hothers & H). injection H as <-.
    cbn [fst snd] in Hfirst. apply rbind_Ret_inv in Hfirst as (rs & Hrs & Hfirst).
    injection Hfirst as <-.
    destruct (IH _ Hothers) as (blocks & Hrep & HF).
    exists ((name, rs) :: blocks). split.
    + unfold report. cbn [map concat fst snd]. fold (report blocks).
      rewrite <- Hrep. reflexivity.
    + constructor; [split; [reflexivity | exact Hrs] | exact HF].
Qed.

(** The report [save_to_csv] completes with is made of one block per
    repository of [repo_data], in order, whose member rows are the rows
    of [user_rows]. *)
Lemma save_to_csv_inv (now_us threshold_days : Z) (repo_data : dict (dict summary))
    (all_users : gset string) (rows : list (list cell)) :
  save_to_csv now_us threshold_days repo_data all_users = Ret rows ->
  valid_cutoff now_us threshold_days /\
  exists blocks,
    rows = report blocks /\
    Forall2 (fun (item : string * dict summary) (b : string * list (list cell)) =>
               fst b = fst item /\
               user_rows (cutoff_of now_us threshold_days) (snd item) all_users
               = Ret (snd b))
            repo_data blocks.
Proof.
  unfold save_to_csv. intros H.
  apply rbind_Ret_inv in H as (cutoff & Hcutoff & H).
  apply utc_cutoff_Ret in Hcutoff as [-> Hv]. split; [exact Hv|].
  apply rbind_Ret_inv in H as (written & Hwritten & H). injection H as <-.
  exact (blocks_report _ _ _ _ Hwritten).
Qed.

(** [save_to_csv] completes when the cutoff exists and every member's
    overall last activity is readable. *)
Lemma save_to_csv_total (now_us threshold_days : Z) (repo_data : dict (dict summary))
    (all_users : gset string) :
  valid_cutoff now_us threshold_days ->
  (forall name activity u,
     In (name, activity) repo_data -> u ∈ all_users ->
     readable (overall (assoc u activity))) ->
  exists rows, save_to_csv now_us threshold_days repo_data all_users = Ret rows.
Proof.
  intros Hv Hr. unfold save_to_csv. rewrite (utc_cutoff_valid _ _ Hv). cbn [rbind].
  match goal with
  | |- context [mapR ?f repo_data] => destruct (mapR_total f repo_data) as [bs Hbs]
  end.
  { intros [name activity] Hin. apply list_elem_of_In in Hin. cbn [fst snd].
    destruct (mapR_total (user_row (cutoff_of now_us threshold_days) activity)
                (sorted all_users)) as [rs Hrs].
    { intros u Hu. apply elem_of_sorted in Hu.
      destruct (readable_classify now_us threshold_days _ (Hr name activity u Hin Hu))
        as [shown Hs].
      rewrite user_row_eq. cbn zeta. rewrite Hs. simpl. eauto. }
    unfold user_rows. rewrite Hrs. simpl. eauto. }
  rewrite Hbs. simpl. eauto.
Qed.

(** What the rows of one repository say about the roster. *)
Lemma user_rows_roster (cutoff : datetime) (activity : dict summary)
    (all_users : gset string) (member_rows : list (list cell)) :
  user_rows cutoff activity all_users = Ret member_rows ->
  Forall2 (fun u row =>
             hd_error row = Some (CStr u) /\
             user_row cutoff activity u = Ret row /\
             (assoc u activity = None -> row = silent_row u))
          (sorted all_users) member_rows /\
  (forall u row, u ∉ all_users -> row ∈ member_rows -> hd_error row <> Some (CStr u)).
Proof.
  intros H. pose proof (mapR_Forall2 _ _ _ H) as HF. split.
  - eapply Forall2_impl; [exact HF|]. intros u row Hrow. cbv beta in Hrow.
    split; [exact (user_row_head _ _ _ _ Hrow)|]. split; [exact Hrow|].
    intros Hnone. rewrite (user_row_silent _ _ _ Hnone) in Hrow. now injection Hrow.
  - intros u row Hu Hrow Hhd.
    apply list_elem_of_lookup in Hrow as [i Hi].
    destruct (Forall2_lookup_r _ _ _ _ _ HF Hi) as (u' & Hu' & Hf).
    apply user_row_head in Hf. rewrite Hf in Hhd. injection Hhd as ->.
    apply Hu, elem_of_sorted, list_elem_of_lookup. eauto.
Qed.

(** C9.  The report [save_to_csv] writes, when the cutoff exists and the
    members' timestamps are readable, is made of one block per
    repository, in the order of [repo_data]: the title row, the header,
    exactly one row per roster member in the order of
    [sorted(all_users)], which is ascending, without repetition and made
    of the roster's logins, and an empty row.  A member without
    recorded activity has the all-zero "Inactive" row, and a login
    outside the roster has no row, whatever activity it has. *)
Theorem one_row_per_member (now_us threshold_days : Z) (repo_data : dict (dict summary))
    (all_users : gset string) :
  valid_cutoff now_us threshold_days ->
  (forall name activity u,
     In (name, activity) repo_data -> u ∈ all_users ->
     readable (overall (assoc u activity))) ->
  exists blocks,
    save_to_csv now_us threshold_days repo_data all_users = Ret (report blocks) /\
    Forall2 (fun (item : string * dict summary) (b : string * list (list cell)) =>
               fst b = fst item /\
               Forall2 (fun u row =>
                          hd_error row = Some (CStr u) /\
                          user_row (cutoff_of now_us threshold_days) (snd item) u
                          = Ret row /\
                          (assoc u (snd item) = None -> row = silent_row u))
                       (sorted all_users) (snd b) /\
               (forall u row, u ∉ all_users -> row ∈ snd b ->
                              hd_error row <> Some (CStr u)))
            repo_data blocks /\
    StronglySorted String.le (sorted all_users) /\
    NoDup (sorted all_users) /\
    (forall u, u ∈ sorted all_users <-> u ∈ all_users).
Proof.
  intros Hv Hr.
  destruct (save_to_csv_total _ _ _ _ Hv Hr) as [rows Hrows].
  destruct (save_to_csv_inv _ _ _ _ _ Hrows) as (_ & blocks & -> & HF).
  exists blocks. split; [exact Hrows|].
  split; [|split; [apply sorted_StronglySorted|split;
                   [apply sorted_NoDup | apply elem_of_sorted]]].
  eapply Forall2_impl; [exact HF|]. intros item b [Hname Hb].
  split; [exact Hname|]. exact (user_rows_roster _ _ _ _ Hb).
Qed.

Lemma one_row_per_member_witness :
  exists blocks,
    save_to_csv march_first_2024 60 [("api", repo_example)] roster
    = Ret (report blocks) /\
    Forall2 (fun (item : string * dict summary) (b : string * list (list cell)) =>
               fst b = fst item /\
               Forall2 (fun u row =>
                          hd_error row = Some (CStr u) /\
                          user_row (cutoff_of march_first_2024 60) (snd item) u
                          = Ret row /\
                          (assoc u (snd item) = None -> row = silent_row u))
                       (sorted roster) (snd b) /\
               (forall u row, u ∉ roster -> row ∈ snd b ->
                              hd_error row <> Some (CStr u)))
            [("api", repo_example)] blocks /\
    StronglySorted String.le (sorted roster) /\
    NoDup (sorted roster) /\
    (forall u, u ∈ sorted roster <-> u ∈ roster).
Proof.
  apply (one_row_per_member march_first_2024 60 [("api", repo_example)] roster).
  - vm_compute. intuition discriminate.
  - intros name activity u [Heq | []] Hu. injection Heq as <- <-.
    unfold roster in Hu.
    apply elem_of_union in Hu as [Hu | Hu]; apply elem_of_singleton in Hu; subst u.
    + left. reflexivity.
    + right. eexists _, _, _. split; reflexivity.
Defined.

(** The report of the example: alice with her three commits, bob
    silent, and nothing for carol, who is not a member. *)
Example report_of_example :
  save_to_csv march_first_2024 60 [("api", repo_example)] roster
  = Ret [title_row "api"; header;
         [CStr "alice"; CInt 3; CInt 0; CInt 0; CStr "2024-02-03T10:00:00Z";
          CStr "Active"];
         silent_row "bob";
         []].
Proof. reflexivity. Qed.

(** The status cell of a row, from the overall last activity of its
    member. *)
Lemma user_row_status (now_us threshold_days : Z) (activity : dict summary)
    (u : string) (row : list cell) :
  user_row (cutoff_of now_us threshold_days) activity u = Ret row ->
  let limit := now_us - threshold_days * 86400 * 1000000 in
  let last_activity := overall (assoc u activity) in
  exists n_commits n_issues n_prs shown status,
    row = [CStr u; CInt n_commits; CInt n_issues; CInt n_prs; CStr shown; CStr status] /\
    (truthy_ts last_activity = false -> shown = "N/A" /\ status = "Inactive") /\
    (forall ts wall off,
       last_activity = Some ts -> ts <> "" ->
       fromisoformat (replace "Z" "+00:00" ts) = Ret (mk_datetime wall (Some off)) ->
       shown = ts /\
       (limit <= instant wall off -> status = "Active") /\
       (instant wall off < limit -> status = "Inactive")) /\
    (forall y m d hh mm ss,
       valid_civil y m d hh mm ss ->
       last_activity = Some (iso_utc y m d hh mm ss) ->
       status = if (limit <=? civil_us y m d hh mm ss)%Z then "Active" else "Inactive").
Proof.
  intros H limit last_activity. rewrite user_row_eq in H. cbn zeta in H.
  rbind_inv H. injection H as <-. fold last_activity in E.
  exists (from_option commits 0%nat (assoc u activity)),
         (from_option issues 0%nat (assoc u activity)),
         (from_option prs 0%nat (assoc u activity)), (fst a), (snd a).
  split; [reflexivity|]. split; [|split].
  - intros Hnone. rewrite (classify_absent _ _ Hnone) in E. now injection E as <-.
  - intros ts wall off Hlast Hne Hparse. rewrite Hlast in E.
    rewrite (classify_aware now_us threshold_days ts wall off Hne Hparse) in E.
    injection E as <-. cbn [fst snd]. fold limit. split; [reflexivity|].
    split; intros Hcmp.
    + destruct (Z.leb_spec limit (instant wall off)); [reflexivity | lia].
    + destruct (Z.leb_spec limit (instant wall off)); [lia | reflexivity].
  - intros y m d hh mm ss Hcivil Hlast. rewrite Hlast in E.
    rewrite (classify_aware now_us threshold_days _ (civil_us y m d hh mm ss) 0) in E.
    + injection E as <-. cbn [fst snd]. unfold instant. now rewrite Z.sub_0_r.
    + discriminate.
    + now apply fromisoformat_iso_utc.
Qed.

(** C3.  Status classification in the report.  When the cutoff exists
    and the members' timestamps are readable, [save_to_csv] writes one
    block per repository with one row per roster member, and in every
    such row: an absent overall last activity is shown as ["N/A"] with
    status "Inactive"; otherwise the timestamp, read with ["Z"]
    rewritten to the zero offset, is compared as an instant with the
    cutoff [now - threshold_days] days, the boundary included: an
    instant equal to or after the cutoff is "Active", an earlier one
    "Inactive"; and a timestamp printed as [YYYY-MM-DDTHH:MM:SSZ]
    counts as the instant of that civil time in UTC. *)
Theorem status_classification (now_us threshold_days : Z)
    (repo_data : dict (dict summary)) (all_users : gset string) :
  valid_cutoff now_us threshold_days ->
  (forall name activity u,
     In (name, activity) repo_data -> u ∈ all_users ->
     readable (overall (assoc u activity))) ->
  let limit := now_us - threshold_days * 86400 * 1000000 in
  exists blocks,
    save_to_csv now_us threshold_days repo_data all_users = Ret (report blocks) /\
    Forall2 (fun (item : string * dict summary) (b : string * list (list cell)) =>
      fst b = fst item /\
      Forall2 (fun u row =>
        let last_activity := overall (assoc u (snd item)) in
        exists n_commits n_issues n_prs shown status,
          row = [CStr u; CInt n_commits; CInt n_issues; CInt n_prs;
                 CStr shown; CStr status] /\
          (truthy_ts last_activity = false -> shown = "N/A" /\ status = "Inactive") /\
          (forall ts wall off,
             last_activity = Some ts -> ts <> "" ->
             fromisoformat (replace "Z" "+00:00" ts) = Ret (mk_datetime wall (Some off)) ->
             shown = ts /\
             (limit <= instant wall off -> status = "Active") /\
             (instant wall off < limit -> status = "Inactive")) /\
          (forall y m d hh mm ss,
             valid_civil y m d hh mm ss ->
             last_activity = Some (iso_utc y m d hh mm ss) ->
             status = if (limit <=? civil_us y m d hh mm ss)%Z
                      then "Active" else "Inactive"))
        (sorted all_users) (snd b))
      repo_data blocks.
Proof.
  intros Hv Hr limit.
  destruct (save_to_csv_total _ _ _ _ Hv Hr) as [rows Hrows].
  destruct (save_to_csv_inv _ _ _ _ _ Hrows) as (_ & blocks & -> & HF).
  exists blocks. split; [exact Hrows|].
  eapply Forall2_impl; [exact HF|]. intros item b [Hname Hb].
  split; [exact Hname|]. unfold user_rows in Hb. apply mapR_Forall2 in Hb.
  eapply Forall2_impl; [exact Hb|]. intros u row Hrow.
  exact (user_row_status now_us threshold_days (snd item) u row Hrow).
Qed.

Lemma status_classification_witness :
  let limit := march_first_2024 - 60 * 86400 * 1000000 in
  exists blocks,
    save_to_csv march_first_2024 60 [("api", repo_boundary)] roster_boundary
    = Ret (report blocks) /\
    Forall2 (fun (item : string * dict summary) (b : string * list (list cell)) =>
      fst b = fst item /\
      Forall2 (fun u row =>
        let last_activity := overall (assoc u (snd item)) in
        exists n_commits n_issues n_prs shown status,
          row = [CStr u; CInt n_commits; CInt n_issues; CInt n_prs;
                 CStr shown; CStr status] /\
          (truthy_ts last_activity = false -> shown = "N/A" /\ status = "Inactive") /\
          (forall ts wall off,
             last_activity = Some ts -> ts <> "" ->
             fromisoformat (replace "Z" "+00:00" ts) = Ret (mk_datetime wall (Some off)) ->
             shown = ts /\
             (limit <= instant wall off -> status = "Active") /\
             (instant wall off < limit -> status = "Inactive")) /\
          (forall y m d hh mm ss,
             valid_civil y m d hh mm ss ->
             last_activity = Some (iso_utc y m d hh mm ss) ->
             status = if (limit <=? civil_us y m d hh mm ss)%Z
                      then "Active" else "Inactive"))
        (sorted roster_boundary) (snd b))
      [("api", repo_boundary)] blocks.
Proof.
  apply (status_classification march_first_2024 60 [("api", repo_boundary)]
           roster_boundary).
  - vm_compute. intuition discriminate.
  - intros name activity u [Heq | []] Hu. injection Heq as <- <-.
    unfold roster_boundary in Hu.
    apply elem_of_union in Hu as [Hu | Hu];
      [apply elem_of_union in Hu as [Hu | Hu]|];
      apply elem_of_singleton in Hu; subst u.
    + right. eexists _, _, _. split; reflexivity.
    + right. eexists _, _, _. split; reflexivity.
    + left. reflexivity.
Defined.

(** The examples of the specification, in the report: threshold 60
    days, now 2024-03-01T00:00:00Z; alice was last active exactly 60
    days before, bob 61 days before, carol never. *)
Example report_at_the_boundary :
  save_to_csv march_first_2024 60 [("api", repo_boundary)] roster_boundary
  = Ret [title_row "api"; header;
         [CStr "alice"; CInt 1; CInt 0; CInt 0; CStr "2024-01-01T00:00:00Z";
          CStr "Active"];
         [CStr "bob"; CInt 0; CInt 1; CInt 0; CStr "2023-12-31T00:00:00Z";
          CStr "Inactive"];
         silent_row "carol";
         []].
Proof. reflexivity. Qed.

(** One microsecond later alice is past the cutoff. *)
Example report_one_microsecond_late :
  save_to_csv (march_first_2024 + 1) 60
    [("api", [("alice", mk_summary 1 0 0 (Some "2024-01-01T00:00:00Z") None None)])]
    {[ "alice" ]}
  = Ret [title_row "api"; header;
         [CStr "alice"; CInt 1; CInt 0; CInt 0; CStr "2024-01-01T00:00:00Z";
          CStr "Inactive"];
         []].
Proof. reflexivity. Qed.

(** The cutoff may be [datetime.min] itself, 738945 days before
    2024-03-01, but not a day earlier. *)
Example cutoff_at_datetime_min :
  utc_cutoff march_first_2024 738945 = Ret (mk_datetime datetime_min_us (Some 0)).
Proof. reflexivity. Qed.

Example cutoff_before_datetime_min :
  utc_cutoff march_first_2024 738946 = Raise OverflowError.
Proof. reflexivity. Qed.

(** A threshold of a million days puts the cutoff before the year 1:
    line 296 raises and nothing is written. *)
Example report_cutoff_overflow :
  save_to_csv march_first_2024 1000000 [("api", repo_example)] roster
  = Raise OverflowError.
Proof. reflexivity. Qed.

(** The rows of the example: alice with her three commits, bob silent,
    and nothing for carol, who is not a member. *)
Example rows_of_example :
  user_rows (cutoff_of march_first_2024 60) repo_example roster
  = Ret [[CStr "alice"; CInt 3; CInt 0; CInt 0; CStr "2024-02-03T10:00:00Z";
          CStr "Active"];
         silent_row "bob"].
Proof. reflexivity. Qed.

(** * Further properties *)

(** ** [run_query]: budget, recovery, pauses *)

Lemma attempt_body_effects (net : network) (req : request) (max_attempts attempt : nat)
    (w : world) :
  exists s pause,
    attempt_body net req max_attempts attempt w
    = (Ret s, mk_world (S (posts w)) (slept w ++ pause)) /\
    (length pause <= 1)%nat.
Proof.
  run_M. destruct (net (posts w) req) as [r | e]; simpl.
  - destruct (status_code r =? 200)%Z.
    + unfold response_json. destruct (body r) as [j|]; simpl.
      * unfold getitem. destruct j as [ | | | | | o]; simpl;
          try destruct (assoc "data" o); simpl;
          destruct (attempt <? max_attempts - 1)%nat; simpl;
          first [ now (eexists; exists []; rewrite app_nil_r; split; [reflexivity | simpl; lia])
                | now (eexists; eexists [_]; split; [reflexivity | simpl; lia]) ].
      * destruct (attempt <? max_attempts - 1)%nat; simpl;
          first [ now (eexists; exists []; rewrite app_nil_r; split; [reflexivity | simpl; lia])
                | now (eexists; eexists [_]; split; [reflexivity | simpl; lia]) ].
    + destruct (status_code r =? 403)%Z;
        [now (eexists; eexists [_]; split; [reflexivity | simpl; lia])|].
      destruct (attempt <? max_attempts - 1)%nat; simpl;
        first [ now (eexists; exists []; rewrite app_nil_r; split; [reflexivity | simpl; lia])
              | now (eexists; eexists [_]; split; [reflexivity | simpl; lia]) ].
  - destruct (is_network_error e), (attempt <? max_attempts - 1)%nat; simpl;
      first [ now (eexists; exists []; rewrite app_nil_r; split; [reflexivity | simpl; lia])
            | now (eexists; eexists [_]; split; [reflexivity | simpl; lia]) ].
Qed.

Lemma run_query_from_budget (net : network) (req : request) (max_attempts : nat)
    (attempts : list nat) :
  forall w, exists v pauses used,
    run_query_from net req max_attempts attempts w
    = (Ret v, mk_world (posts w + used) (slept w ++ pauses)) /\
    (used <= length attempts)%nat /\ (length pauses <= used)%nat.
Proof.
  induction attempts as [|a rest IH]; intros w; simpl.
  - exists JNull, [], 0%nat. unfold ret. rewrite Nat.add_0_r, app_nil_r.
    destruct w. simpl. repeat split; lia.
  - destruct (attempt_body_effects net req max_attempts a w) as (s & p & E & Hp).
    unfold bind at 1. rewrite E. destruct s as [v|].
    + exists v, p, 1%nat. unfold ret. simpl. rewrite Nat.add_1_r.
      repeat split; lia.
    + destruct (IH (mk_world (S (posts w)) (slept w ++ p))) as (v & ps & used & E' & H1 & H2).
      exists v, (p ++ ps), (S used). rewrite E'. simpl. rewrite <- app_assoc.
      replace (S (posts w + used)) with (posts w + S used)%nat by lia.
      rewrite length_app. repeat split; lia.
Qed.

(** X1.  Whatever the server does, [run_query] issues at most
    [max_attempts] POSTs and makes at most one pause per POST; with a
    budget of zero it returns [None] without any POST. *)
Theorem run_query_within_budget (net : network) (q : query)
    (variables : list (string * json)) (max_attempts : nat) (w : world) :
  exists v pauses used,
    run_query net q variables max_attempts w
    = (Ret v, mk_world (posts w + used) (slept w ++ pauses)) /\
    (used <= max_attempts)%nat /\ (length pauses <= used)%nat /\
    ((0 < max_attempts)%nat \/ v = JNull).
Proof.
  unfold run_query.
  destruct (run_query_from_budget net (mk_request q variables) max_attempts
              (seq 0 max_attempts) w) as (v & ps & used & E & H1 & H2).
  rewrite length_seq in H1. exists v, ps, used.
  split; [exact E|]. split; [exact H1|]. split; [exact H2|].
  destruct max_attempts as [|n]; [right | left; lia].
  simpl in E. unfold ret in E. now injection E.
Qed.

Lemma attempt_body_failed_pause (net : network) (req : request)
    (max_attempts attempt : nat) (w : world) :
  payload (net (posts w) req) = None ->
  exists s,
    attempt_body net req max_attempts attempt w
    = (Ret s, mk_world (S (posts w))
                (slept w ++ failure_pause max_attempts attempt (net (posts w) req))) /\
    ((attempt < max_attempts - 1)%nat -> s = Next) /\
    (s = Next \/ s = Return JNull).
Proof.
  unfold payload, failure_pause. run_M. destruct (net (posts w) req) as [r | e]; simpl.
  - destruct (status_code r =? 200)%Z eqn:E200.
    + apply Z.eqb_eq in E200. rewrite E200. simpl.
      destruct (rbind (response_json r) _) as [d' | e | ] eqn:E; try discriminate.
      * intros _. destruct (Nat.ltb_spec attempt (max_attempts - 1)).
        -- destruct (is_network_error e) eqn:En.
           ++ exfalso. unfold response_json in E. destruct (body r) as [j|]; simpl in E.
              ** unfold getitem in E. destruct j as [ | | | | | o];
                   try (injection E as <-; discriminate).
                 destruct (assoc "data" o); [discriminate|].
                 injection E as <-. discriminate.
              ** injection E as <-. discriminate.
           ++ simpl. eexists. split; [reflexivity|]. split; auto.
        -- destruct (is_network_error e); simpl; rewrite ?app_nil_r;
             (eexists; split; [reflexivity|]; split; [lia | auto]).
      * exfalso. unfold response_json in E. destruct (body r) as [j|]; simpl in E;
          [|discriminate]. unfold getitem in E.
        destruct j as [ | | | | | o]; try discriminate.
        destruct (assoc "data" o); discriminate.
    + intros _. destruct (status_code r =? 403)%Z.
      * eexists. split; [reflexivity|]. split; auto.
      * destruct (Nat.ltb_spec attempt (max_attempts - 1)); simpl; rewrite ?app_nil_r;
          (eexists; split; [reflexivity|]; split; [first [lia | auto] | auto]).
  - intros _. destruct (Nat.ltb_spec attempt (max_attempts - 1)).
    + destruct (is_network_error e); simpl;
        (eexists; split; [reflexivity|]; split; auto).
    + destruct (is_network_error e); simpl; rewrite ?app_nil_r;
        (eexists; split; [reflexivity|]; split; [lia | auto]).
Qed.

Lemma run_query_from_all_fail (net : network) (req : request) (max_attempts : nat) :
  forall (count first : nat) (w : world),
    (first + count = max_attempts)%nat ->
    (forall i, (i < count)%nat -> payload (net (posts w + i)%nat req) = None) ->
    run_query_from net req max_attempts (seq first count) w
    = (Ret JNull,
       mk_world (posts w + count)
                (slept w ++ failure_pauses net req max_attempts (posts w) first count)).
Proof.
  induction count as [|c IH]; intros first w Hsum Hfail.
  - simpl. unfold ret. rewrite Nat.add_0_r, app_nil_r. now destruct w.
  - cbn [seq run_query_from failure_pauses].
    destruct (attempt_body_failed_pause net req max_attempts first w)
      as (s & E & Hnext & Hs).
    { specialize (Hfail 0%nat). rewrite Nat.add_0_r in Hfail. apply Hfail. lia. }
    unfold bind at 1. rewrite E.
    assert (Hrest : run_query_from net req max_attempts (seq (S first) c)
                      (mk_world (S (posts w))
                         (slept w ++ failure_pause max_attempts first (net (posts w) req)))
                    = (Ret JNull,
                       mk_world (posts w + S c)
                         (slept w ++ failure_pause max_attempts first (net (posts w) req)
                          ++ failure_pauses net req max_attempts (S (posts w)) (S first) c))).
    { rewrite IH; [|lia|].
      - simpl. rewrite <- app_assoc. do 2 f_equal. lia.
      - intros i Hi. simpl. replace (S (posts w + i)) with (posts w + S i)%nat by lia.
        apply Hfail. lia. }
    destruct Hs as [-> | ->]; [exact Hrest|].
    destruct c as [|c'].
    + unfold ret. simpl. rewrite app_nil_r. do 2 f_equal. lia.
    + assert (Return JNull = Next) by (apply Hnext; lia). discriminate.
Qed.

Lemma run_query_from_recovers (net : network) (req : request) (max_attempts : nat)
    (d : json) :
  forall (k count first : nat) (w : world),
    (first + count = max_attempts)%nat ->
    (k < count)%nat ->
    (forall i, (i < k)%nat -> payload (net (posts w + i)%nat req) = None) ->
    payload (net (posts w + k)%nat req) = Some d ->
    run_query_from net req max_attempts (seq first count) w
    = (Ret d,
       mk_world (posts w + k + 1)
                (slept w ++ failure_pauses net req max_attempts (posts w) first k)).
Proof.
  induction k as [|k IH]; intros count first w Hsum Hk Hfail Hok.
  - destruct count as [|c]; [lia|]. cbn [seq run_query_from failure_pauses].
    unfold bind at 1. rewrite Nat.add_0_r in Hok.
    rewrite (attempt_body_success net req max_attempts first w d Hok).
    unfold ret. rewrite app_nil_r. do 2 f_equal. lia.
  - destruct count as [|c]; [lia|]. cbn [seq run_query_from failure_pauses].
    destruct (attempt_body_failed_pause net req max_attempts first w)
      as (s & E & Hnext & _).
    { specialize (Hfail 0%nat). rewrite Nat.add_0_r in Hfail. apply Hfail. lia. }
    unfold bind at 1. rewrite E. rewrite (Hnext ltac:(lia)).
    rewrite (IH c (S first)); [| lia | lia | |].
    + simpl. rewrite <- app_assoc. do 2 f_equal. lia.
    + intros i Hi. simpl. replace (S (posts w + i)) with (posts w + S i)%nat by lia.
      apply Hfail. lia.
    + simpl. replace (S (posts w + k)) with (posts w + S k)%nat by lia. exact Hok.
Qed.

(** X2.  Transient failures are absorbed: when the first [k] attempts
    fail in any way (any status but 200, a body that is not JSON or
    lacks ["data"], any exception of the POST) and the next one
    succeeds, with [k < max_attempts], [run_query] returns the data of
    the successful response after exactly [k + 1] POSTs and the pauses
    of the [k] failures. *)
Theorem run_query_recovers (net : network) (q : query)
    (variables : list (string * json)) (max_attempts k : nat) (w : world) (d : json) :
  (k < max_attempts)%nat ->
  (forall i, (i < k)%nat ->
     payload (net (posts w + i)%nat (mk_request q variables)) = None) ->
  payload (net (posts w + k)%nat (mk_request q variables)) = Some d ->
  run_query net q variables max_attempts w
  = (Ret d,
     mk_world (posts w + k + 1)
       (slept w ++ failure_pauses net (mk_request q variables) max_attempts
                     (posts w) 0 k)).
Proof.
  intros Hk Hfail Hok. unfold run_query.
  now apply run_query_from_recovers.
Qed.

Lemma run_query_recovers_witness :
  run_query flaky QRepos (org_variables "acme" JNull) 3 w0
  = (Ret (JObj [("ok", JBool true)]), mk_world 3 [5; 10]).
Proof.
  apply (run_query_recovers flaky QRepos (org_variables "acme" JNull) 3 2 w0
           (JObj [("ok", JBool true)])).
  - lia.
  - intros i Hi. destruct i as [|[|i]]; [reflexivity | reflexivity | lia].
  - reflexivity.
Defined.

Lemma failure_pauses_network (net : network) (req : request) (max_attempts : nat) :
  forall (count n first : nat),
    (first + count = max_attempts)%nat ->
    (forall i, (i < count)%nat ->
       exists e, net (n + i)%nat req = PostRaises e /\ is_network_error e = true) ->
    failure_pauses net req max_attempts n first count
    = map (fun i => 5 * 2 ^ Z.of_nat i) (seq first (count - 1)).
Proof.
  induction count as [|c IH]; intros n first Hsum Hnet; [reflexivity|].
  cbn [failure_pauses]. destruct (Hnet 0%nat ltac:(lia)) as (e & He & Hn).
  rewrite Nat.add_0_r in He. rewrite He. cbn [failure_pause]. rewrite Hn.
  rewrite IH; [|lia|].
  - destruct c as [|c'].
    + destruct (Nat.ltb_spec first (max_attempts - 1)); [lia | reflexivity].
    + destruct (Nat.ltb_spec first (max_attempts - 1)); [|lia].
      simpl. now rewrite Nat.sub_0_r.
  - intros i Hi. replace (S n + i)%nat with (n + S i)%nat by lia. apply Hnet. lia.
Qed.

Lemma failure_pauses_status (net : network) (req : request) (max_attempts : nat) :
  forall (count n first : nat),
    (first + count = max_attempts)%nat ->
    (forall i, (i < count)%nat ->
       exists r, net (n + i)%nat req = Responds r /\
                 status_code r <> 200 /\ status_code r <> 403) ->
    failure_pauses net req max_attempts n first count
    = map (fun i => 5 * (Z.of_nat i + 1)) (seq first (count - 1)).
Proof.
  induction count as [|c IH]; intros n first Hsum Hnet; [reflexivity|].
  cbn [failure_pauses]. destruct (Hnet 0%nat ltac:(lia)) as (r & Hr & H200 & H403).
  rewrite Nat.add_0_r in Hr. rewrite Hr. cbn [failure_pause].
  destruct (Z.eqb_spec (status_code r) 403); [contradiction|].
  rewrite IH; [|lia|].
  - destruct c as [|c'].
    + destruct (Nat.ltb_spec first (max_attempts - 1)); [lia | reflexivity].
    + destruct (Nat.ltb_spec first (max_attempts - 1)); [|lia].
      simpl. now rewrite Nat.sub_0_r.
  - intros i Hi. replace (S n + i)%nat with (n + S i)%nat by lia. apply Hnet. lia.
Qed.

(** X3.  When every attempt of the budget ends in a connection error or
    a timeout, [run_query] returns [None] after exactly [max_attempts]
    POSTs, pausing 5, 10, 20, ... seconds ([5 * 2 ** attempt]) between
    consecutive attempts and not at all after the last one. *)
Theorem run_query_network_backoff (net : network) (q : query)
    (variables : list (string * json)) (max_attempts : nat) (w : world) :
  (forall i, (i < max_attempts)%nat ->
     exists e, net (posts w + i)%nat (mk_request q variables) = PostRaises e /\
               is_network_error e = true) ->
  run_query net q variables max_attempts w
  = (Ret JNull,
     mk_world (posts w + max_attempts)
       (slept w ++ map (fun i => 5 * 2 ^ Z.of_nat i) (seq 0 (max_attempts - 1)))).
Proof.
  intros Hnet. unfold run_query.
  rewrite run_query_from_all_fail; [|lia|].
  - now rewrite (failure_pauses_network net _ max_attempts max_attempts (posts w) 0).
  - intros i Hi. destruct (Hnet i Hi) as (e & -> & _). reflexivity.
Qed.

Lemma run_query_network_backoff_witness :
  run_query always_down QRepos (org_variables "acme" JNull) 4 w0
  = (Ret JNull, mk_world 4 [5; 10; 20]).
Proof.
  apply (run_query_network_backoff always_down QRepos (org_variables "acme" JNull) 4 w0).
  intros i _. exists ConnectionError. split; reflexivity.
Defined.

(** X4.  When every attempt of the budget is answered with a status
    other than 200 and 403, [run_query] returns [None] after exactly
    [max_attempts] POSTs, pausing 5, 10, 15, ... seconds
    ([5 * (attempt + 1)]) between consecutive attempts and not at all
    after the last one; the exception built on the last attempt does not
    leave the function. *)
Theorem run_query_status_backoff (net : network) (q : query)
    (variables : list (string * json)) (max_attempts : nat) (w : world) :
  (forall i, (i < max_attempts)%nat ->
     exists r, net (posts w + i)%nat (mk_request q variables) = Responds r /\
               status_code r <> 200 /\ status_code r <> 403) ->
  run_query net q variables max_attempts w
  = (Ret JNull,
     mk_world (posts w + max_attempts)
       (slept w ++ map (fun i => 5 * (Z.of_nat i + 1)) (seq 0 (max_attempts - 1)))).
Proof.
  intros Hnet. unfold run_query.
  rewrite run_query_from_all_fail; [|lia|].
  - now rewrite (failure_pauses_status net _ max_attempts max_attempts (posts w) 0).
  - intros i Hi. destruct (Hnet i Hi) as (r & -> & H200 & _). unfold payload.
    now destruct (Z.eqb_spec (status_code r) 200).
Qed.

Lemma run_query_status_backoff_witness :
  run_query overloaded QRepos (org_variables "acme" JNull) 3 w0
  = (Ret JNull, mk_world 3 [5; 10]).
Proof.
  apply (run_query_status_backoff overloaded QRepos (org_variables "acme" JNull) 3 w0).
  intros i _. exists (mk_response 500 None). repeat split; discriminate.
Defined.

(** ** Pagination: pacing, partial results, endless feeds *)

Lemma run_query_fails (net : network) (q : query) (variables : list (string * json))
    (w : world) :
  (forall i, (i < 3)%nat ->
     payload (net (posts w + i)%nat (mk_request q variables)) = None) ->
  exists pauses,
    run_query net q variables 3 w = (Ret JNull, mk_world (posts w + 3) (slept w ++ pauses)).
Proof.
  intros Hfail. unfold run_query. rewrite run_query_from_all_fail; [eauto | lia | exact Hfail].
Qed.

Lemma last_nonempty_default {A : Type} (x : A) (l : list A) (d d' : A) :
  List.last (x :: l) d = List.last (x :: l) d'.
Proof.
  revert x. induction l as [|y l IH]; intros x; [reflexivity|].
  cbn [List.last]. apply IH.
Qed.

Lemma get_all_repos_loop_prefix (net : network) (org : string) :
  forall (pages : list (list json * json)) (fuel : nat) (repos : list json)
         (cursor : json) (w : world),
    serves_on net (repos_request org) repos_page (posts w) cursor pages ->
    get_all_repos_loop net org (length pages + fuel) repos cursor w
    = get_all_repos_loop net org fuel (repos ++ items_of pages)
        (end_cursor cursor pages)
        (mk_world (posts w + length pages)
                  (slept w ++ repeat RATE_DELAY (length pages))).
Proof.
  induction pages as [|[items next] rest IH]; intros fuel repos cursor w Hs.
  - unfold items_of, end_cursor. simpl. rewrite !app_nil_r, Nat.add_0_r. now destruct w.
  - destruct Hs as [Hnet Hrest].
    cbn [length Nat.add get_all_repos_loop]. unfold bind at 1.
    rewrite (run_query_ok net QRepos _ w _ _ Hnet eq_refl).
    unfold bind, lift, ret, sleep. cbn -[get_all_repos_loop repeat].
    rewrite mapR_named. cbn -[get_all_repos_loop repeat].
    rewrite IH by exact Hrest.
    unfold items_of, end_cursor. cbn [map fst snd concat posts slept].
    f_equal.
    + now rewrite <- app_assoc.
    + destruct (map snd rest) as [|c l]; [reflexivity|]. apply last_nonempty_default.
    + f_equal; [lia|]. now rewrite <- app_assoc.
Qed.

(** X5.  Pacing of a full collection: for a repository feed served in
    [n] pages, [get_all_repos] issues exactly [n] POSTs and sleeps
    [RATE_DELAY] = 3 seconds exactly [n - 1] times, once between
    consecutive pages and not after the last. *)
Theorem get_all_repos_pacing (net : network) (org : string)
    (pages : list (list json * json)) (fuel : nat) (w : world) :
  pages <> [] ->
  serves net (repos_request org) repos_page (posts w) JNull pages ->
  (length pages <= fuel)%nat ->
  snd (get_all_repos net org fuel w)
  = mk_world (posts w + length pages) (slept w ++ repeat 3 (length pages - 1)).
Proof.
  intros Hne Hs Hfuel. unfold get_all_repos.
  now rewrite (get_all_repos_loop_pages net org pages fuel [] JNull w Hne Hs Hfuel).
Qed.

Lemma get_all_repos_pacing_witness :
  snd (get_all_repos three_pages "acme" 3 w0) = mk_world 3 [3; 3].
Proof.
  apply (get_all_repos_pacing three_pages "acme"
           [([JStr "api"], JStr "c1"); ([JStr "web"], JStr "c2"); ([JStr "docs"], JNull)]
           3 w0).
  - discriminate.
  - simpl. repeat split; reflexivity.
  - simpl. lia.
Defined.

(** X6.  Partial results: when the first pages of the repository feed
    are served, each announcing a next page, and the query for the page
    after them fails on all three attempts, [get_all_repos] returns
    exactly the items of the pages served, in order, without raising. *)
Theorem get_all_repos_partial (net : network) (org : string)
    (pages : list (list json * json)) (fuel : nat) (w : world) :
  serves_on net (repos_request org) repos_page (posts w) JNull pages ->
  (forall i, (i < 3)%nat ->
     payload (net (posts w + length pages + i)%nat
                  (repos_request org (end_cursor JNull pages))) = None) ->
  (length pages < fuel)%nat ->
  fst (get_all_repos net org fuel w) = Ret (items_of pages).
Proof.
  intros Hs Hfail Hfuel. unfold get_all_repos.
  replace fuel with (length pages + S (fuel - S (length pages)))%nat by lia.
  rewrite (get_all_repos_loop_prefix net org pages _ [] JNull w Hs).
  destruct (run_query_fails net QRepos (org_variables org (end_cursor JNull pages))
              (mk_world (posts w + length pages)
                        (slept w ++ repeat RATE_DELAY (length pages))) Hfail)
    as [pauses E].
  rewrite (get_all_repos_loop_stops net org _ _ _ JNull _ _ E eq_refl). reflexivity.
Qed.

Lemma get_all_repos_partial_witness :
  fst (get_all_repos cut_off "acme" 5 w0) = Ret [JStr "api"; JStr "web"].
Proof.
  apply (get_all_repos_partial cut_off "acme" [([JStr "api"; JStr "web"], JStr "c1")] 5 w0).
  - simpl. split; [reflexivity | exact I].
  - intros i _. reflexivity.
  - simpl. lia.
Defined.

Lemma get_all_repos_loop_endless (net : network) (org : string) :
  (forall n cursor, exists items next,
     net n (repos_request org cursor) = ok (repos_page items true next)) ->
  forall (fuel : nat) (repos : list json) (cursor : json) (w : world),
    exists w', get_all_repos_loop net org fuel repos cursor w = (OutOfFuel, w') /\
               posts w' = (posts w + fuel)%nat.
Proof.
  intros Hnet. induction fuel as [|fuel IH]; intros repos cursor w.
  - exists w. split; [reflexivity | lia].
  - destruct (Hnet (posts w) cursor) as (items & next & E).
    cbn [get_all_repos_loop]. unfold bind at 1.
    rewrite (run_query_ok net QRepos _ w _ _ E eq_refl).
    unfold bind, lift, ret, sleep. cbn -[get_all_repos_loop].
    rewrite mapR_named. cbn -[get_all_repos_loop].
    destruct (IH (repos ++ items) next (mk_world (S (posts w)) (slept w ++ [RATE_DELAY])))
      as (w' & E' & Hw').
    exists w'. split; [exact E'|]. rewrite Hw'. simpl. lia.
Qed.

(** X7.  No client-side page cap: against a server whose every page
    announces a next one, [get_all_repos] never returns; whatever the
    number of iterations allowed, it uses them all, issuing one POST
    per iteration. *)
Theorem get_all_repos_endless (net : network) (org : string) (fuel : nat) (w : world) :
  (forall n cursor, exists items next,
     net n (repos_request org cursor) = ok (repos_page items true next)) ->
  fst (get_all_repos net org fuel w) = OutOfFuel /\
  posts (snd (get_all_repos net org fuel w)) = (posts w + fuel)%nat.
Proof.
  intros Hnet. unfold get_all_repos.
  destruct (get_all_repos_loop_endless net org Hnet fuel [] JNull w) as (w' & -> & Hw').
  split; [reflexivity | exact Hw'].
Qed.

Lemma get_all_repos_endless_witness :
  fst (get_all_repos endless "acme" 100 w0) = OutOfFuel /\
  posts (snd (get_all_repos endless "acme" 100 w0)) = (posts w0 + 100)%nat.
Proof.
  apply (get_all_repos_endless endless "acme" 100 w0).
  intros n cursor. eexists _, _. reflexivity.
Defined.

(** ** Members and branches *)

Lemma mapR_member_json (logins : list string) :
  mapR (fun user => let* l := getitem user "login" in as_str l) (map member_json logins)
  = Ret logins.
Proof.
  induction logins as [|l logins IH]; [reflexivity|].
  cbn [map mapR]. rewrite IH. reflexivity.
Qed.

Lemma get_all_org_members_loop_pages (net : network) (org : string) :
  forall (pages : list (list string * json)) (fuel : nat) (users : gset string)
         (cursor : json) (w : world),
    pages <> [] ->
    serves net (members_request org) members_page (posts w) cursor
           (encode_logins pages) ->
    (length pages <= fuel)%nat ->
    fst (get_all_org_members_loop net org fuel users cursor w)
    = Ret (users ∪ list_to_set (concat (map fst pages))).
Proof.
  induction pages as [|[logins next] rest IH]; intros fuel users cursor w Hne Hs Hfuel;
    [congruence|].
  destruct fuel as [|fuel]; [simpl in Hfuel; lia|].
  destruct Hs as [Hnet Hrest].
  cbn [get_all_org_members_loop]. unfold bind at 1.
  rewrite (run_query_ok net QMembers _ w _ _ Hnet eq_refl).
  unfold bind, lift, ret, sleep. cbn -[get_all_org_members_loop mapR union list_to_set].
  rewrite mapR_member_json. cbn -[get_all_org_members_loop union list_to_set].
  destruct rest as [|p rest'].
  - cbn -[union list_to_set]. now rewrite app_nil_r.
  - cbn -[get_all_org_members_loop union list_to_set length].
    rewrite IH; [|discriminate|exact Hrest|simpl in *; lia].
    f_equal. cbn [map fst concat]. rewrite (list_to_set_app_L logins).
    now rewrite (assoc_L (∪)).
Qed.

(** X8.  For a member feed served in pages, [get_all_org_members]
    returns exactly the set of the logins on the pages: a login is in
    the roster if and only if it occurs on some page, however often it
    occurs. *)
Theorem get_all_org_members_collects (net : network) (org : string)
    (pages : list (list string * json)) (fuel : nat) (w : world) :
  pages <> [] ->
  serves net (members_request org) members_page (posts w) JNull (encode_logins pages) ->
  (length pages <= fuel)%nat ->
  exists users : gset string,
    fst (get_all_org_members net org fuel w) = Ret users /\
    forall login, login ∈ users <-> login ∈ concat (map fst pages).
Proof.
  intros Hne Hs Hfuel. exists (list_to_set (concat (map fst pages))). split.
  - unfold get_all_org_members.
    rewrite (get_all_org_members_loop_pages net org pages fuel ∅ JNull w Hne Hs Hfuel).
    now rewrite (left_id_L ∅ (∪)).
  - intros login. apply elem_of_list_to_set.
Qed.

Lemma get_all_org_members_collects_witness :
  exists users : gset string,
    fst (get_all_org_members two_member_pages "acme" 2 w0) = Ret users /\
    forall login,
      login ∈ users <-> login ∈ concat (map fst [(["alice"; "bob"], JStr "m1");
                                                   (["bob"; "carol"], JNull)]).
Proof.
  apply (get_all_org_members_collects two_member_pages "acme"
           [(["alice"; "bob"], JStr "m1"); (["bob"; "carol"], JNull)] 2 w0).
  - discriminate.
  - simpl. repeat split; reflexivity.
  - simpl. lia.
Defined.

(** X9.  When the branch feed holds at least one branch,
    [get_branches] returns exactly the branches served, in order: the
    fallback entry is not added. *)
Theorem get_branches_served (net : network) (org repo : string)
    (pages : list (list json * json)) (fuel : nat) (w : world) :
  pages <> [] ->
  serves net (branches_request org repo) branches_page (posts w) JNull pages ->
  (length pages <= fuel)%nat ->
  items_of pages <> [] ->
  fst (get_branches net org repo fuel w) = Ret (items_of pages).
Proof.
  intros Hne Hs Hfuel Hsome. unfold get_branches, bind.
  rewrite (get_branches_loop_pages net org repo pages fuel [] JNull w Hne Hs Hfuel).
  unfold ret. simpl. now destruct (items_of pages).
Qed.

Lemma get_branches_served_witness :
  fst (get_branches two_branches "acme" "api" 1 w0) = Ret [JStr "main"; JStr "dev"].
Proof.
  apply (get_branches_served two_branches "acme" "api"
           [([JStr "main"; JStr "dev"], JNull)] 1 w0).
  - discriminate.
  - simpl. split; [reflexivity | exact I].
  - simpl. lia.
  - discriminate.
Defined.

(** X10.  When the first branch query fails on all three attempts,
    [get_branches] answers as for a repository without branches: it
    returns the single entry ["main"], after three POSTs. *)
Theorem get_branches_failure_fallback (net : network) (org repo : string)
    (fuel : nat) (w : world) :
  (forall i, (i < 3)%nat ->
     payload (net (posts w + i)%nat (branches_request org repo JNull)) = None) ->
  fst (get_branches net org repo (S fuel) w) = Ret [JStr "main"] /\
  posts (snd (get_branches net org repo (S fuel) w)) = (posts w + 3)%nat.
Proof.
  intros Hfail.
  destruct (run_query_fails net QBranches (repo_variables org repo JNull) w Hfail)
    as [pauses E].
  assert (H : get_branches net org repo (S fuel) w
              = (Ret [JStr "main"], mk_world (posts w + 3) (slept w ++ pauses))).
  { unfold get_branches. cbn [get_branches_loop]. unfold bind at 1 2. now rewrite E. }
  rewrite H. split; reflexivity.
Qed.

Lemma get_branches_failure_fallback_witness :
  fst (get_branches always_down "acme" "api" 1 w0) = Ret [JStr "main"] /\
  posts (snd (get_branches always_down "acme" "api" 1 w0)) = (posts w0 + 3)%nat.
Proof.
  apply (get_branches_failure_fallback always_down "acme" "api" 0 w0).
  intros i _. reflexivity.
Defined.

(** ** Activity feeds *)

(** X11.  For a commit feed served in pages, [get_commit_activity]
    returns a map in which every login has exactly the commits
    attributed to it: an entry exists if and only if some commit on the
    pages has a user with that login, it counts those commits and its
    last timestamp is their maximum; commits without a user are
    dropped. *)
Theorem get_commit_activity_served (net : network) (org repo branch : string)
    (pages : list (list item * json)) (fuel : nat) (w : world) :
  pages <> [] ->
  serves net (commits_request org repo branch) commits_page (posts w) JNull
         (encode_pages edge_json pages) ->
  (length pages <= fuel)%nat ->
  exists m,
    fst (get_commit_activity net org repo branch fuel w) = Ret m /\
    forall login,
      tracks (assoc login m)
             (events_of login (concat (kept_pages attributed_commit pages))).
Proof.
  intros Hne Hs Hfuel. exists (collect (kept_pages attributed_commit pages)). split.
  - now apply get_commit_activity_collect.
  - intros login. apply collect_tracks.
Qed.

Lemma get_commit_activity_served_witness :
  exists m,
    fst (get_commit_activity commit_feed_example "acme" "api" "main" 1 w0) = Ret m /\
    forall login,
      tracks (assoc login m)
             (events_of login
                (concat (kept_pages attributed_commit [(scenario_history, JNull)]))).
Proof.
  apply (get_commit_activity_served commit_feed_example "acme" "api" "main"
           [(scenario_history, JNull)] 1 w0).
  - discriminate.
  - simpl. split; [reflexivity | exact I].
  - simpl. lia.
Defined.

(** X12.  For an issue feed, and likewise a pull-request feed, served
    in pages, the collector returns a map in which every login has
    exactly the records whose author has that login, provided it is not
    empty: records without author or with an empty login are dropped,
    the others are counted once, and the last timestamp is their
    maximum. *)
Theorem created_activity_served (net : network) (org repo : string)
    (pages : list (list item * json)) (fuel : nat) (w : world) :
  pages <> [] ->
  (length pages <= fuel)%nat ->
  (serves net (issues_request org repo) (created_page "issues") (posts w) JNull
          (encode_pages created_json pages) ->
   exists m,
     fst (get_issue_activity net org repo fuel w) = Ret m /\
     forall login,
       tracks (assoc login m)
              (events_of login (concat (kept_pages attributed_created pages)))) /\
  (serves net (prs_request org repo) (created_page "pullRequests") (posts w) JNull
          (encode_pages created_json pages) ->
   exists m,
     fst (get_pr_activity net org repo fuel w) = Ret m /\
     forall login,
       tracks (assoc login m)
              (events_of login (concat (kept_pages attributed_created pages)))).
Proof.
  intros Hne Hfuel. split; intros Hs;
    exists (collect (kept_pages attributed_created pages)); split;
    try (intros login; apply collect_tracks).
  - now apply get_issue_activity_collect.
  - now apply get_pr_activity_collect.
Qed.

Lemma created_activity_served_witness :
  exists m,
    fst (get_issue_activity issue_feed_example "acme" "api" 1 w0) = Ret m /\
    forall login,
      tracks (assoc login m)
             (events_of login
                (concat (kept_pages attributed_created [(issue_items, JNull)]))).
Proof.
  destruct (created_activity_served issue_feed_example "acme" "api"
              [(issue_items, JNull)] 1 w0) as [H _].
  - discriminate.
  - simpl. lia.
  - apply H. simpl. split; [reflexivity | exact I].
Defined.

(** X13.  Nothing to read for a branch is not an error: when the first
    answer to the commit query has no data, a null repository, a null
    ref, a null target or a target that is not a commit,
    [get_commit_activity] returns the empty map after that single POST,
    without pausing. *)
Theorem get_commit_activity_nothing (net : network) (org repo branch : string)
    (fuel : nat) (w : world) (d : json) :
  In d nothing_to_read ->
  net (posts w) (commits_request org repo branch JNull) = ok (JObj [("data", d)]) ->
  get_commit_activity net org repo branch (S fuel) w
  = (Ret [], mk_world (S (posts w)) (slept w)).
Proof.
  intros Hd Hnet. unfold get_commit_activity. cbn [get_commit_activity_loop].
  unfold bind at 1. rewrite (run_query_ok net QCommits _ w _ d Hnet eq_refl).
  simpl in Hd.
  destruct Hd as [<- | [<- | [<- | [<- | [<- | []]]]]]; reflexivity.
Qed.

Lemma get_commit_activity_nothing_witness :
  get_commit_activity unknown_branch "acme" "api" "gone" 1 w0 = (Ret [], mk_world 1 []).
Proof.
  apply (get_commit_activity_nothing unknown_branch "acme" "api" "gone" 0 w0
           (JObj [("repository", JObj [("ref", JNull)])])).
  - simpl. auto.
  - reflexivity.
Defined.

(** X14.  The guards of [get_issue_activity] and [get_pr_activity] test
    only that the key ["repository"] is there: when the first answer
    carries a null repository, both raise [TypeError] on subscripting
    it. *)
Theorem created_activity_null_repository (net : network) (org repo : string)
    (fuel : nat) (w : world) :
  (net (posts w) (issues_request org repo JNull)
   = ok (JObj [("data", JObj [("repository", JNull)])]) ->
   fst (get_issue_activity net org repo (S fuel) w) = Raise TypeError) /\
  (net (posts w) (prs_request org repo JNull)
   = ok (JObj [("data", JObj [("repository", JNull)])]) ->
   fst (get_pr_activity net org repo (S fuel) w) = Raise TypeError).
Proof.
  split; intros Hnet.
  - unfold get_issue_activity. cbn [created_activity_loop]. unfold bind at 1.
    now rewrite (run_query_ok net QIssues _ w _ _ Hnet eq_refl).
  - unfold get_pr_activity. cbn [created_activity_loop]. unfold bind at 1.
    now rewrite (run_query_ok net QPRs _ w _ _ Hnet eq_refl).
Qed.

Lemma created_activity_null_repository_witness :
  fst (get_issue_activity unknown_repo "acme" "gone" 1 w0) = Raise TypeError.
Proof.
  destruct (created_activity_null_repository unknown_repo "acme" "gone" 0 w0) as [H _].
  apply H. reflexivity.
Defined.

(** ** Aggregation: isolation, order, conservation *)

(** X15.  A user's summary depends on that user's own records only:
    two runs in which the records of a login agree up to order, in each
    category, give that login the same summary (or none), whatever the
    records of the other users are and however the records are spread
    over branches and pages. *)
Theorem summary_of_own_records (branches branches' : list (list (list record)))
    (issue_pages issue_pages' pr_pages pr_pages' : list (list record))
    (login : string) :
  events_of login (concat (concat branches))
    ≡ₚ events_of login (concat (concat branches')) ->
  events_of login (concat issue_pages) ≡ₚ events_of login (concat issue_pages') ->
  events_of login (concat pr_pages) ≡ₚ events_of login (concat pr_pages') ->
  assoc login
    (aggregate (map collect branches) (collect issue_pages) (collect pr_pages))
  = assoc login
      (aggregate (map collect branches') (collect issue_pages') (collect pr_pages')).
Proof.
  intros Hc Hi Hp.
  eapply accounts_unique; [apply aggregate_accounts | apply aggregate_accounts |].
  intros c. destruct c; assumption.
Qed.

Lemma summary_of_own_records_witness :
  assoc "alice"
    (aggregate (map collect scenario_commits) (collect scenario_issues) (collect []))
  = assoc "alice"
      (aggregate
         (map collect [[[("alice", "2024-01-15T10:00:00Z"); ("dave", "2024-02-29T10:00:00Z")]];
                       [[("alice", "2024-02-03T10:00:00Z")];
                        [("alice", "2024-02-01T10:00:00Z")]]])
         (collect []) (collect [[("erin", "2024-02-02T10:00:00Z")]])).
Proof.
  apply (summary_of_own_records scenario_commits _ scenario_issues _ [] _ "alice").
  - exact (Permutation_rev ["2024-02-01T10:00:00Z"; "2024-02-03T10:00:00Z";
                            "2024-01-15T10:00:00Z"]).
  - reflexivity.
  - reflexivity.
Defined.

Lemma assoc_In {V : Type} (k : string) (v : V) (d : dict V) :
  assoc k d = Some v -> In (k, v) d.
Proof.
  induction d as [|[k' v'] d IH]; simpl; [discriminate|].
  destruct (String.eqb_spec k k') as [->|Hne].
  - intros [= ->]. now left.
  - intros H. right. auto.
Qed.

Lemma well_formed_last (feed : dict activity) (login : string) (data : activity) :
  well_formed feed -> assoc login feed = Some data ->
  exists t, last_event data = Some t.
Proof.
  intros Hwf H. apply assoc_In in H. unfold well_formed in Hwf.
  rewrite Forall_forall in Hwf. apply list_elem_of_In in H.
  destruct (Hwf _ H) as [_ Hl]. simpl in Hl.
  destruct (last_event data) as [t|]; [eauto | congruence].
Qed.

Lemma later_swap (x : option string) (a b : string) :
  later (later x (Some a)) (Some b) = later (later x (Some b)) (Some a).
Proof.
  rewrite <- !later_assoc. f_equal. rewrite !later_some. f_equal. apply py_max_comm.
Qed.

Lemma merged_swap (c : category) (prev : option summary) (d1 d2 : activity) (a b : string) :
  last_event d1 = Some a -> last_event d2 = Some b ->
  merged c (Some (merged c prev d1)) d2 = merged c (Some (merged c prev d2)) d1.
Proof.
  intros H1 H2. unfold merged. rewrite H1, H2.
  destruct c; simpl; f_equal; try lia; apply later_swap.
Qed.

(** X16.  The order in which two feeds of one category are merged does
    not matter: for maps with distinct keys whose entries have a last
    timestamp, as the collectors return them, merging the first and
    then the second gives every user the same summary as merging the
    second and then the first. *)
Theorem merge_into_order (c : category) (repo_activity : dict summary)
    (feed1 feed2 : dict activity) (login : string) :
  NoDup (map fst feed1) -> NoDup (map fst feed2) ->
  well_formed feed1 -> well_formed feed2 ->
  assoc login (merge_into c (merge_into c repo_activity feed1) feed2)
  = assoc login (merge_into c (merge_into c repo_activity feed2) feed1).
Proof.
  intros Hn1 Hn2 Hw1 Hw2.
  rewrite !assoc_merge_into by assumption.
  destruct (assoc login feed1) as [d1|] eqn:E1, (assoc login feed2) as [d2|] eqn:E2;
    try reflexivity.
  destruct (well_formed_last feed1 login d1 Hw1 E1) as [a Ha].
  destruct (well_formed_last feed2 login d2 Hw2 E2) as [b Hb].
  f_equal. symmetry. now apply (merged_swap c _ d2 d1 b a).
Qed.

Lemma merge_into_order_witness :
  assoc "alice" (merge_into Commits (merge_into Commits [] branch_main) branch_dev)
  = assoc "alice" (merge_into Commits (merge_into Commits [] branch_dev) branch_main).
Proof.
  apply (merge_into_order Commits [] branch_main branch_dev "alice").
  - apply NoDup_cons. split; [|apply NoDup_singleton].
    intros H. apply list_elem_of_singleton in H. discriminate.
  - apply NoDup_singleton.
  - repeat constructor; simpl; discriminate.
  - repeat constructor; simpl; discriminate.
Defined.

Lemma counter_merged_other (c c' : category) (prev : option summary) (data : activity) :
  category_eqb c' c = false ->
  counter c' (merged c prev data) = counter c' (from_option id new_summary prev) /\
  last_of c' (merged c prev data) = last_of c' (from_option id new_summary prev).
Proof.
  intros H. rewrite counter_merged, last_of_merged, H. split; reflexivity.
Qed.

(** X17.  Merging a feed of one category never touches the other two:
    for every user, the counters and last timestamps of the other
    categories are after the merge what they were before, zero and
    absent for a user the merge has just created. *)
Theorem merge_into_other_categories (c c' : category) (feed : dict activity)
    (repo_activity : dict summary) (login : string) :
  category_eqb c' c = false ->
  counter c' (from_option id new_summary (assoc login (merge_into c repo_activity feed)))
  = counter c' (from_option id new_summary (assoc login repo_activity)) /\
  last_of c' (from_option id new_summary (assoc login (merge_into c repo_activity feed)))
  = last_of c' (from_option id new_summary (assoc login repo_activity)).
Proof.
  intros Hc. unfold merge_into. revert repo_activity.
  induction feed as [|[k data] feed IH]; intros ra; [split; reflexivity|].
  cbn [fold_left]. destruct (IH (merge_user c ra (k, data))) as [H1 H2].
  rewrite H1, H2, merge_user_eq.
  destruct (String.eqb_spec k login) as [->|Hne].
  - rewrite assoc_dict_set_eq. cbn [from_option id].
    now apply counter_merged_other.
  - rewrite assoc_dict_set_ne by exact Hne. split; reflexivity.
Qed.

Lemma merge_into_other_categories_witness :
  counter Commits
    (from_option id new_summary
       (assoc "alice" (merge_into Issues (merge_into Commits [] branch_main) branch_dev)))
  = counter Commits
      (from_option id new_summary (assoc "alice" (merge_into Commits [] branch_main))) /\
  last_of Commits
    (from_option id new_summary
       (assoc "alice" (merge_into Issues (merge_into Commits [] branch_main) branch_dev)))
  = last_of Commits
      (from_option id new_summary (assoc "alice" (merge_into Commits [] branch_main))).
Proof.
  apply (merge_into_other_categories Issues Commits branch_dev
           (merge_into Commits [] branch_main) "alice").
  reflexivity.
Defined.

Section Totals.
Context {V : Type} (f : V -> nat).

Lemma total_dict_set (k : string) (v : V) (d : dict V) :
  (total f (dict_set k v d) + from_option f 0 (assoc k d) = total f d + f v)%nat.
Proof.
  unfold total. induction d as [|[k' v'] d IH]; simpl; [lia|].
  destruct (String.eqb_spec k k') as [->|Hne]; simpl; lia.
Qed.

End Totals.

Lemma total_observe (user_activity : dict activity) (login ts : string) :
  total n_events (observe user_activity login ts) = S (total n_events user_activity).
Proof.
  rewrite observe_eq.
  pose proof (total_dict_set n_events login (observed (assoc login user_activity) ts)
                user_activity) as H.
  unfold observed in *. destruct (assoc login user_activity); simpl in *; lia.
Qed.

Lemma total_fold_page (page : list record) :
  forall user_activity,
    total n_events (fold_page user_activity page)
    = (total n_events user_activity + length page)%nat.
Proof.
  unfold fold_page. induction page as [|r page IH]; intros ua; simpl; [lia|].
  rewrite IH, total_observe. lia.
Qed.

Lemma total_collect (pages : list (list record)) :
  total n_events (collect pages) = length (concat pages).
Proof.
  unfold collect. rewrite fold_left_concat.
  exact (total_fold_page (concat pages) []).
Qed.

Lemma total_merge_user (c c' : category) (repo_activity : dict summary)
    (item : string * activity) :
  total (counter c') (merge_user c repo_activity item)
  = (total (counter c') repo_activity
     + if category_eqb c' c then n_events (snd item) else 0)%nat.
Proof.
  destruct item as [user data]. rewrite merge_user_eq.
  pose proof (total_dict_set (counter c') user
                (merged c (assoc user repo_activity) data) repo_activity) as H.
  rewrite counter_merged in H. cbn [snd].
  destruct (assoc user repo_activity) as [s|]; cbn [from_option id] in H;
    destruct (category_eqb c' c); try lia.
  - destruct c'; simpl in *; lia.
  - destruct c'; simpl in *; lia.
Qed.

Lemma total_merge_into (c c' : category) (feed : dict activity) :
  forall repo_activity,
    total (counter c') (merge_into c repo_activity feed)
    = (total (counter c') repo_activity
       + if category_eqb c' c then total n_events feed else 0)%nat.
Proof.
  unfold merge_into. induction feed as [|item feed IH]; intros ra.
  - simpl. destruct (category_eqb c' c); unfold total; simpl; lia.
  - cbn [fold_left]. rewrite IH, total_merge_user.
    destruct (category_eqb c' c); unfold total; simpl; lia.
Qed.

Lemma total_branches (branches : list (list (list record))) :
  forall repo_activity,
    total commits (fold_left (merge_into Commits) (map collect branches) repo_activity)
    = (total commits repo_activity + length (concat (concat branches)))%nat /\
    total issues (fold_left (merge_into Commits) (map collect branches) repo_activity)
    = total issues repo_activity /\
    total prs (fold_left (merge_into Commits) (map collect branches) repo_activity)
    = total prs repo_activity.
Proof.
  induction branches as [|pages branches IH]; intros ra.
  - simpl. repeat split; lia.
  - cbn [map fold_left concat]. destruct (IH (merge_into Commits ra (collect pages)))
      as (H1 & H2 & H3).
    rewrite H1, H2, H3.
    rewrite (total_merge_into Commits Commits), (total_merge_into Commits Issues),
      (total_merge_into Commits PRs).
    cbn [category_eqb]. rewrite total_collect, concat_app, length_app.
    change (counter Commits) with commits. change (counter Issues) with issues.
    change (counter PRs) with prs. repeat split; lia.
Qed.

(** X18.  Counts are conserved: in the summaries [main] builds for a
    repository, the commit counts of all users add up to the number of
    attributed commit records of all branches and pages, and likewise
    the issue counts and the pull-request counts; no record is lost,
    counted twice or counted in another category. *)
Theorem aggregate_conserves_counts (branches : list (list (list record)))
    (issue_pages pr_pages : list (list record)) :
  let repo_activity :=
    aggregate (map collect branches) (collect issue_pages) (collect pr_pages) in
  total commits repo_activity = length (concat (concat branches)) /\
  total issues repo_activity = length (concat issue_pages) /\
  total prs repo_activity = length (concat pr_pages).
Proof.
  unfold aggregate. cbn zeta.
  destruct (total_branches branches []) as (H1 & H2 & H3).
  rewrite (total_merge_into PRs Commits), (total_merge_into PRs Issues),
    (total_merge_into PRs PRs).
  rewrite (total_merge_into Issues Commits), (total_merge_into Issues Issues),
    (total_merge_into Issues PRs).
  cbn [category_eqb].
  change (counter Commits) with commits. change (counter Issues) with issues.
  change (counter PRs) with prs. rewrite H1, H2, H3, !total_collect.
  unfold total. simpl. repeat split; lia.
Qed.

(** X19.  The stored timestamp only advances: merging a timestamp [t]
    into a stored value with [later] yields a timestamp that is at
    least [t] and at least the stored one, and is one of the two; and
    merging a value with itself changes nothing. *)
Theorem later_only_advances (x : option string) (t : string) :
  later x x = x /\
  exists m,
    later x (Some t) = Some m /\ String.le t m /\
    (m = t \/ x = Some m) /\
    (forall a, x = Some a -> String.le a m).
Proof.
  split.
  - destruct x as [a|]; [|reflexivity]. now rewrite later_some, py_max_idem.
  - destruct x as [a|].
    + exists (py_max a t). rewrite later_some. split; [reflexivity|].
      split; [apply py_max_le_r|]. split.
      * destruct (py_max_cases a t) as [-> | ->]; auto.
      * intros a' [= <-]. apply py_max_le_l.
    + exists t. split; [reflexivity|]. split; [reflexivity|].
      split; [auto | discriminate].
Qed.

Lemma later_only_advances_witness :
  later (Some "2024-02-03T10:00:00Z") (Some "2024-02-03T10:00:00Z")
  = Some "2024-02-03T10:00:00Z" /\
  exists m,
    later (Some "2024-02-03T10:00:00Z") (Some "2024-01-15T10:00:00Z") = Some m /\
    String.le "2024-01-15T10:00:00Z" m /\
    (m = "2024-01-15T10:00:00Z" \/ Some "2024-02-03T10:00:00Z" = Some m) /\
    (forall a, Some "2024-02-03T10:00:00Z" = Some a -> String.le a m).
Proof.
  exact (later_only_advances (Some "2024-02-03T10:00:00Z") "2024-01-15T10:00:00Z").
Defined.

(** ** The report *)

Lemma mapR_length {A B : Type} (f : A -> res B) (l : list A) (ys : list B) :
  mapR f l = Ret ys -> length ys = length l.
Proof.
  intros H. apply mapR_Forall2 in H. symmetry. exact (Forall2_length _ _ _ H).
Qed.

Lemma sorted_length (all_users : gset string) : length (sorted all_users) = size all_users.
Proof.
  unfold sorted. now rewrite (Permutation_length (merge_sort_Permutation _ _)).
Qed.

Lemma save_to_csv_blocks (cutoff : datetime) (all_users : gset string) :
  forall (repo_data : dict (dict summary)) (blocks : list (list (list cell))),
    mapR (fun item : string * dict summary =>
            let* rows := user_rows cutoff (snd item) all_users in
            Ret ([CStr ("Repository: " +:+ fst item)] :: header :: rows ++ [[]]))
         repo_data = Ret blocks ->
    length (concat blocks) = (length repo_data * (size all_users + 3))%nat /\
    forall name activity, In (name, activity) repo_data ->
                          In (title_row name) (concat blocks).
Proof.
  induction repo_data as [|[name activity] repo_data IH]; intros blocks H.
  - injection H as <-. split; [reflexivity | intros ? ? []].
  - cbn [mapR] in H. rbind_inv H. rbind_inv H. injection H as <-.
    cbn [fst snd] in E. rbind_inv E. injection E as <-.
    destruct (IH _ E0) as [Hlen Htitles]. split.
    + cbn [concat]. rewrite length_app. cbn [length]. rewrite length_app, Hlen.
      apply mapR_length in E1. rewrite E1, sorted_length. cbn [length]. lia.
    + intros n act [Heq | Hin].
      * injection Heq as <- <-. cbn [concat]. apply in_or_app. left. now left.
      * cbn [concat]. apply in_or_app. right. eauto.
Qed.

Lemma user_rows_heads (cutoff : datetime) (activity : dict summary)
    (all_users : gset string) (member_rows : list (list cell)) :
  user_rows cutoff activity all_users = Ret member_rows ->
  map hd_error member_rows = map (fun u => Some (CStr u)) (sorted all_users).
Proof.
  unfold user_rows. intros H. apply mapR_Forall2 in H.
  induction H as [|u row us rs Hrow _ IH]; [reflexivity|].
  cbn [map]. rewrite IH, (user_row_head _ _ _ _ Hrow). reflexivity.
Qed.

Lemma blocks_heads (cutoff : datetime) (all_users : gset string)
    (repo_data : dict (dict summary)) (blocks : list (string * list (list cell))) :
  Forall2 (fun (item : string * dict summary) (b : string * list (list cell)) =>
             fst b = fst item /\ user_rows cutoff (snd item) all_users = Ret (snd b))
          repo_data blocks ->
  map fst blocks = map fst repo_data /\
  Forall (fun b => map hd_error (snd b) = map (fun u => Some (CStr u)) (sorted all_users))
         blocks.
Proof.
  induction 1 as [|item b repo_data blocks [Hname Hrows] _ [IHn IHr]].
  - split; [reflexivity | constructor].
  - split; [cbn [map]; now rewrite Hname, IHn|].
    constructor; [exact (user_rows_heads _ _ _ _ Hrows) | exact IHr].
Qed.

(** X20.  Shape of the report: when [save_to_csv] writes the report,
    it is made of one block per repository of [repo_data], in the
    order of [repo_data], each block being the title row of the
    repository, the header, one row per roster member that starts with
    the member's login, in the order of [sorted(all_users)], and an
    empty row; that is [len(repo_data) * (len(all_users) + 3)] rows in
    all, and the title row of every repository is among them. *)
Theorem save_to_csv_shape (now_us threshold_days : Z) (repo_data : dict (dict summary))
    (all_users : gset string) (rows : list (list cell)) :
  save_to_csv now_us threshold_days repo_data all_users = Ret rows ->
  (exists blocks,
     rows = report blocks /\
     map fst blocks = map fst repo_data /\
     Forall (fun b => map hd_error (snd b)
                      = map (fun u => Some (CStr u)) (sorted all_users))
            blocks) /\
  length rows = (length repo_data * (size all_users + 3))%nat /\
  forall name activity, In (name, activity) repo_data -> In (title_row name) rows.
Proof.
  intros H. split.
  - destruct (save_to_csv_inv _ _ _ _ _ H) as (_ & blocks & Hrows & HF).
    exists blocks. split; [exact Hrows|]. exact (blocks_heads _ _ _ _ HF).
  - unfold save_to_csv in H.
    apply rbind_Ret_inv in H as (cutoff & _ & H).
    apply rbind_Ret_inv in H as (written & Hwritten & H). injection H as <-.
    exact (save_to_csv_blocks _ _ _ _ Hwritten).
Qed.

Lemma save_to_csv_shape_witness :
  (exists blocks,
     [title_row "api"; header;
      [CStr "alice"; CInt 3; CInt 0; CInt 0; CStr "2024-02-03T10:00:00Z";
       CStr "Active"];
      silent_row "bob"; []]
     = report blocks /\
     map fst blocks = map fst [("api", repo_example)] /\
     Forall (fun b => map hd_error (snd b)
                      = map (fun u => Some (CStr u)) (sorted roster))
            blocks) /\
  length [title_row "api"; header;
          [CStr "alice"; CInt 3; CInt 0; CInt 0; CStr "2024-02-03T10:00:00Z";
           CStr "Active"];
          silent_row "bob"; []]
  = (length [("api", repo_example)] * (size roster + 3))%nat /\
  forall name activity,
    In (name, activity) [("api", repo_example)] ->
    In (title_row name)
       [title_row "api"; header;
        [CStr "alice"; CInt 3; CInt 0; CInt 0; CStr "2024-02-03T10:00:00Z";
         CStr "Active"];
        silent_row "bob"; []].
Proof.
  apply (save_to_csv_shape march_first_2024 60 [("api", repo_example)] roster).
  reflexivity.
Defined.

Lemma later_Some_None (a : string) : a <> "" -> later (Some a) None = Some a.
Proof.
  intros Ha. apply later_falsy_r; [|reflexivity].
  simpl. now destruct (String.eqb_spec a "").
Qed.

Lemma py_max_nonempty (a b : string) : a <> "" -> py_max a b <> "".
Proof.
  intros Ha E. assert (H : String.le a "") by (rewrite <- E; apply py_max_le_l).
  apply Ha. apply (anti_symm String.le); [exact H | apply le_empty].
Qed.

Lemma overall_latest (s : summary) :
  last_commit s <> Some "" -> last_issue s <> Some "" -> last_pr s <> Some "" ->
  latest (overall (Some s)) (timestamps_of s).
Proof.
  unfold overall, timestamps_of. cbn [mbind option_bind omap list_omap id].
  destruct (last_commit s) as [a|], (last_issue s) as [b|], (last_pr s) as [c|];
    intros Ha Hb Hc; cbn [omap list_omap id].
  - apply (latest_later _ c [a; b] [c]); [|apply latest_singleton].
    apply (latest_later _ b [a] [b]); apply latest_singleton.
  - rewrite later_some, later_Some_None by (apply py_max_nonempty; congruence).
    rewrite <- later_some.
    apply (latest_later _ b [a] [b]); apply latest_singleton.
  - rewrite later_Some_None by congruence.
    apply (latest_later _ c [a] [c]); apply latest_singleton.
  - rewrite !later_Some_None by congruence. apply latest_singleton.
  - apply (latest_later (Some b) c [b] [c]); apply latest_singleton.
  - change (later None (Some b)) with (Some b).
    rewrite later_Some_None by congruence. apply latest_singleton.
  - apply latest_singleton.
  - reflexivity.
Qed.

Lemma in_timestamps_of (s : summary) (t : string) :
  In t (timestamps_of s) ->
  last_commit s = Some t \/ last_issue s = Some t \/ last_pr s = Some t.
Proof.
  unfold timestamps_of.
  destruct (last_commit s) as [a|], (last_issue s) as [b|], (last_pr s) as [c|];
    cbn [omap list_omap id]; simpl; intuition congruence.
Qed.

(** X21.  Content of a member's row: for a member with a summary whose
    timestamps are non-empty, the row written by [save_to_csv] holds
    the login, the three counts of the summary and, as last activity,
    the maximum of the timestamps of the three categories with status
    "Active" or "Inactive", or ["N/A"] with status "Inactive" when the
    summary holds no timestamp. *)
Theorem user_row_content (cutoff : datetime) (activity : dict summary) (user : string)
    (s : summary) (row : list cell) :
  assoc user activity = Some s ->
  last_commit s <> Some "" -> last_issue s <> Some "" -> last_pr s <> Some "" ->
  user_row cutoff activity user = Ret row ->
  exists shown status,
    row = [CStr user; CInt (commits s); CInt (issues s); CInt (prs s);
           CStr shown; CStr status] /\
    ((timestamps_of s = [] /\ shown = "N/A" /\ status = "Inactive") \/
     (latest (Some shown) (timestamps_of s) /\
      (status = "Active" \/ status = "Inactive"))).
Proof.
  intros Hs Ha Hb Hc H. rewrite user_row_eq, Hs in H. cbn zeta in H.
  cbn [from_option] in H. rbind_inv H. injection H as <-.
  exists (fst a), (snd a). split; [reflexivity|].
  pose proof (overall_latest s Ha Hb Hc) as Hl.
  unfold classify in E. destruct (overall (Some s)) as [ts|].
  - destruct (truthy_ts (Some ts)) eqn:Et; simpl in Et.
    + rbind_inv E. rbind_inv E. injection E as <-. right. cbn [fst snd].
      split; [exact Hl|]. destruct a1; auto.
    + exfalso. destruct Hl as [Hin _].
      destruct (String.eqb_spec ts "") as [Hts | Hne]; [|discriminate Et].
      rewrite Hts in Hin.
      apply in_timestamps_of in Hin. destruct Hin as [H | [H | H]]; congruence.
  - injection E as <-. left. simpl in Hl. auto.
Qed.

Lemma user_row_content_witness :
  exists shown status,
    [CStr "alice"; CInt 3; CInt 0; CInt 0; CStr "2024-02-03T10:00:00Z"; CStr "Active"]
    = [CStr "alice"; CInt 3; CInt 0; CInt 0; CStr shown; CStr status] /\
    ((timestamps_of (mk_summary 3 0 0 (Some "2024-02-03T10:00:00Z") None None) = [] /\
      shown = "N/A" /\ status = "Inactive") \/
     (latest (Some shown)
        (timestamps_of (mk_summary 3 0 0 (Some "2024-02-03T10:00:00Z") None None)) /\
      (status = "Active" \/ status = "Inactive"))).
Proof.
  apply (user_row_content (cutoff_of march_first_2024 60) repo_example "alice"
           (mk_summary 3 0 0 (Some "2024-02-03T10:00:00Z") None None)).
  - reflexivity.
  - discriminate.
  - discriminate.
  - discriminate.
  - reflexivity.
Defined.

Lemma classify_naive (cutoff_us : Z) (ts : string) (wall : Z) :
  ts <> "" ->
  fromisoformat (replace "Z" "+00:00" ts) = Ret (mk_datetime wall None) ->
  classify (mk_datetime cutoff_us (Some 0)) (Some ts) = Raise TypeError.
Proof.
  intros Hne Hparse. unfold classify.
  replace (truthy_ts (Some ts)) with true
    by (simpl; now destruct (String.eqb_spec ts "")).
  now rewrite Hparse.
Qed.

Lemma Forall2_In_l {A B : Type} (P : A -> B -> Prop) (l : list A) (ys : list B) (x : A) :
  Forall2 P l ys -> In x l -> exists y, P x y.
Proof.
  induction 1 as [|a b l ys Hab _ IH]; intros Hin; [destruct Hin|].
  destruct Hin as [<- | Hin]; eauto.
Qed.

Lemma classify_terminates (cutoff : datetime) (last_activity : option string) :
  classify cutoff last_activity <> OutOfFuel.
Proof.
  unfold classify, fromisoformat, datetime_ge.
  destruct last_activity as [ts|]; [|discriminate].
  destruct (truthy_ts (Some ts)); [|discriminate].
  destruct (parse_datetime (replace "Z" "+00:00" ts)) as [dt|]; [|discriminate].
  cbn [rbind]. destruct (utcoffset dt), (utcoffset cutoff); discriminate.
Qed.

Lemma mapR_terminates {A B : Type} (f : A -> res B) (l : list A) :
  (forall x, f x <> OutOfFuel) -> mapR f l <> OutOfFuel.
Proof.
  intros Hf. induction l as [|x l IH]; [discriminate|]. cbn [mapR].
  pose proof (Hf x) as Hx. destruct (f x); [|discriminate|congruence].
  cbn [rbind]. destruct (mapR f l); [discriminate|discriminate|congruence].
Qed.

Lemma user_rows_terminates (cutoff : datetime) (activity : dict summary)
    (all_users : gset string) :
  user_rows cutoff activity all_users <> OutOfFuel.
Proof.
  apply mapR_terminates. intros u. rewrite user_row_eq. cbn zeta.
  pose proof (classify_terminates cutoff (overall (assoc u activity))) as H.
  destruct (classify cutoff (overall (assoc u activity))); [discriminate|discriminate|congruence].
Qed.

(** [save_to_csv] has no unbounded loop: it returns or raises. *)
Lemma save_to_csv_terminates (now_us threshold_days : Z) (repo_data : dict (dict summary))
    (all_users : gset string) :
  save_to_csv now_us threshold_days repo_data all_users <> OutOfFuel.
Proof.
  unfold save_to_csv.
  destruct (utc_cutoff now_us threshold_days) as [cutoff|e|] eqn:E;
    [|discriminate|].
  - cbn [rbind].
    match goal with
    | |- context [mapR ?f repo_data] =>
        pose proof (mapR_terminates f repo_data) as H; destruct (mapR f repo_data)
    end; [discriminate|discriminate|].
    exfalso. apply H; [|reflexivity]. intros item.
    pose proof (user_rows_terminates cutoff (snd item) all_users) as Hu.
    destruct (user_rows cutoff (snd item) all_users);
      [discriminate|discriminate|congruence].
  - revert E. unfold utc_cutoff. cbv zeta.
    repeat match goal with |- context [if ?b then _ else _] => destruct b end;
      discriminate.
Qed.

(** X22.  One timestamp without zone information stops the report:
    when, in some repository of [repo_data], the overall last activity
    of some roster member reads as a date and time without offset, its
    comparison with the cutoff raises [TypeError], and [save_to_csv]
    does not complete: it ends by raising an exception. *)
Theorem save_to_csv_aborts (now_us threshold_days : Z) (repo_data : dict (dict summary))
    (all_users : gset string) (name : string) (activity : dict summary)
    (user ts : string) (wall : Z) :
  In (name, activity) repo_data ->
  user ∈ all_users ->
  overall (assoc user activity) = Some ts ->
  ts <> "" ->
  fromisoformat (replace "Z" "+00:00" ts) = Ret (mk_datetime wall None) ->
  classify (cutoff_of now_us threshold_days) (Some ts) = Raise TypeError /\
  exists e, save_to_csv now_us threshold_days repo_data all_users = Raise e.
Proof.
  intros Hin Huser Hoverall Hne Hparse.
  assert (Hraise : classify (cutoff_of now_us threshold_days) (Some ts) = Raise TypeError)
    by (now apply (classify_naive _ ts wall)).
  split; [exact Hraise|].
  pose proof (save_to_csv_terminates now_us threshold_days repo_data all_users) as Hterm.
  destruct (save_to_csv now_us threshold_days repo_data all_users) as [rows|e|] eqn:H;
    [exfalso | eauto | congruence].
  destruct (save_to_csv_inv _ _ _ _ _ H) as (_ & blocks & _ & HF).
  destruct (Forall2_In_l _ _ _ _ HF Hin) as (b & _ & Hb). cbn [snd] in Hb.
  unfold user_rows in Hb. apply mapR_Forall2 in Hb.
  assert (Hs : In user (sorted all_users))
    by (apply list_elem_of_In, elem_of_sorted, Huser).
  destruct (Forall2_In_l _ _ _ _ Hb Hs) as [row Hrow].
  rewrite user_row_eq in Hrow. cbn zeta in Hrow. rewrite Hoverall, Hraise in Hrow.
  discriminate Hrow.
Qed.

Lemma save_to_csv_aborts_witness :
  classify (cutoff_of march_first_2024 60) (Some "2024-02-03T10:00:00") = Raise TypeError /\
  exists e,
    save_to_csv march_first_2024 60 [("api", repo_example); ("web", repo_without_zone)]
      roster = Raise e.
Proof.
  apply (save_to_csv_aborts march_first_2024 60
           [("api", repo_example); ("web", repo_without_zone)] roster
           "web" repo_without_zone "alice" "2024-02-03T10:00:00"
           (civil_us 2024 2 3 10 0 0)).
  - simpl. auto.
  - unfold roster. apply elem_of_union. right. now apply elem_of_singleton.
  - reflexivity.
  - discriminate.
  - reflexivity.
Defined.

(** In the example the exception is the [TypeError] of the
    comparison. *)
Example report_without_zone :
  save_to_csv march_first_2024 60 [("api", repo_example); ("web", repo_without_zone)]
    roster = Raise TypeError.
Proof. reflexivity. Qed.

(** ** One organization *)

Lemma get_all_org_members_fails (net : network) (org : string) (fuel : nat) (w : world) :
  (forall i, (i < 3)%nat ->
     payload (net (posts w + i)%nat (members_request org JNull)) = None) ->
  exists pauses,
    get_all_org_members net org (S fuel) w
    = (Ret ∅, mk_world (posts w + 3) (slept w ++ pauses)).
Proof.
  intros Hfail.
  destruct (run_query_fails net QMembers (org_variables org JNull) w Hfail) as [pauses E].
  exists pauses. unfold get_all_org_members.
  apply (get_all_org_members_loop_stops net org fuel ∅ JNull JNull _ _ E eq_refl).
Qed.

Lemma get_all_repos_fails (net : network) (org : string) (fuel : nat) (w : world) :
  (forall i, (i < 3)%nat ->
     payload (net (posts w + i)%nat (repos_request org JNull)) = None) ->
  exists pauses,
    get_all_repos net org (S fuel) w
    = (Ret [], mk_world (posts w + 3) (slept w ++ pauses)).
Proof.
  intros Hfail.
  destruct (run_query_fails net QRepos (org_variables org JNull) w Hfail) as [pauses E].
  exists pauses. unfold get_all_repos.
  apply (get_all_repos_loop_stops net org fuel [] JNull JNull _ _ E eq_refl).
Qed.

(** X23.  An organization that cannot be reached gives an empty
    report, not an error of the network: when the member query and
    then the repository query fail on all three attempts each, the run
    for that organization ends after these six POSTs; it writes a
    report of no rows when the cutoff exists at that time, and
    otherwise raises the [OverflowError] of line 296. *)
Theorem main_org_unreachable (net : network) (clock : world -> Z) (threshold_days : Z)
    (org : string) (fuel : nat) (w : world) :
  (forall i, (i < 3)%nat ->
     payload (net (posts w + i)%nat (members_request org JNull)) = None) ->
  (forall i, (i < 3)%nat ->
     payload (net (posts w + 3 + i)%nat (repos_request org JNull)) = None) ->
  exists pauses,
    let w' := mk_world (posts w + 6) (slept w ++ pauses) in
    (valid_cutoff (clock w') threshold_days ->
     main_org net clock threshold_days org (S fuel) w = (Ret [], w')) /\
    (~ valid_cutoff (clock w') threshold_days ->
     main_org net clock threshold_days org (S fuel) w = (Raise OverflowError, w')).
Proof.
  intros Hm Hr.
  destruct (get_all_org_members_fails net org fuel w Hm) as [p1 E1].
  destruct (get_all_repos_fails net org fuel
              (mk_world (posts w + 3) (slept w ++ p1)) Hr) as [p2 E2].
  exists (p1 ++ p2). cbv zeta.
  assert (Hrun : main_org net clock threshold_days org (S fuel) w
                 = (save_to_csv (clock (mk_world (posts w + 6) (slept w ++ p1 ++ p2)))
                      threshold_days [] ∅,
                    mk_world (posts w + 6) (slept w ++ p1 ++ p2))).
  { unfold main_org. unfold bind at 1. rewrite E1. unfold bind at 1. rewrite E2.
    cbn [posts slept foldM bind ret]. rewrite <- app_assoc.
    replace (posts w + 3 + 3)%nat with (posts w + 6)%nat by lia. reflexivity. }
  rewrite Hrun. unfold save_to_csv. split; intros Hv.
  - now rewrite (utc_cutoff_valid _ _ Hv).
  - now rewrite (utc_cutoff_overflow _ _ Hv).
Qed.

Lemma main_org_unreachable_witness :
  exists pauses,
    let w' := mk_world (posts w0 + 6) (slept w0 ++ pauses) in
    (valid_cutoff (clock_example w') 60 ->
     main_org always_down clock_example 60 "acme" 1 w0 = (Ret [], w')) /\
    (~ valid_cutoff (clock_example w') 60 ->
     main_org always_down clock_example 60 "acme" 1 w0 = (Raise OverflowError, w')).
Proof.
  apply (main_org_unreachable always_down clock_example 60 "acme" 0 w0);
    intros i _; reflexivity.
Defined.

(** With the clock of the example the cutoff exists, and the report is
    empty. *)
Example main_org_always_down :
  main_org always_down clock_example 60 "acme" 1 w0
  = (Ret [], mk_world 6 [5; 10; 5; 10]).
Proof. vm_compute. reflexivity. Qed.

Lemma length_dict_set {V : Type} (k : string) (v : V) (d : dict V) :
  (length (dict_set k v d) <= S (length d))%nat.
Proof.
  induction d as [|[k' v'] d IH]; simpl; [lia|].
  destruct (String.eqb k k'); simpl; lia.
Qed.

Lemma assoc_dict_set_is_Some {V : Type} (k k' : string) (v : V) (d : dict V) :
  assoc k' d <> None -> assoc k' (dict_set k v d) <> None.
Proof.
  intros H. destruct (String.eqb_spec k k') as [->|Hne].
  - now rewrite assoc_dict_set_eq.
  - now rewrite assoc_dict_set_ne.
Qed.

Lemma foldM_main_step (net : network) (org : string) (fuel : nat) :
  forall (repos : list json) (acc acc' : dict (dict summary)) (w w' : world),
    foldM (main_step net org fuel) acc repos w = (Ret acc', w') ->
    (forall repo, In repo repos ->
                  exists name, repo = JStr name /\ assoc name acc' <> None) /\
    (forall k, assoc k acc <> None -> assoc k acc' <> None) /\
    (length acc' <= length acc + length repos)%nat.
Proof.
  induction repos as [|repo repos IH]; intros acc acc' w w' H.
  - apply ret_inv in H as [<- _]. split; [intros ? []|]. split; [auto | simpl; lia].
  - cbn [foldM] in H. bind_inv H. unfold main_step in E.
    bind_inv E. bind_inv E. apply ret_inv in E as [<- _].
    apply lift_Ret_inv in E0 as [E0 _].
    destruct repo as [ | | | name | | ]; try discriminate E0. injection E0 as <-.
    destruct (IH _ _ _ _ H) as (Hall & Hkeep & Hlen). split; [|split].
    + intros r [<- | Hr]; [|now apply Hall].
      exists name. split; [reflexivity|]. apply Hkeep.
      now rewrite assoc_dict_set_eq.
    + intros k Hk. apply Hkeep. now apply assoc_dict_set_is_Some.
    + pose proof (length_dict_set name a1 acc). simpl. lia.
Qed.

(** X24.  No listed repository is missing from the report: when the
    run for an organization writes its report, every repository that
    [get_all_repos] returned has its title row in it, and the report
    has [k * (len(all_users) + 3)] rows for a number [k] of
    repositories that is at most the number listed. *)
Theorem main_org_reports_every_repo (net : network) (clock : world -> Z)
    (threshold_days : Z) (org : string) (fuel : nat) (w w' : world)
    (rows : list (list cell)) :
  main_org net clock threshold_days org fuel w = (Ret rows, w') ->
  exists users w1 repos w2,
    get_all_org_members net org fuel w = (Ret users, w1) /\
    get_all_repos net org fuel w1 = (Ret repos, w2) /\
    (forall repo, In repo repos ->
                  exists name, repo = JStr name /\ In (title_row name) rows) /\
    exists k, (k <= length repos)%nat /\ length rows = (k * (size users + 3))%nat.
Proof.
  intros H. unfold main_org in H. bind_inv H. bind_inv H. bind_inv H.
  injection H as H <-.
  exists a, w1, a0, w2. split; [exact E|]. split; [exact E0|].
  destruct (foldM_main_step net org fuel _ _ _ _ _ E1) as (Hall & _ & Hlen).
  unfold save_to_csv in H. rbind_inv H. rbind_inv H. injection H as <-.
  destruct (save_to_csv_blocks _ _ _ _ E3) as [Hrows Htitles]. split.
  - intros repo Hrepo. destruct (Hall repo Hrepo) as (name & -> & Hsome).
    exists name. split; [reflexivity|].
    destruct (assoc name a1) as [activity|] eqn:Ea; [|congruence].
    apply (Htitles name activity). now apply assoc_In.
  - exists (length a1). split; [simpl in Hlen; lia | exact Hrows].
Qed.

Lemma main_org_reports_every_repo_witness :
  exists users w1 repos w2,
    get_all_org_members scenario_org "acme" 1 w0 = (Ret users, w1) /\
    get_all_repos scenario_org "acme" 1 w1 = (Ret repos, w2) /\
    (forall repo, In repo repos ->
       exists name,
         repo = JStr name /\
         In (title_row name)
            [title_row "api"; header;
             [CStr "alice"; CInt 3; CInt 0; CInt 0; CStr "2024-02-03T10:00:00Z";
              CStr "Active"];
             [CStr "bob"; CInt 0; CInt 1; CInt 0; CStr "2024-02-10T08:00:00Z";
              CStr "Active"];
             []]) /\
    exists k, (k <= length repos)%nat /\
              length [title_row "api"; header;
                      [CStr "alice"; CInt 3; CInt 0; CInt 0;
                       CStr "2024-02-03T10:00:00Z"; CStr "Active"];
                      [CStr "bob"; CInt 0; CInt 1; CInt 0;
                       CStr "2024-02-10T08:00:00Z"; CStr "Active"];
                      []]
              = (k * (size users + 3))%nat.
Proof.
  apply (main_org_reports_every_repo scenario_org clock_example 60 "acme" 1 w0
           (mk_world 6 [])).
  vm_compute. reflexivity.
Defined.

(** ** [ORG_NAMES] *)

Lemma split_nonempty (sep : N) (s : text) : split sep s <> [].
Proof.
  induction s as [|c s IH]; simpl; [discriminate|].
  destruct (c =? sep)%N; [discriminate|]. now destruct (split sep s).
Qed.

Lemma split_length (sep : N) (s : text) :
  length (split sep s) = S (count_char sep s).
Proof.
  induction s as [|c s IH]; simpl; [reflexivity|].
  destruct (c =? sep)%N; simpl; [now rewrite IH|].
  pose proof (split_nonempty sep s). destruct (split sep s); [contradiction|].
  simpl in *. lia.
Qed.

Lemma lstrip_first (s : text) : first_is_space (lstrip s) = false.
Proof.
  induction s as [|c s IH]; simpl; [reflexivity|].
  destruct (is_space c) eqn:E; [exact IH | simpl; exact E].
Qed.

Lemma rstrip_last (s : text) : last_is_space (rstrip s) = false.
Proof.
  induction s as [|c s IH]; [reflexivity|]. cbn [rstrip].
  destruct (rstrip s) as [|d r].
  - destruct (is_space c) eqn:E; [reflexivity | simpl; exact E].
  - exact IH.
Qed.

Lemma rstrip_first (s : text) :
  first_is_space s = false -> first_is_space (rstrip s) = false.
Proof.
  destruct s as [|c s]; [reflexivity|]. cbn [first_is_space rstrip]. intros E.
  destruct (rstrip s); [rewrite E|]; simpl; exact E.
Qed.

Lemma rstrip_id (s : text) : last_is_space s = false -> rstrip s = s.
Proof.
  induction s as [|c s IH]; [reflexivity|]. cbn [rstrip]. intros H.
  destruct s as [|d r].
  - simpl in *. now rewrite H.
  - rewrite IH by exact H. reflexivity.
Qed.

Lemma strip_id (s : text) :
  first_is_space s = false -> last_is_space s = false -> strip s = s.
Proof.
  intros Hf Hl. unfold strip.
  assert (lstrip s = s) as -> by (destruct s; simpl in *; [reflexivity | now rewrite Hf]).
  now apply rstrip_id.
Qed.

(** X25.  [ORG_NAMES] is never empty and its names are trimmed: it has
    one name more than the variable has commas, exactly the empty name
    when the variable is unset, and no name starts or ends with a
    character that [str.isspace] accepts, Unicode white space
    included. *)
Theorem ORG_NAMES_shape (env : option text) :
  length (ORG_NAMES env) = S (count_char comma (from_option id [] env)) /\
  ORG_NAMES None = [[]] /\
  Forall (fun name => first_is_space name = false /\ last_is_space name = false)
         (ORG_NAMES env).
Proof.
  unfold ORG_NAMES. split; [|split].
  - now rewrite length_map, split_length.
  - reflexivity.
  - apply Forall_forall. intros name Hin. apply list_elem_of_In, in_map_iff in Hin.
    destruct Hin as (piece & <- & _). unfold strip. split.
    + apply rstrip_first, lstrip_first.
    + apply rstrip_last.
Qed.

Lemma split_plain (sep : N) (x : text) :
  count_char sep x = 0%nat -> split sep x = [x].
Proof.
  induction x as [|c x IH]; simpl; [reflexivity|].
  destruct (c =? sep)%N; [discriminate|]. simpl. intros H. now rewrite IH.
Qed.

Lemma split_app (sep : N) (x rest : text) :
  count_char sep x = 0%nat ->
  split sep (x ++ sep :: rest) = x :: split sep rest.
Proof.
  induction x as [|c x IH]; simpl.
  - intros _. now rewrite N.eqb_refl.
  - destruct (c =? sep)%N; [discriminate|]. simpl. intros H. now rewrite IH.
Qed.

Lemma split_join (sep : N) (names : list text) :
  names <> [] ->
  Forall (fun x => count_char sep x = 0%nat) names ->
  split sep (join sep names) = names.
Proof.
  induction names as [|x rest IH]; intros Hne Hall; [congruence|].
  apply Forall_cons in Hall as [Hx Hrest]. destruct rest as [|y rest'].
  - now apply split_plain.
  - cbn [join]. rewrite split_app by exact Hx. f_equal.
    apply IH; [discriminate | exact Hrest].
Qed.

(** X26.  Round trip of the organization list: a non-empty list of
    names without commas and without white space, in the sense of
    [str.isspace], at their ends, written with commas between them, is
    read back by [ORG_NAMES] as just that list, in order. *)
Theorem ORG_NAMES_round_trip (names : list text) :
  names <> [] ->
  Forall plain_name names ->
  ORG_NAMES (Some (join comma names)) = names.
Proof.
  intros Hne Hall. unfold ORG_NAMES. cbn [from_option id].
  rewrite split_join; [|exact Hne|].
  - clear Hne. induction Hall as [|x l (_ & Hf & Hl) _ IH]; [reflexivity|].
    cbn [map]. rewrite strip_id by assumption. f_equal. exact IH.
  - eapply Forall_impl; [exact Hall|]. now intros x (H & _).
Qed.

Lemma ORG_NAMES_round_trip_witness :
  ORG_NAMES (Some (codes "acme,globex-corp,initech"))
  = [codes "acme"; codes "globex-corp"; codes "initech"].
Proof.
  apply (ORG_NAMES_round_trip [codes "acme"; codes "globex-corp"; codes "initech"]).
  - discriminate.
  - repeat constructor.
Defined.

(** White space around the commas is removed, and an empty piece stays
    an empty name. *)
Example ORG_NAMES_trims :
  ORG_NAMES (Some (codes " acme , globex ,,initech "))
  = [codes "acme"; codes "globex"; []; codes "initech"].
Proof. reflexivity. Qed.

(** So is white space outside ASCII: a no-break space (U+00A0) before
    a name and an em space (U+2003) after it. *)
Example ORG_NAMES_trims_unicode :
  ORG_NAMES (Some (160 :: codes "acme" ++ 8195 :: codes ",globex"))%N
  = [codes "acme"; codes "globex"].
Proof. reflexivity. Qed.

(** A zero-width space (U+200B) is not white space for [str.isspace],
    and stays. *)
Example ORG_NAMES_keeps_zero_width :
  ORG_NAMES (Some (8203 :: codes "acme"))%N = [(8203 :: codes "acme")%N].
Proof. reflexivity. Qed.
